(** * fezwd-backend: status ingestion, request signing and log retention

    A shallow embedding of the two server programs of the repository:

    - [src/server.js]: the snapshot-backed server.  Statuses live in one JSON
      snapshot row, log rows in a [logs] table that [addLog] trims to the
      200 most recent rows.  This is the retention-bounded variant.
    - [src/unnamed/part_000]: the table-backed server.  Statuses and logs
      live in two tables, every accepted report writes a log row, and an
      acknowledgment route flips the [acknowledged] column.

    JavaScript strings are represented by the bytes of their UTF-8 encoding
    (Rocq [string]); buffers are [list ascii].  A string with an unpaired
    surrogate, which only an escape in a JSON body can produce, has no such
    encoding and is not represented.  Node and PostgreSQL
    primitives the programs call are embedded next to the code that uses
    them.  A store call fails only for the reasons embedded with it (a
    duplicate primary key, a parameter the column's type does not accept:
    a number that is no BIGINT, a text with a zero byte); a lost connection
    is not part of the model.  The clock readings are those of
    [Date.now()], whole milliseconds. *)

From Stdlib Require Import ZArith NArith QArith Qabs Lqa Lia.
From Stdlib Require Import Ascii String List Permutation Sorted.
From stdpp Require Import base option list gmap strings.

Close Scope Q_scope.
Open Scope string_scope.
Open Scope list_scope.
Open Scope Z_scope.

(** ** Node runtime: numbers and values *)

(** A JavaScript number: [Fin q] is a finite double taken at its exact
    rational value.  Arithmetic on finite numbers is exact; the rounding
    of a double operation is not part of the model (timestamps are whole
    milliseconds far below 2^53, where there is none). *)
Inductive jsnum : Type :=
| NaN : jsnum
| Inf (negative : bool) : jsnum
| Fin (q : Q) : jsnum.

(** [Number.isFinite]. *)
Definition Number_isFinite (x : jsnum) : bool :=
  match x with Fin _ => true | _ => false end.

(** ToBoolean on a number: [NaN] and both zeros are falsy. *)
Definition num_truthy (x : jsnum) : bool :=
  match x with
  | NaN => false
  | Inf _ => true
  | Fin q => negb (Qeq_bool q 0)
  end.

(** The JSON values a report field can carry, together with [undefined]
    for an absent field.  Arrays and objects are not part of the modelled
    input type. *)
Inductive jsval : Type :=
| JUndefined : jsval
| JNull : jsval
| JBool (b : bool) : jsval
| JNum (x : jsnum) : jsval
| JStr (s : string) : jsval.

Definition str_truthy (s : string) : bool :=
  match s with EmptyString => false | String _ _ => true end.

(** ToBoolean, as used by [!x] and [x || y]. *)
Definition truthy (v : jsval) : bool :=
  match v with
  | JUndefined | JNull => false
  | JBool b => b
  | JNum x => num_truthy x
  | JStr s => str_truthy s
  end.

(** A string-valued field that may be absent: [x || y] and [!x] treat the
    absent field and the empty string alike. *)
Definition opt_truthy (o : option string) : bool :=
  match o with Some s => str_truthy s | None => false end.

(** ** Node runtime: hexadecimal buffers *)

Definition hexdigit (n : N) : ascii :=
  ascii_of_N (if (n <? 10)%N then 48 + n else 87 + n)%N.

(** One character of a hex string, either case; [None] for anything else. *)
Definition unhex (c : ascii) : option N :=
  let n := N_of_ascii c in
  if ((48 <=? n) && (n <=? 57))%N then Some (n - 48)%N
  else if ((97 <=? n) && (n <=? 102))%N then Some (n - 87)%N
  else if ((65 <=? n) && (n <=? 70))%N then Some (n - 55)%N
  else None.

(** [buf.toString("hex")] and [digest("hex")]: two lowercase digits a byte. *)
Fixpoint hex_of_buffer (b : list ascii) : string :=
  match b with
  | [] => EmptyString
  | a :: rest =>
      let n := N_of_ascii a in
      String (hexdigit (n / 16)) (String (hexdigit (n mod 16)) (hex_of_buffer rest))
  end.

(** [Buffer.from(s, "hex")]: decodes pair by pair and stops, keeping what
    it has, at the first pair that is not two hex digits; a trailing single
    character is dropped. *)
Fixpoint Buffer_from_hex (s : string) : list ascii :=
  match s with
  | String c1 (String c2 rest) =>
      match unhex c1, unhex c2 with
      | Some hi, Some lo => ascii_of_N (16 * hi + lo) :: Buffer_from_hex rest
      | _, _ => []
      end
  | _ => []
  end.

(** What the programs can see thrown: the RangeError of
    [crypto.timingSafeEqual], and the errors with which PostgreSQL rejects a
    statement: a duplicate primary key, and a value that the type of its
    column does not accept (PostgreSQL's data exceptions: the text of a
    number that is no integer or is out of range, a text with a zero
    byte). *)
Inductive exn : Type :=
| RangeError : exn
| PgUniqueViolation : exn
| PgInvalidInput : exn.

Inductive completion (A : Type) : Type :=
| Normal (a : A) : completion A
| Throw (e : exn) : completion A.
Arguments Normal {A} a.
Arguments Throw {A} e.

Fixpoint bytes_eqb (a b : list ascii) : bool :=
  match a, b with
  | [], [] => true
  | x :: a', y :: b' => Ascii.eqb x y && bytes_eqb a' b'
  | _, _ => false
  end.

Definition try_catch {A : Type} (c : completion A) (handler : exn -> completion A)
    : completion A :=
  match c with
  | Normal a => Normal a
  | Throw e => handler e
  end.

(** [crypto.timingSafeEqual]: throws a RangeError when the two buffers
    differ in length. *)
Definition crypto_timingSafeEqual (a b : list ascii) : completion bool :=
  if Nat.eqb (List.length a) (List.length b)
  then Normal (bytes_eqb a b)
  else Throw RangeError.

(** ** Node runtime: UTF-8 decoding of a buffer *)

Definition replacement_char : list ascii :=
  [ascii_of_N 239; ascii_of_N 191; ascii_of_N 189].

Inductive lead_class : Type :=
| LeadAscii : lead_class
| LeadMulti (needed : nat) (lo hi : N) : lead_class
| LeadInvalid : lead_class.

Definition classify_lead (n : N) : lead_class :=
  if (n <=? 127)%N then LeadAscii
  else if ((194 <=? n) && (n <=? 223))%N then LeadMulti 1 128 191
  else if (n =? 224)%N then LeadMulti 2 160 191
  else if (n =? 237)%N then LeadMulti 2 128 159
  else if ((225 <=? n) && (n <=? 239))%N then LeadMulti 2 128 191
  else if (n =? 240)%N then LeadMulti 3 144 191
  else if ((241 <=? n) && (n <=? 243))%N then LeadMulti 3 128 191
  else if (n =? 244)%N then LeadMulti 3 128 143
  else LeadInvalid.

(** The decoder behind [buf.toString("utf8")]: well-formed sequences are
    kept, every maximal ill-formed part becomes one U+FFFD.  [pending]
    holds the bytes of the sequence being read, [needed] how many
    continuation bytes it still lacks, [lo..hi] the range allowed for the
    next one. *)
Fixpoint utf8_scan (pending : list ascii) (needed : nat) (lo hi : N)
    (bs : list ascii) : list ascii :=
  match bs with
  | [] => match needed with O => [] | S _ => replacement_char end
  | b :: rest =>
      let n := N_of_ascii b in
      let as_lead :=
        match classify_lead n with
        | LeadAscii => b :: utf8_scan [] 0 128 191 rest
        | LeadMulti k l h => utf8_scan [b] k l h rest
        | LeadInvalid => replacement_char ++ utf8_scan [] 0 128 191 rest
        end in
      match needed with
      | O => as_lead
      | S k =>
          if ((lo <=? n) && (n <=? hi))%N then
            match k with
            | O => pending ++ b :: utf8_scan [] 0 128 191 rest
            | S _ => utf8_scan (pending ++ [b]) k 128 191 rest
            end
          else replacement_char ++ as_lead
      end
  end.

Definition Buffer_toString_utf8 (b : list ascii) : string :=
  string_of_list_ascii (utf8_scan [] 0 128 191 b).

(** ** Node runtime: SHA-256 and HMAC (FIPS 180-4, RFC 2104) *)

Module SHA256.

(** The low 32 bits: [x mod 2^32], written as the mask. *)
Definition wrap32 (x : Z) : Z := Z.land x 0xffffffff.
Definition add32 (a b : Z) : Z := wrap32 (a + b).
Definition rotr (n x : Z) : Z :=
  Z.lor (Z.shiftr x n) (wrap32 (Z.shiftl x (32 - n))).

Definition Ch (x y z : Z) : Z :=
  Z.lxor (Z.land x y) (Z.land (Z.lxor x 0xffffffff) z).
Definition Maj (x y z : Z) : Z :=
  Z.lxor (Z.lxor (Z.land x y) (Z.land x z)) (Z.land y z).
Definition Sigma0 (x : Z) : Z := Z.lxor (Z.lxor (rotr 2 x) (rotr 13 x)) (rotr 22 x).
Definition Sigma1 (x : Z) : Z := Z.lxor (Z.lxor (rotr 6 x) (rotr 11 x)) (rotr 25 x).
Definition sigma0 (x : Z) : Z := Z.lxor (Z.lxor (rotr 7 x) (rotr 18 x)) (Z.shiftr x 3).
Definition sigma1 (x : Z) : Z := Z.lxor (Z.lxor (rotr 17 x) (rotr 19 x)) (Z.shiftr x 10).

(** The constants of FIPS 180-4 come from the primes: the first 32 bits
    of the fractional part of the cube root of each of the first 64 primes
    (the round constants), and of the square root of each of the first 8
    (the initial hash value). *)
Definition is_prime (n : Z) : bool :=
  forallb (fun d => negb (n mod Z.of_nat d =? 0)) (seq 2 (Z.to_nat n - 2)).

Definition primes : list Z := List.filter is_prime (map Z.of_nat (seq 2 310)).

(** The integer cube root, found bit by bit from the top. *)
Fixpoint cube_root (bit : nat) (n acc : Z) : Z :=
  match bit with
  | O => acc
  | S b =>
      let c := acc + Z.shiftl 1 (Z.of_nat b) in
      if c * c * c <=? n then cube_root b n c else cube_root b n acc
  end.

Definition K : list Z :=
  Eval vm_compute in map (fun p => wrap32 (cube_root 40 (Z.shiftl p 96) 0)) primes.

(** The eight working variables a..h, also the chaining value. *)
Record regs : Type := Regs { ra : Z; rb : Z; rc : Z; rd : Z; re : Z; rf : Z; rg : Z; rh : Z }.

Definition root_bits (p : Z) : Z := wrap32 (Z.sqrt (Z.shiftl p 64)).

Definition H0 : regs :=
  Eval vm_compute in
    Regs (root_bits 2) (root_bits 3) (root_bits 5) (root_bits 7)
         (root_bits 11) (root_bits 13) (root_bits 17) (root_bits 19).

Definition byteZ (a : ascii) : Z := Z.of_N (N_of_ascii a).
Definition Zbyte (z : Z) : ascii := ascii_of_N (Z.to_N (z mod 256)).

(** Big-endian bytes of a 32-bit word, and of the 64-bit message length. *)
Definition word_bytes (w : Z) : list ascii :=
  [Zbyte (Z.shiftr w 24); Zbyte (Z.shiftr w 16); Zbyte (Z.shiftr w 8); Zbyte w].
Definition length_bytes (bits : Z) : list ascii :=
  word_bytes (Z.shiftr bits 32) ++ word_bytes bits.

Definition pad (msg : list ascii) : list ascii :=
  let len := Z.of_nat (List.length msg) in
  let zeros := Z.to_nat ((55 - len) mod 64) in
  msg ++ Zbyte 128 :: List.repeat (Zbyte 0) zeros ++ length_bytes (8 * len).

Fixpoint words (n : nat) (bs : list ascii) : list Z :=
  match n, bs with
  | S n', b0 :: b1 :: b2 :: b3 :: rest =>
      (Z.shiftl (byteZ b0) 24 + Z.shiftl (byteZ b1) 16 + Z.shiftl (byteZ b2) 8 + byteZ b3)
        :: words n' rest
  | _, _ => []
  end.

(** Message schedule, kept newest word first while it is extended. *)
Fixpoint extend (n : nat) (rev_w : list Z) : list Z :=
  match n with
  | O => rev_w
  | S n' =>
      let w := add32 (add32 (sigma1 (nth 1 rev_w 0)) (nth 6 rev_w 0))
                     (add32 (sigma0 (nth 14 rev_w 0)) (nth 15 rev_w 0)) in
      extend n' (w :: rev_w)
  end.

Definition schedule (block : list Z) : list Z := rev (extend 48 (rev block)).

Definition round (s : regs) (kw : Z * Z) : regs :=
  let t1 := add32 (add32 (add32 (rh s) (Sigma1 (re s)))
                         (add32 (Ch (re s) (rf s) (rg s)) (fst kw))) (snd kw) in
  let t2 := add32 (Sigma0 (ra s)) (Maj (ra s) (rb s) (rc s)) in
  Regs (add32 t1 t2) (ra s) (rb s) (rc s) (add32 (rd s) t1) (re s) (rf s) (rg s).

Definition compress (h : regs) (block : list Z) : regs :=
  let s := fold_left round (combine K (schedule block)) h in
  Regs (add32 (ra h) (ra s)) (add32 (rb h) (rb s)) (add32 (rc h) (rc s))
       (add32 (rd h) (rd s)) (add32 (re h) (re s)) (add32 (rf h) (rf s))
       (add32 (rg h) (rg s)) (add32 (rh h) (rh s)).

Fixpoint blocks (n : nat) (h : regs) (bs : list ascii) : regs :=
  match n with
  | O => h
  | S n' => blocks n' (compress h (words 16 (firstn 64 bs))) (skipn 64 bs)
  end.

Definition output (h : regs) : list ascii :=
  word_bytes (ra h) ++ word_bytes (rb h) ++ word_bytes (rc h) ++ word_bytes (rd h)
  ++ word_bytes (re h) ++ word_bytes (rf h) ++ word_bytes (rg h) ++ word_bytes (rh h).

Definition sha256 (msg : list ascii) : list ascii :=
  let p := pad msg in
  output (blocks (Nat.div (List.length p) 64) H0 p).

Definition xor_byte (c : Z) (a : ascii) : ascii := Zbyte (Z.lxor (byteZ a) c).

(** HMAC with the 64-byte block of SHA-256: a longer key is hashed first,
    a shorter one padded with zeros. *)
Definition hmac (key msg : list ascii) : list ascii :=
  let k0 := if Nat.ltb 64 (List.length key) then sha256 key else key in
  let k := k0 ++ List.repeat (Zbyte 0) (64 - List.length k0) in
  sha256 (map (xor_byte 0x5c) k ++ sha256 (map (xor_byte 0x36) k ++ msg)).

End SHA256.

(** [crypto.createHmac("sha256", secret).update(msg).digest("hex")]; a
    string argument is hashed as its UTF-8 bytes. *)
Definition hmacHex (secret msg : string) : string :=
  hex_of_buffer (SHA256.hmac (list_ascii_of_string secret) (list_ascii_of_string msg)).

Example sha256_constants :
  List.length SHA256.K = 64%nat
  /\ firstn 2 SHA256.K = [0x428a2f98; 0x71374491]
  /\ skipn 63 SHA256.K = [0xc67178f2]
  /\ SHA256.ra SHA256.H0 = 0x6a09e667 /\ SHA256.rh SHA256.H0 = 0x5be0cd19.
Proof. vm_compute. repeat split; reflexivity. Qed.

Example sha256_abc :
  hex_of_buffer (SHA256.sha256 (list_ascii_of_string "abc"))
  = "ba7816bf8f01cfea414140de5dae2223b00361a396177a9cb410ff61f20015ad".
Proof. vm_compute. reflexivity. Qed.

Example hmac_rfc4231_case2 :
  hmacHex "Jefe" "what do ya want for nothing?"
  = "5bdcc146bf60754e6a042426089575c75a003f089d2739839dec58b964ec3843".
Proof. vm_compute. reflexivity. Qed.

Example hmac_rfc4231_case6 :
  hex_of_buffer
    (SHA256.hmac (List.repeat (SHA256.Zbyte 0xaa) 131)
       (list_ascii_of_string "Test Using Larger Than Block-Size Key - Hash Key First"))
  = "60e431591ee0b67f0d8a26aacbf5b77f8e0bc6213728c5140546040f0ee37f54".
Proof. vm_compute. reflexivity. Qed.

Example utf8_keeps_wellformed :
  Buffer_toString_utf8 (list_ascii_of_string "aé—b") = "aé—b".
Proof. vm_compute. reflexivity. Qed.

Example utf8_replaces_illformed :
  Buffer_toString_utf8 [ascii_of_N 97; ascii_of_N 255; ascii_of_N 226; ascii_of_N 128; ascii_of_N 98]
  = string_of_list_ascii
      ([ascii_of_N 97] ++ replacement_char ++ replacement_char ++ [ascii_of_N 98]).
Proof. vm_compute. reflexivity. Qed.

Example hex_truncates :
  Buffer_from_hex "1ag123" = [ascii_of_N 26] /\ Buffer_from_hex "1a7" = [ascii_of_N 26].
Proof. split; reflexivity. Qed.

(** ** Requests *)

(** The fields the ingest route reads from the parsed JSON body. *)
Record Report : Type := {
  component : option string;
  severity : option string;
  reason : option string;
  detail : option string;
  updatedAt : jsval
}.

(** [req.body || {}]: without a parsed body every field is [undefined]. *)
Definition no_fields : Report :=
  {| component := None; severity := None; reason := None; detail := None;
     updatedAt := JUndefined |}.

(** What the handlers read from a request: the three signing headers
    ([req.header] gives [undefined] for a header that was not sent), the
    raw body captured by the [verify] hook of [express.json], and the
    parsed body. *)
Record Request : Type := {
  x_ts : option string;
  x_nonce : option string;
  x_signature : option string;
  rawBody : option (list ascii);
  body : option Report
}.

Definition fields (req : Request) : Report := default no_fields (body req).

Inductive verdict : Type :=
| Verified : verdict
| Rejected (why : string) : verdict.

(** [Math.abs(now - x) > limit] for the clock reading [now]. *)
Definition skew_exceeds (now : Z) (x : jsnum) (limit : Z) : bool :=
  match x with
  | NaN => false
  | Inf _ => true
  | Fin q => negb (Qle_bool (Qabs (inject_Z now - q)) (inject_Z limit))
  end.

(** [process.env.SHARED_SECRET || "change-me"]. *)
Definition SHARED_SECRET (env : option string) : string :=
  if opt_truthy env then default "" env else "change-me".

(** The text both verifiers sign: [`${ts}.${nonce}.${body}`], the body
    being the raw body read as UTF-8, or the empty string without one. *)
Definition signed_payload (ts nonce : string) (raw : option (list ascii)) : string :=
  ts ++ "." ++ nonce ++ "." ++
  match raw with Some b => Buffer_toString_utf8 b | None => "" end.

(** ** Conversions at concrete inputs

    [StringToNumber] and [toLowerCase] are parameters of the development
    (ECMAScript's StringToNumber with its rounding to a double, Unicode
    case folding).  The two functions below instantiate them for concrete
    runs: [decimal_StringToNumber] is what [Number] returns on strings of
    decimal digits below 2^53 and on words of letters such as [abc], and
    [ascii_toLowerCase] is [toLowerCase] on ASCII strings. *)

Fixpoint decimal_value (acc : Z) (s : string) : option Z :=
  match s with
  | EmptyString => Some acc
  | String c rest =>
      let n := Z.of_N (N_of_ascii c) in
      if (48 <=? n) && (n <=? 57) then decimal_value (10 * acc + (n - 48)) rest
      else None
  end.

Definition decimal_StringToNumber (s : string) : jsnum :=
  match decimal_value 0 s with
  | Some z => Fin (inject_Z z)
  | None => NaN
  end.

Definition ascii_lower (c : ascii) : ascii :=
  let n := N_of_ascii c in
  if ((65 <=? n) && (n <=? 90))%N then ascii_of_N (n + 32) else c.

Fixpoint ascii_toLowerCase (s : string) : string :=
  match s with
  | EmptyString => EmptyString
  | String c rest => String (ascii_lower c) (ascii_toLowerCase rest)
  end.

(** A stable insertion sort, newest first, to stand for [ORDER BY ts
    DESC] at concrete tables. *)
Fixpoint insert_desc {A : Type} (ts : A -> Z) (x : A) (l : list A) : list A :=
  match l with
  | [] => [x]
  | y :: l' => if ts y <=? ts x then x :: l else y :: insert_desc ts x l'
  end.

Definition sort_desc {A : Type} (ts : A -> Z) (l : list A) : list A :=
  fold_right (insert_desc ts) [] l.

(** ** PostgreSQL: texts and whole numbers *)

(** PostgreSQL holds no zero byte in a text.  A TEXT parameter with one is
    refused, and so is a JSONB document with one in a string, which
    [JSON.stringify] writes as the escape for U+0000. *)
Definition pg_text (s : string) : bool :=
  forallb (fun c => negb (Ascii.eqb c Ascii.zero)) (list_ascii_of_string s).

(** The double nearest to a whole number [z >= 0]: 53 bits are kept, and
    a tie goes to the even one. *)
Definition nearest_double (z : Z) : Z :=
  let bits := Z.log2 z + 1 in
  if bits <=? 53 then z
  else
    let shift := bits - 53 in
    let m := Z.shiftr z shift in
    let r := z - Z.shiftl m shift in
    let half := Z.shiftl 1 (shift - 1) in
    let m' := if (half <? r) || ((r =? half) && Z.odd m) then m + 1 else m in
    Z.shiftl m' shift.

(** The digits [String(x)] prints for a whole double [x >= 0], read as a
    whole number: of the decimals [s * 10^j] that read back as [x], the one
    with the fewest digits [s], and of several such the one closest to [x].
    [j] counts down from the number of zeros tried first. *)
Fixpoint shortest_digits (j : nat) (x : Z) : Z :=
  match j with
  | O => x
  | S j' =>
      let p := 10 ^ Z.of_nat j in
      let lo := x / p * p in
      let hi := lo + p in
      let reads_back c := (0 <? c) && (nearest_double c =? x) in
      if reads_back lo && reads_back hi then
        if x - lo <? hi - x then lo
        else if hi - x <? x - lo then hi
        else if Z.even (lo / p) then lo else hi
      else if reads_back lo then lo
      else if reads_back hi then hi
      else shortest_digits j' x
  end.

(** [String(z)] for a whole number, read as a whole number.  From 10^21 on
    JavaScript prints an exponent instead; such a text is no BIGINT, and
    neither is the number this function gives for it. *)
Definition Number_toString (z : Z) : Z :=
  Z.sgn z * shortest_digits (Z.to_nat (Z.log2 (Z.abs z) + 1)) (Z.abs z).

(** A number sent as the parameter of a BIGINT column: node-postgres sends
    the text [String(x)], and PostgreSQL takes the decimal text of a whole
    number from -2^63 to 2^63 - 1 and refuses every other text: a fraction,
    an exponent, [NaN], [Infinity], a number out of range. *)
Definition pg_bigint (x : jsnum) : completion Z :=
  match x with
  | Fin q =>
      let r := Qred q in
      if Pos.eqb (Qden r) 1 then
        let z := Number_toString (Qnum r) in
        if (- 2 ^ 63 <=? z) && (z <? 2 ^ 63) then Normal z else Throw PgInvalidInput
      else Throw PgInvalidInput
  | _ => Throw PgInvalidInput
  end.

(** ** Answers of the ingest route *)

(** What a run of the ingest handler leaves behind: [res.json({ok: true})],
    an error answer with its status and [error] code, or no answer at all
    when a store call throws in the handler, which has no [try]. *)
Inductive Outcome : Type :=
| Ok200 : Outcome
| Error (status : Z) (error : string) : Outcome
| Unanswered (e : exn) : Outcome.

(** * src/server.js *)

Module ServerJs.

(** [process.env]: the two settings the program reads. *)
Record Env : Type := {
  DATABASE_URL : option string;
  env_SHARED_SECRET : option string
}.

(** [pool] is created only when [DATABASE_URL] is set. *)
Definition has_pool (env : Env) : bool := opt_truthy (DATABASE_URL env).

(** An element of [snapshot.data.statuses]. *)
Record Status : Type := {
  s_id : string;
  s_name : string;
  s_severity : string;
  s_detail : string;
  s_updatedAt : jsval
}.

(** A row of the [logs] table. *)
Record LogRow : Type := {
  log_id : string;
  log_ts : Z;
  log_type : string;
  log_component : string;
  log_title : string;
  log_acknowledged : bool
}.

(** The JSON document of the ['main'] snapshot row, as it comes out of
    the JSONB column: PostgreSQL holds no number in it that is not finite
    and no text with a zero byte.  Its [logs] member is written once as
    [[]] and only replaced in the answer of the snapshot route, so it is
    not carried here. *)
Record Snapshot : Type := {
  generatedAt : Z;
  statuses : list Status
}.

(** The store: the ['main'] row of [snapshot] (its [generated_at] column
    and its [data]) and the [logs] table. *)
Record Db : Type := {
  generated_at : Z;
  snapshot : Snapshot;
  logs : list LogRow
}.

(** The readings of [Date.now()] one run of the ingest handler takes, in
    program order. *)
Record Clock : Type := {
  at_verify : Z;
  at_generated : Z;
  at_created : Z;
  at_updated : Z;
  at_logged : Z;
  at_saved : Z
}.

Definition key (st : Status) : string := s_severity st ++ "|" ++ s_detail st.

(** [detail || (reason ? `Grund: ${reason}` : "—")]. *)
Definition detail_of (rep : Report) : string :=
  if opt_truthy (detail rep) then default "" (detail rep)
  else if opt_truthy (reason rep) then "Grund: " ++ default "" (reason rep)
  else "—".

Definition type_of (severity : string) : string :=
  if String.eqb severity "alarm" then "alarm"
  else if String.eqb severity "warning" then "warning"
  else "info".

Definition title_of (component severity : string) : string :=
  if String.eqb severity "ok" then component ++ " wieder OK"
  else if String.eqb severity "alarm" then component ++ " Ausfall"
  else component ++ " eingeschränkt".

(** The four TEXT columns of a row of [logs]. *)
Definition row_accepted (row : LogRow) : bool :=
  pg_text (log_id row) && pg_text (log_type row) && pg_text (log_component row)
  && pg_text (log_title row).

(** [INSERT INTO logs ...]: the parameters are read first, and a text
    with a zero byte refused; [id] is the primary key. *)
Definition insert_log (row : LogRow) (table : list LogRow) : completion (list LogRow) :=
  if negb (row_accepted row) then Throw PgInvalidInput
  else if existsb (fun r => String.eqb (log_id r) (log_id row)) table
  then Throw PgUniqueViolation
  else Normal (table ++ [row]).

(** What [JSON.stringify] and the JSONB column make of the value of a
    member: a number that is not finite is written as [null]; every other
    value comes back as it was. *)
Definition json_value (v : jsval) : jsval :=
  match v with
  | JNum (Fin q) => JNum (Fin q)
  | JNum _ => JNull
  | _ => v
  end.

Definition json_status (st : Status) : Status :=
  {| s_id := s_id st; s_name := s_name st; s_severity := s_severity st;
     s_detail := s_detail st; s_updatedAt := json_value (s_updatedAt st) |}.

(** A value as a member of a JSONB document: a string is a text. *)
Definition value_accepted (v : jsval) : bool :=
  match v with JStr s => pg_text s | _ => true end.

(** The texts of a status object, as members of a JSONB document. *)
Definition status_accepted (st : Status) : bool :=
  pg_text (s_id st) && pg_text (s_name st) && pg_text (s_severity st)
  && pg_text (s_detail st) && value_accepted (s_updatedAt st).

(** [saveSnapshot(obj)]: [UPDATE snapshot SET generated_at=$1, data=$2].
    node-postgres sends the document as [JSON.stringify(obj)] and
    PostgreSQL reads it into the JSONB column.  [st] is the status object
    the handler has assigned to, at index [i] of [obj.statuses]: the
    statement is refused when one of its texts holds a zero byte, and it
    is stored as JSON has it.  The other entries are as they came out of
    the column, and go back as they are. *)
Definition saveSnapshot (now : Z) (obj : Snapshot) (i : nat) (st : Status) (db : Db)
    : completion Db :=
  if status_accepted st
  then Normal {| generated_at := now;
                 snapshot := {| generatedAt := generatedAt obj;
                                statuses := <[i := json_status st]> (statuses obj) |};
                 logs := logs db |}
  else Throw PgInvalidInput.

Section Program.

(** [Number(ts)] on a header string. *)
Variable StringToNumber : string -> jsnum.
(** [String.prototype.toLowerCase]. *)
Variable toLowerCase : string -> string.
(** [SELECT ... FROM logs ORDER BY ts DESC]: PostgreSQL returns the rows
    newest first and does not say in which order rows of equal [ts] come. *)
Variable order_by_ts_desc : list LogRow -> list LogRow.

Definition verifyHmac (secret : string) (now : Z) (req : Request) : completion verdict :=
  if negb (opt_truthy (x_ts req)) || negb (opt_truthy (x_nonce req))
     || negb (opt_truthy (x_signature req))
  then Normal (Rejected "missing_headers")
  else
    let ts := default "" (x_ts req) in
    let nonce := default "" (x_nonce req) in
    let sig := default "" (x_signature req) in
    let tsNum := StringToNumber ts in
    if negb (Number_isFinite tsNum) || skew_exceeds now tsNum (2 * 60 * 1000)
    then Normal (Rejected "ts_out_of_window")
    else
      let expected := hmacHex secret (signed_payload ts nonce (rawBody req)) in
      try_catch
        match crypto_timingSafeEqual (Buffer_from_hex expected) (Buffer_from_hex sig) with
        | Normal ok => Normal (if ok then Verified else Rejected "bad_signature")
        | Throw e => Throw e
        end
        (fun _ => Normal (Rejected "bad_signature")).

(** [SELECT * FROM logs ORDER BY ts DESC LIMIT 200]. *)
Definition getLogs (db : Db) : list LogRow := firstn 200 (order_by_ts_desc (logs db)).

(** [DELETE FROM logs WHERE id IN (SELECT id FROM logs ORDER BY ts DESC
    OFFSET n)]. *)
Definition delete_beyond (n : nat) (table : list LogRow) : list LogRow :=
  let doomed := map log_id (skipn n (order_by_ts_desc table)) in
  List.filter (fun r => negb (existsb (String.eqb (log_id r)) doomed)) table.

(** [addLog]: the row gets [crypto.randomUUID()] (here [uuid]) as its id
    and [Date.now()] (here [now]) as its [ts]; the table is then cut back
    to 200 rows. *)
Definition addLog (now : Z) (uuid : string) (type component title : string)
    (acknowledged : bool) (table : list LogRow) : completion (list LogRow) :=
  match insert_log {| log_id := uuid; log_ts := now; log_type := type;
                      log_component := component; log_title := title;
                      log_acknowledged := acknowledged |} table with
  | Throw e => Throw e
  | Normal table1 => Normal (delete_beyond 200 table1)
  end.

(** The status object the handler works on: the first one with this id,
    or a fresh one pushed at the end of [snap.statuses].  Returns its
    index, the object, and the array. *)
Definition find_or_create (id name : string) (now : Z) (sts : list Status)
    : nat * Status * list Status :=
  match list_find (fun s => s_id s = id) sts with
  | Some (i, st) => (i, st, sts)
  | None =>
      let st := {| s_id := id; s_name := name; s_severity := "ok";
                   s_detail := "—"; s_updatedAt := JNum (Fin (inject_Z now)) |} in
      (List.length sts, st, sts ++ [st])
  end.

(** The assignments to [st.severity], [st.detail] and [st.updatedAt], on
    the object in memory; [saveSnapshot] stores it as JSON has it. *)
Definition update_status (clk : Clock) (rep : Report) (st : Status) : Status :=
  {| s_id := s_id st;
     s_name := s_name st;
     s_severity := default "" (severity rep);
     s_detail := detail_of rep;
     s_updatedAt := if truthy (updatedAt rep) then updatedAt rep
                    else JNum (Fin (inject_Z (at_updated clk))) |}.

(** [app.post("/api/ingest")]. *)
Definition ingest (env : Env) (clk : Clock) (uuid : string) (db : Db) (req : Request)
    : Outcome * Db :=
  if negb (has_pool env) then (Error 500 "DATABASE_URL not set", db)
  else
    match verifyHmac (SHARED_SECRET (env_SHARED_SECRET env)) (at_verify clk) req with
    | Throw e => (Unanswered e, db)
    | Normal (Rejected why) => (Error 401 why, db)
    | Normal Verified =>
        let rep := fields req in
        if negb (opt_truthy (component rep)) || negb (opt_truthy (severity rep))
        then (Error 400 "missing_component_or_severity", db)
        else
          let comp := default "" (component rep) in
          let sev := default "" (severity rep) in
          let id := toLowerCase comp in
          let '(i, st, sts) :=
            find_or_create id comp (at_created clk) (statuses (snapshot db)) in
          let oldKey := key st in
          let st' := update_status clk rep st in
          let newKey := key st' in
          let snap := {| generatedAt := at_generated clk; statuses := <[i := st']> sts |} in
          let logged :=
            if negb (String.eqb newKey oldKey) then
              let title := title_of comp sev in
              addLog (at_logged clk) uuid (type_of sev) comp
                (if opt_truthy (reason rep)
                 then title ++ " (" ++ default "" (reason rep) ++ ")" else title)
                (String.eqb sev "ok") (logs db)
            else Normal (logs db) in
          match logged with
          | Throw e => (Unanswered e, db)
          | Normal table =>
              let db1 := {| generated_at := generated_at db; snapshot := snapshot db;
                            logs := table |} in
              match saveSnapshot (at_saved clk) snap i st' db1 with
              | Throw e => (Unanswered e, db1)
              | Normal db2 => (Ok200, db2)
              end
          end
    end.

(** A request that gets past the pool check, the verifier and the check
    of the two mandatory fields. *)
Definition accepted (env : Env) (clk : Clock) (req : Request) : bool :=
  has_pool env
  && match verifyHmac (SHARED_SECRET (env_SHARED_SECRET env)) (at_verify clk) req with
     | Normal Verified => true
     | _ => false
     end
  && opt_truthy (component (fields req)) && opt_truthy (severity (fields req)).

(** Whether the report changes the fingerprint of its status object. *)
Definition changes (clk : Clock) (db : Db) (rep : Report) : bool :=
  let comp := default "" (component rep) in
  let '(_, st, _) :=
    find_or_create (toLowerCase comp) comp (at_created clk) (statuses (snapshot db)) in
  negb (String.eqb (key (update_status clk rep st)) (key st)).

(** The row the handler passes to the [INSERT] of [addLog]. *)
Definition log_row (clk : Clock) (uuid : string) (rep : Report) : LogRow :=
  let comp := default "" (component rep) in
  let sev := default "" (severity rep) in
  {| log_id := uuid;
     log_ts := at_logged clk;
     log_type := type_of sev;
     log_component := comp;
     log_title := if opt_truthy (reason rep)
                  then title_of comp sev ++ " (" ++ default "" (reason rep) ++ ")"
                  else title_of comp sev;
     log_acknowledged := String.eqb sev "ok" |}.

(** The status object of the report after the handler's assignments. *)
Definition assigned (clk : Clock) (db : Db) (rep : Report) : Status :=
  let comp := default "" (component rep) in
  let '(_, st, _) :=
    find_or_create (toLowerCase comp) comp (at_created clk) (statuses (snapshot db)) in
  update_status clk rep st.

(** The rows a run of the handler inserts into [logs]: one or none. *)
Definition inserted (env : Env) (clk : Clock) (uuid : string) (db : Db) (req : Request)
    : list LogRow :=
  if accepted env clk req && changes clk db (fields req)
     && row_accepted (log_row clk uuid (fields req))
     && negb (existsb (fun r => String.eqb (log_id r) uuid) (logs db))
  then [log_row clk uuid (fields req)]
  else [].

(** A sequence of runs of the handler, each with its clock readings, the
    id drawn for its log row, and its request. *)
Fixpoint ingest_all (env : Env) (db : Db) (runs : list (Clock * string * Request)) : Db :=
  match runs with
  | [] => db
  | (clk, uuid, req) :: rest => ingest_all env (snd (ingest env clk uuid db req)) rest
  end.

(** All rows the runs insert, oldest first. *)
Fixpoint inserted_all (env : Env) (db : Db) (runs : list (Clock * string * Request))
    : list LogRow :=
  match runs with
  | [] => []
  | (clk, uuid, req) :: rest =>
      inserted env clk uuid db req
      ++ inserted_all env (snd (ingest env clk uuid db req)) rest
  end.

End Program.

End ServerJs.

(** * src/unnamed/part_000 *)

Module Part000.

(** A row of the [statuses] table, without its key [id]. *)
Record StatusRow : Type := {
  row_name : string;
  row_detail : string;
  row_severity : string;
  row_updated_at : Z
}.

(** A row of the [logs] table; [id] is of type UUID, here a number. *)
Record LogRow : Type := {
  log_id : N;
  log_ts : Z;
  log_type : string;
  log_component : string;
  log_title : string;
  log_acknowledged : bool
}.

(** The store: the [statuses] table keyed by its primary key, and the
    [logs] table. *)
Record Db : Type := {
  statuses : gmap string StatusRow;
  logs : list LogRow
}.

(** What [loadSnapshot] returns.  The statuses are listed [ORDER BY id];
    the order of that array is not carried here. *)
Record Snapshot : Type := {
  snap_logs : list LogRow;
  snap_statuses : gmap string StatusRow;
  snap_generatedAt : Z
}.

(** The readings of [Date.now()] one run of the ingest handler takes. *)
Record Clock : Type := {
  at_verify : Z;
  at_ingest : Z;
  at_readback : Z
}.

Definition timingSafeEq (a b : string) : bool :=
  let attempt :=
    let ba := Buffer_from_hex a in
    let bb := Buffer_from_hex b in
    if negb (Nat.eqb (List.length ba) (List.length bb)) then Normal false
    else crypto_timingSafeEqual ba bb in
  match try_catch attempt (fun _ => Normal false) with
  | Normal r => r
  | Throw _ => false
  end.

(** [INSERT INTO statuses ... ON CONFLICT (id) DO UPDATE ...]: the
    parameters are read first, and the statement refused for a text with a
    zero byte or a number that is no BIGINT. *)
Definition upsert_status (id name detail severity : string) (updated_at : jsnum)
    (table : gmap string StatusRow) : completion (gmap string StatusRow) :=
  if pg_text id && pg_text name && pg_text detail && pg_text severity then
    match pg_bigint updated_at with
    | Throw e => Throw e
    | Normal ts =>
        Normal (<[id := {| row_name := name; row_detail := detail;
                           row_severity := severity; row_updated_at := ts |}]> table)
    end
  else Throw PgInvalidInput.

(** [INSERT INTO logs (ts, type, component, title, acknowledged) ...]:
    the parameters are read first; the id is the one [gen_random_uuid()]
    draws, here [uuid], and it is the primary key. *)
Definition insert_log (uuid : N) (ts : jsnum) (type component title : string)
    (acknowledged : bool) (table : list LogRow) : completion (list LogRow) :=
  if pg_text type && pg_text component && pg_text title then
    match pg_bigint ts with
    | Throw e => Throw e
    | Normal t =>
        if existsb (fun r => N.eqb (log_id r) uuid) table
        then Throw PgUniqueViolation
        else Normal (table ++ [ {| log_id := uuid; log_ts := t; log_type := type;
                                   log_component := component; log_title := title;
                                   log_acknowledged := acknowledged |} ])
    end
  else Throw PgInvalidInput.

(** The rows the [UPDATE] of the ack route matches. *)
Definition ackable (id : N) (r : LogRow) : bool :=
  N.eqb (log_id r) id && negb (log_acknowledged r)
  && (String.eqb (log_type r) "warning" || String.eqb (log_type r) "alarm").

Definition set_acknowledged (r : LogRow) : LogRow :=
  {| log_id := log_id r; log_ts := log_ts r; log_type := log_type r;
     log_component := log_component r; log_title := log_title r;
     log_acknowledged := true |}.

(** [UPDATE logs SET acknowledged = TRUE WHERE id = $1 AND acknowledged =
    FALSE AND type IN ('warning','alarm') RETURNING ...]: the table after
    the statement, and the rows it returns. *)
Definition update_ack (id : N) (table : list LogRow) : list LogRow * list LogRow :=
  (map (fun r => if ackable id r then set_acknowledged r else r) table,
   map set_acknowledged (List.filter (ackable id) table)).

(** Answers of the ack route. *)
Inductive AckOutcome : Type :=
| AckOk (log : LogRow) : AckOutcome
| AckError (status : Z) (error : string) : AckOutcome.

(** [app.post("/api/logs/:id/ack")].  [id] is the path parameter as
    PostgreSQL reads it for the UUID column: [None] when the text is not a
    UUID, in which case the statement throws and the handler's [catch]
    answers. *)
Definition ack (id : option N) (db : Db) : AckOutcome * Db :=
  match id with
  | None => (AckError 500 "server_error", db)
  | Some u =>
      let '(table, rows) := update_ack u (logs db) in
      let db' := {| statuses := statuses db; logs := table |} in
      match rows with
      | [] => (AckError 400 "not_ackable_or_not_found", db')
      | r :: _ => (AckOk r, db')
      end
  end.

Section Program.

(** [Number(s)] on a string. *)
Variable StringToNumber : string -> jsnum.
(** [String.prototype.toLowerCase]. *)
Variable toLowerCase : string -> string.
(** [SELECT ... FROM logs ORDER BY ts DESC]. *)
Variable order_by_ts_desc : list LogRow -> list LogRow.

(** [Number(v)]. *)
Definition ToNumber (v : jsval) : jsnum :=
  match v with
  | JUndefined => NaN
  | JNull => Fin 0
  | JBool b => Fin (if b then 1 else 0)
  | JNum x => x
  | JStr s => StringToNumber s
  end.

Definition verifyHmac (secret : string) (now : Z) (req : Request) : completion verdict :=
  if negb (opt_truthy (x_ts req)) || negb (opt_truthy (x_nonce req))
     || negb (opt_truthy (x_signature req))
  then Normal (Rejected "missing_headers")
  else
    let ts := default "" (x_ts req) in
    let nonce := default "" (x_nonce req) in
    let sig := default "" (x_signature req) in
    let tsNum := StringToNumber ts in
    if negb (Number_isFinite tsNum) then Normal (Rejected "bad_ts")
    else if skew_exceeds now tsNum 120000 then Normal (Rejected "ts_skew")
    else
      let expected := hmacHex secret (signed_payload ts nonce (rawBody req)) in
      if negb (timingSafeEq expected sig) then Normal (Rejected "bad_signature")
      else Normal Verified.

Definition loadSnapshot (now : Z) (db : Db) : Snapshot :=
  {| snap_logs := firstn 200 (order_by_ts_desc (logs db));
     snap_statuses := statuses db;
     snap_generatedAt := now |}.

Definition saveSnapshot (snap : Snapshot) : Snapshot := snap.

(** [Number(updatedAt) || Date.now()]. *)
Definition ts_of (v : jsval) (now : Z) : jsnum :=
  if num_truthy (ToNumber v) then ToNumber v else Fin (inject_Z now).

(** [detail || reason || "-"]. *)
Definition detail_of (rep : Report) : string :=
  if opt_truthy (detail rep) then default "" (detail rep)
  else if opt_truthy (reason rep) then default "" (reason rep)
  else "-".

(** [app.post("/api/ingest")]; [uuid] is the id [gen_random_uuid()] draws
    for the log row. *)
Definition ingest (env_secret : option string) (clk : Clock) (uuid : N) (db : Db)
    (req : Request) : Outcome * Db :=
  match verifyHmac (SHARED_SECRET env_secret) (at_verify clk) req with
  | Throw e => (Unanswered e, db)
  | Normal (Rejected why) => (Error 401 why, db)
  | Normal Verified =>
      let rep := fields req in
      if negb (opt_truthy (component rep)) || negb (opt_truthy (severity rep))
      then (Error 400 "missing_fields", db)
      else
        let comp := default "" (component rep) in
        let sev := default "" (severity rep) in
        let ts := ts_of (updatedAt rep) (at_ingest clk) in
        match upsert_status (toLowerCase comp) comp (detail_of rep) sev ts (statuses db) with
        | Throw e => (Unanswered e, db)
        | Normal sts =>
            let title := (comp ++ " " ++ sev)%string in
            match insert_log uuid ts sev comp
                    (if opt_truthy (reason rep)
                     then (title ++ " (" ++ default "" (reason rep) ++ ")")%string
                     else title)
                    (String.eqb sev "ok") (logs db) with
            | Throw e => (Unanswered e, {| statuses := sts; logs := logs db |})
            | Normal table =>
                let db' := {| statuses := sts; logs := table |} in
                let snap := saveSnapshot (loadSnapshot (at_readback clk) db') in
                (Ok200, db')
            end
        end
  end.

(** A request that gets past the verifier and the check of the two
    mandatory fields. *)
Definition accepted (env_secret : option string) (clk : Clock) (req : Request) : bool :=
  match verifyHmac (SHARED_SECRET env_secret) (at_verify clk) req with
  | Normal Verified => true
  | _ => false
  end
  && opt_truthy (component (fields req)) && opt_truthy (severity (fields req)).

(** The texts of the parameters of the two statements. *)
Definition status_texts (rep : Report) : bool :=
  pg_text (toLowerCase (default "" (component rep))) && pg_text (default "" (component rep))
  && pg_text (detail_of rep) && pg_text (default "" (severity rep)).

(** The row the handler inserts into [logs], given the timestamp
    PostgreSQL reads. *)
Definition log_row (ts : Z) (uuid : N) (rep : Report) : LogRow :=
  let comp := default "" (component rep) in
  let sev := default "" (severity rep) in
  {| log_id := uuid;
     log_ts := ts;
     log_type := sev;
     log_component := comp;
     log_title := if opt_truthy (reason rep)
                  then (comp ++ " " ++ sev) ++ " (" ++ default "" (reason rep) ++ ")"
                  else comp ++ " " ++ sev;
     log_acknowledged := String.eqb sev "ok" |}.

Definition log_texts (rep : Report) : bool :=
  let comp := default "" (component rep) in
  let sev := default "" (severity rep) in
  pg_text sev && pg_text comp
  && pg_text (if opt_truthy (reason rep)
              then (comp ++ " " ++ sev) ++ " (" ++ default "" (reason rep) ++ ")"
              else comp ++ " " ++ sev).

Fixpoint ingest_all (env_secret : option string) (db : Db)
    (runs : list (Clock * N * Request)) : Db :=
  match runs with
  | [] => db
  | (clk, uuid, req) :: rest =>
      ingest_all env_secret (snd (ingest env_secret clk uuid db req)) rest
  end.

End Program.

End Part000.

(** * The verifier *)

(** The timestamp is a finite number no more than 120000 ms away from the
    clock reading. *)
Definition within_window (now : Z) (x : jsnum) : Prop :=
  match x with
  | Fin q => (Qabs (inject_Z now - q) <= 120000)%Q
  | _ => False
  end.

(** The bytes the signature has to decode to. *)
Definition expected_mac (secret ts nonce : string) (raw : option (list ascii)) : list ascii :=
  SHA256.hmac (list_ascii_of_string secret)
              (list_ascii_of_string (signed_payload ts nonce raw)).

Definition signed_request (ts nonce sig : string) (raw : option (list ascii))
    (parsed : option Report) : Request :=
  {| x_ts := Some ts; x_nonce := Some nonce; x_signature := Some sig;
     rawBody := raw; body := parsed |}.

Lemma hex_pair_roundtrip (a : ascii) :
  unhex (hexdigit (N_of_ascii a / 16)) = Some (N_of_ascii a / 16)%N
  /\ unhex (hexdigit (N_of_ascii a mod 16)) = Some (N_of_ascii a mod 16)%N
  /\ ascii_of_N (16 * (N_of_ascii a / 16) + N_of_ascii a mod 16) = a.
Proof.
  destruct a as [[] [] [] [] [] [] [] []]; vm_compute; repeat split; reflexivity.
Qed.

Lemma Buffer_from_hex_of_buffer (b : list ascii) :
  Buffer_from_hex (hex_of_buffer b) = b.
Proof.
  induction b as [|a b IH]; [reflexivity|].
  cbn [hex_of_buffer Buffer_from_hex].
  destruct (hex_pair_roundtrip a) as (Hhi & Hlo & Hbyte).
  rewrite Hhi, Hlo, Hbyte, IH. reflexivity.
Qed.

Lemma bytes_eqb_eq (a b : list ascii) : bytes_eqb a b = true <-> a = b.
Proof.
  revert b. induction a as [|x a IH]; intros [|y b]; cbn; try (split; congruence).
  rewrite andb_true_iff, Ascii.eqb_eq, IH. split.
  - intros [-> ->]. reflexivity.
  - intros [= -> ->]. split; reflexivity.
Qed.

Lemma bytes_eqb_length (a b : list ascii) :
  bytes_eqb a b = true -> List.length a = List.length b.
Proof. intros H. apply bytes_eqb_eq in H. congruence. Qed.

Lemma sha256_length (msg : list ascii) : List.length (SHA256.sha256 msg) = 32%nat.
Proof. reflexivity. Qed.

Lemma hmac_length (key msg : list ascii) : List.length (SHA256.hmac key msg) = 32%nat.
Proof. unfold SHA256.hmac. apply sha256_length. Qed.

Lemma hmacHex_decodes (secret msg : string) :
  Buffer_from_hex (hmacHex secret msg)
  = SHA256.hmac (list_ascii_of_string secret) (list_ascii_of_string msg).
Proof. apply Buffer_from_hex_of_buffer. Qed.

(** The comparison of [server.js], with its [try]: a verdict in every case. *)
Lemma ServerJs_compare (a b : list ascii) :
  try_catch
    match crypto_timingSafeEqual a b with
    | Normal ok => Normal (if ok then Verified else Rejected "bad_signature")
    | Throw e => Throw e
    end
    (fun _ => Normal (Rejected "bad_signature"))
  = Normal (if bytes_eqb a b then Verified else Rejected "bad_signature").
Proof.
  unfold crypto_timingSafeEqual.
  destruct (Nat.eqb (List.length a) (List.length b)) eqn:Hlen; cbn; [reflexivity|].
  destruct (bytes_eqb a b) eqn:Heq; [|reflexivity].
  apply bytes_eqb_length in Heq. apply Nat.eqb_neq in Hlen. contradiction.
Qed.

Lemma Part000_timingSafeEq_spec (a b : string) :
  Part000.timingSafeEq a b = bytes_eqb (Buffer_from_hex a) (Buffer_from_hex b).
Proof.
  unfold Part000.timingSafeEq, crypto_timingSafeEqual.
  destruct (Nat.eqb _ _) eqn:Hlen; cbn; [reflexivity|].
  destruct (bytes_eqb _ _) eqn:Heq; [|reflexivity].
  apply bytes_eqb_length in Heq. apply Nat.eqb_neq in Hlen. contradiction.
Qed.

Lemma skew_exceeds_false (now : Z) (x : jsnum) :
  Number_isFinite x = true ->
  (skew_exceeds now x 120000 = false <-> within_window now x).
Proof.
  destruct x as [| |q]; cbn; try discriminate. intros _.
  rewrite negb_false_iff, Qle_bool_iff. reflexivity.
Qed.

Lemma within_window_finite (now : Z) (x : jsnum) :
  within_window now x -> Number_isFinite x = true.
Proof. destruct x; cbn; tauto. Qed.

Lemma str_truthy_true (s : string) : str_truthy s = true <-> s <> "".
Proof. destruct s; cbn; split; congruence. Qed.

Section VerifierFacts.

Variable StringToNumber : string -> jsnum.

(** What [verifyHmac] of [server.js] answers once the three headers are
    there. *)
Lemma ServerJs_verifyHmac_spec secret now ts nonce sig raw parsed :
  ts <> "" -> nonce <> "" -> sig <> "" ->
  ServerJs.verifyHmac StringToNumber secret now (signed_request ts nonce sig raw parsed)
  = Normal
      (if negb (Number_isFinite (StringToNumber ts))
          || skew_exceeds now (StringToNumber ts) 120000
       then Rejected "ts_out_of_window"
       else if bytes_eqb (expected_mac secret ts nonce raw) (Buffer_from_hex sig)
            then Verified else Rejected "bad_signature").
Proof.
  intros Hts Hn Hs. apply str_truthy_true in Hts, Hn, Hs.
  unfold ServerJs.verifyHmac, signed_request. cbn [x_ts x_nonce x_signature rawBody opt_truthy from_option id].
  rewrite Hts, Hn, Hs. cbn [negb orb].
  change (2 * 60 * 1000) with 120000.
  destruct (negb (Number_isFinite (StringToNumber ts)) || skew_exceeds now (StringToNumber ts) 120000);
    [reflexivity|].
  rewrite hmacHex_decodes. apply ServerJs_compare.
Qed.

Lemma Part000_verifyHmac_spec secret now ts nonce sig raw parsed :
  ts <> "" -> nonce <> "" -> sig <> "" ->
  Part000.verifyHmac StringToNumber secret now (signed_request ts nonce sig raw parsed)
  = Normal
      (if negb (Number_isFinite (StringToNumber ts)) then Rejected "bad_ts"
       else if skew_exceeds now (StringToNumber ts) 120000 then Rejected "ts_skew"
       else if bytes_eqb (expected_mac secret ts nonce raw) (Buffer_from_hex sig)
            then Verified else Rejected "bad_signature").
Proof.
  intros Hts Hn Hs. apply str_truthy_true in Hts, Hn, Hs.
  unfold Part000.verifyHmac, signed_request. cbn [x_ts x_nonce x_signature rawBody opt_truthy from_option id].
  rewrite Hts, Hn, Hs. cbn [negb orb].
  destruct (negb (Number_isFinite (StringToNumber ts))); [reflexivity|].
  destruct (skew_exceeds now (StringToNumber ts) 120000); [reflexivity|].
  rewrite Part000_timingSafeEq_spec, hmacHex_decodes.
  unfold expected_mac. destruct (bytes_eqb _ _); reflexivity.
Qed.

(** Neither verifier lets an exception out. *)
Lemma ServerJs_verifyHmac_total secret now req :
  exists v, ServerJs.verifyHmac StringToNumber secret now req = Normal v.
Proof.
  unfold ServerJs.verifyHmac.
  destruct (_ || _ || _); [eauto|].
  destruct (_ || _); [eauto|].
  rewrite ServerJs_compare. eauto.
Qed.

Lemma Part000_verifyHmac_total secret now req :
  exists v, Part000.verifyHmac StringToNumber secret now req = Normal v.
Proof.
  unfold Part000.verifyHmac.
  destruct (_ || _ || _); [eauto|].
  destruct (negb (Number_isFinite _)); [eauto|].
  destruct (skew_exceeds _ _ _); [eauto|].
  destruct (negb (Part000.timingSafeEq _ _)); eauto.
Qed.

End VerifierFacts.

(** ** Fixtures: a signed request *)

Definition fixture_secret : string := "change-me".
Definition fixture_ts : string := "1700000000000".
Definition fixture_now : Z := 1700000000000.
Definition fixture_raw : option (list ascii) := Some (list_ascii_of_string "{}").

(** HMAC-SHA256 of ["1700000000000.n1.{}"] under ["change-me"]. *)
Definition fixture_sig : string :=
  "f31a0af47a851cfe13e40e67521846d9fdeb5c446dbd3eb1d01f708832b86d96".

Example fixture_sig_is_hmac :
  hmacHex fixture_secret (signed_payload fixture_ts "n1" fixture_raw) = fixture_sig.
Proof. vm_compute. reflexivity. Qed.

Lemma string_app_inv_tail (a b c : string) : (a ++ c = b ++ c)%string -> a = b.
Proof.
  intros H.
  assert (Hl : list_ascii_of_string a ++ list_ascii_of_string c
               = list_ascii_of_string b ++ list_ascii_of_string c).
  { assert (Happ : forall x y, list_ascii_of_string (x ++ y)%string
                               = list_ascii_of_string x ++ list_ascii_of_string y).
    { induction x as [|ch x IH]; intros y; [reflexivity|].
      change (list_ascii_of_string (String ch x ++ y)%string)
        with (ch :: list_ascii_of_string (x ++ y)%string).
      rewrite IH. reflexivity. }
    rewrite <- !Happ, H. reflexivity. }
  apply app_inv_tail in Hl.
  rewrite <- (string_of_list_ascii_of_string a), <- (string_of_list_ascii_of_string b), Hl.
  reflexivity.
Qed.

Lemma string_app_inv_head (a b c : string) : (a ++ b = a ++ c)%string -> b = c.
Proof.
  induction a as [|ch a IH]; [tauto|].
  change (String ch a ++ b)%string with (String ch (a ++ b)%string).
  change (String ch a ++ c)%string with (String ch (a ++ c)%string).
  intros [= H]. auto.
Qed.

Lemma hmacHex_nonempty (secret msg : string) : hmacHex secret msg <> "".
Proof.
  unfold hmacHex. pose proof (hmac_length (list_ascii_of_string secret) (list_ascii_of_string msg)) as H.
  destruct (SHA256.hmac _ _); cbn in *; [discriminate H | discriminate].
Qed.

Section VerifierClaims.

Variable StringToNumber : string -> jsnum.

Local Abbreviation verify_server := (ServerJs.verifyHmac StringToNumber).
Local Abbreviation verify_part000 := (Part000.verifyHmac StringToNumber).

(** C4 (as amended).  With the three headers non-empty, a request verifies
    exactly when the hex decoding of the supplied signature is the
    HMAC-SHA256 of the canonical string under the secret and the timestamp
    is a finite number within 120000 ms of the clock; in particular the
    hex-encoded HMAC verifies inside the window.  A change of the timestamp
    alone, of the nonce alone or of the decoded body alone changes the
    canonical string, and a changed request is verified by the old
    signature only when the HMAC of its canonical string is the old one.
    With the clock 121000 ms after the timestamp every signature is refused,
    with [ts_out_of_window] by server.js and [ts_skew] by part_000. *)
Theorem verify_iff_mac_and_window secret now ts nonce sig raw parsed :
  ts <> "" -> nonce <> "" -> sig <> "" ->
  let ok := Buffer_from_hex sig = expected_mac secret ts nonce raw
            /\ within_window now (StringToNumber ts) in
  (verify_server secret now (signed_request ts nonce sig raw parsed) = Normal Verified <-> ok)
  /\ (verify_part000 secret now (signed_request ts nonce sig raw parsed) = Normal Verified <-> ok)
  /\ (within_window now (StringToNumber ts) ->
      let good := hmacHex secret (signed_payload ts nonce raw) in
      verify_server secret now (signed_request ts nonce good raw parsed) = Normal Verified
      /\ verify_part000 secret now (signed_request ts nonce good raw parsed) = Normal Verified)
  /\ (forall ts' nonce' raw' parsed',
        ts' <> "" -> nonce' <> "" -> within_window now (StringToNumber ts') ->
        Buffer_from_hex sig = expected_mac secret ts nonce raw ->
        (verify_server secret now (signed_request ts' nonce' sig raw' parsed') = Normal Verified
         <-> expected_mac secret ts' nonce' raw' = expected_mac secret ts nonce raw)
        /\ (verify_part000 secret now (signed_request ts' nonce' sig raw' parsed') = Normal Verified
         <-> expected_mac secret ts' nonce' raw' = expected_mac secret ts nonce raw))
  /\ (forall ts' nonce' raw',
        (ts' <> ts -> signed_payload ts' nonce raw <> signed_payload ts nonce raw)
        /\ (nonce' <> nonce -> signed_payload ts nonce' raw <> signed_payload ts nonce raw)
        /\ (signed_payload ts nonce raw' = signed_payload ts nonce raw ->
            match raw', raw with
            | Some b', Some b => Buffer_toString_utf8 b' = Buffer_toString_utf8 b
            | Some b', None => Buffer_toString_utf8 b' = ""
            | None, Some b => Buffer_toString_utf8 b = ""
            | None, None => True
            end))
  /\ (forall q, StringToNumber ts = Fin q -> (inject_Z now - q == 121000)%Q ->
      verify_server secret now (signed_request ts nonce sig raw parsed)
        = Normal (Rejected "ts_out_of_window")
      /\ verify_part000 secret now (signed_request ts nonce sig raw parsed)
        = Normal (Rejected "ts_skew")).
Proof.
  intros Hts Hn Hs ok.
  assert (Hsrv : forall t n s r p, t <> "" -> n <> "" -> s <> "" ->
            (verify_server secret now (signed_request t n s r p) = Normal Verified
             <-> Buffer_from_hex s = expected_mac secret t n r
                 /\ within_window now (StringToNumber t))).
  { intros t n s r p Ht Hn' Hs'. rewrite ServerJs_verifyHmac_spec by assumption.
    destruct (Number_isFinite (StringToNumber t)) eqn:Hfin; cbn [negb orb].
    - destruct (skew_exceeds now (StringToNumber t) 120000) eqn:Hskew.
      + split; [discriminate|]. intros [_ Hw].
        apply skew_exceeds_false in Hw; [congruence | assumption].
      + apply skew_exceeds_false in Hskew; [|assumption].
        destruct (bytes_eqb _ _) eqn:Heq.
        * apply bytes_eqb_eq in Heq. split; [intros _; split; [symmetry|]; assumption | reflexivity].
        * split; [discriminate|]. intros [Hm _]. symmetry in Hm.
          apply bytes_eqb_eq in Hm. congruence.
    - split; [discriminate|]. intros [_ Hw]. apply within_window_finite in Hw. congruence. }
  assert (Hp0 : forall t n s r p, t <> "" -> n <> "" -> s <> "" ->
            (verify_part000 secret now (signed_request t n s r p) = Normal Verified
             <-> Buffer_from_hex s = expected_mac secret t n r
                 /\ within_window now (StringToNumber t))).
  { intros t n s r p Ht Hn' Hs'. rewrite Part000_verifyHmac_spec by assumption.
    destruct (Number_isFinite (StringToNumber t)) eqn:Hfin; cbn [negb].
    - destruct (skew_exceeds now (StringToNumber t) 120000) eqn:Hskew.
      + split; [discriminate|]. intros [_ Hw].
        apply skew_exceeds_false in Hw; [congruence | assumption].
      + apply skew_exceeds_false in Hskew; [|assumption].
        destruct (bytes_eqb _ _) eqn:Heq.
        * apply bytes_eqb_eq in Heq. split; [intros _; split; [symmetry|]; assumption | reflexivity].
        * split; [discriminate|]. intros [Hm _]. symmetry in Hm.
          apply bytes_eqb_eq in Hm. congruence.
    - split; [discriminate|]. intros [_ Hw]. apply within_window_finite in Hw. congruence. }
  split; [apply Hsrv; assumption|].
  split; [apply Hp0; assumption|].
  split.
  { intros Hw good. pose proof (hmacHex_nonempty secret (signed_payload ts nonce raw)) as Hg.
    split; [apply Hsrv | apply Hp0]; try assumption;
      (split; [apply hmacHex_decodes | assumption]). }
  split.
  { intros ts' nonce' raw' parsed' Hts' Hn' Hw' Hsig.
    rewrite Hsrv, Hp0 by assumption. rewrite Hsig.
    split; (split; [intros [H _]; symmetry; exact H | intros H; split; [symmetry; exact H | assumption]]). }
  split.
  { intros ts' nonce' raw'. unfold signed_payload. repeat split.
    - intros Hne Heq. apply string_app_inv_tail in Heq. congruence.
    - intros Hne Heq. do 2 apply string_app_inv_head in Heq.
      apply string_app_inv_tail in Heq. congruence.
    - intros Heq. do 4 apply string_app_inv_head in Heq.
      destruct raw', raw; auto. }
  intros q Hq Hdiff.
  rewrite ServerJs_verifyHmac_spec, Part000_verifyHmac_spec by assumption.
  rewrite Hq. cbn [Number_isFinite negb orb skew_exceeds].
  assert (Hex : Qle_bool (Qabs (inject_Z now - q)) (inject_Z 120000) = false).
  { destruct (Qle_bool _ _) eqn:Hle; [|reflexivity].
    apply Qle_bool_iff in Hle. rewrite Hdiff in Hle.
    exfalso. revert Hle. vm_compute. intros H. apply H. reflexivity. }
  rewrite Hex. cbn. split; reflexivity.
Qed.

(** C5 (as amended).  Neither verifier lets an exception out, whatever the
    request.  Once the headers are there and the timestamp is within the
    window, a signature whose hex decoding is not the expected 32 bytes,
    by its length or by its content, is answered with [bad_signature]. *)
Theorem verify_never_throws secret now :
  (forall req, (exists v, verify_server secret now req = Normal v)
               /\ (exists v, verify_part000 secret now req = Normal v))
  /\ (forall ts nonce sig raw parsed,
        ts <> "" -> nonce <> "" -> sig <> "" ->
        within_window now (StringToNumber ts) ->
        (List.length (Buffer_from_hex sig) <> 32%nat
         \/ Buffer_from_hex sig <> expected_mac secret ts nonce raw) ->
        verify_server secret now (signed_request ts nonce sig raw parsed)
          = Normal (Rejected "bad_signature")
        /\ verify_part000 secret now (signed_request ts nonce sig raw parsed)
          = Normal (Rejected "bad_signature")).
Proof.
  split.
  - intros req. split; [apply ServerJs_verifyHmac_total | apply Part000_verifyHmac_total].
  - intros ts nonce sig raw parsed Hts Hn Hs Hw Hbad.
    assert (Hne : bytes_eqb (expected_mac secret ts nonce raw) (Buffer_from_hex sig) = false).
    { destruct (bytes_eqb _ _) eqn:Heq; [|reflexivity].
      apply bytes_eqb_eq in Heq. destruct Hbad as [Hlen | Hneq].
      - rewrite <- Heq in Hlen. unfold expected_mac in Hlen. rewrite hmac_length in Hlen.
        contradiction.
      - congruence. }
    rewrite ServerJs_verifyHmac_spec, Part000_verifyHmac_spec by assumption.
    pose proof (within_window_finite _ _ Hw) as Hfin.
    apply skew_exceeds_false in Hw; [|assumption].
    rewrite Hfin, Hw, Hne. cbn. split; reflexivity.
Qed.

(** C7 (as amended).  With the three headers non-empty: part_000 answers
    [bad_ts] when the timestamp does not parse to a finite number and the
    different [ts_skew] when it does but lies outside the window; server.js
    answers [ts_out_of_window] in both cases. *)
Theorem timestamp_failures secret now ts nonce sig raw parsed :
  ts <> "" -> nonce <> "" -> sig <> "" ->
  (Number_isFinite (StringToNumber ts) = false ->
     verify_part000 secret now (signed_request ts nonce sig raw parsed)
       = Normal (Rejected "bad_ts")
     /\ verify_server secret now (signed_request ts nonce sig raw parsed)
       = Normal (Rejected "ts_out_of_window"))
  /\ (Number_isFinite (StringToNumber ts) = true ->
      ~ within_window now (StringToNumber ts) ->
     verify_part000 secret now (signed_request ts nonce sig raw parsed)
       = Normal (Rejected "ts_skew")
     /\ verify_server secret now (signed_request ts nonce sig raw parsed)
       = Normal (Rejected "ts_out_of_window"))
  /\ Rejected "bad_ts" <> Rejected "ts_skew".
Proof.
  intros Hts Hn Hs.
  rewrite ServerJs_verifyHmac_spec, Part000_verifyHmac_spec by assumption.
  split; [|split].
  - intros ->. cbn. split; reflexivity.
  - intros Hfin Hout. rewrite Hfin. cbn [negb orb].
    destruct (skew_exceeds now (StringToNumber ts) 120000) eqn:Hskew; [split; reflexivity|].
    apply skew_exceeds_false in Hskew; [contradiction | assumption].
  - discriminate.
Qed.

End VerifierClaims.

(** ** The verifier at concrete requests *)

Lemma verify_iff_mac_and_window_witness :
  fixture_ts <> "" /\ "n1" <> "" /\ fixture_sig <> ""
  /\ ServerJs.verifyHmac decimal_StringToNumber fixture_secret fixture_now
       (signed_request fixture_ts "n1" fixture_sig fixture_raw None) = Normal Verified.
Proof.
  assert (Hts : fixture_ts <> "") by discriminate.
  assert (Hn : "n1" <> "") by discriminate.
  assert (Hs : fixture_sig <> "") by discriminate.
  split; [exact Hts|]. split; [exact Hn|]. split; [exact Hs|].
  refine (proj2 (proj1 (verify_iff_mac_and_window decimal_StringToNumber fixture_secret
                          fixture_now fixture_ts "n1" fixture_sig fixture_raw None
                          Hts Hn Hs)) _).
  split; [vm_compute; reflexivity | vm_compute; discriminate].
Defined.

(** Against C4 as stated: text after the 64 hex digits is ignored, so a
    signature that is not the hex-encoded HMAC verifies; and the signature
    of one request verifies another one whose body differs in a byte, or
    whose nonce and body differ, as long as the canonical string is the
    same. *)
Lemma other_signatures_and_bodies_verify :
  let verify_server := ServerJs.verifyHmac decimal_StringToNumber fixture_secret fixture_now in
  let verify_part000 := Part000.verifyHmac decimal_StringToNumber fixture_secret fixture_now in
  (let sig := (fixture_sig ++ "zz")%string in
   sig <> hmacHex fixture_secret (signed_payload fixture_ts "n1" fixture_raw)
   /\ verify_server (signed_request fixture_ts "n1" sig fixture_raw None) = Normal Verified
   /\ verify_part000 (signed_request fixture_ts "n1" sig fixture_raw None) = Normal Verified)
  /\ (let sig := hmacHex fixture_secret (signed_payload fixture_ts "n1" (Some [ascii_of_N 255])) in
      verify_server (signed_request fixture_ts "n1" sig (Some [ascii_of_N 254]) None) = Normal Verified
      /\ verify_part000 (signed_request fixture_ts "n1" sig (Some [ascii_of_N 254]) None) = Normal Verified)
  /\ (let sig := hmacHex fixture_secret
                   (signed_payload fixture_ts "a.b" (Some (list_ascii_of_string "c"))) in
      verify_server (signed_request fixture_ts "a" sig (Some (list_ascii_of_string "b.c")) None)
        = Normal Verified
      /\ verify_part000 (signed_request fixture_ts "a" sig (Some (list_ascii_of_string "b.c")) None)
        = Normal Verified).
Proof.
  vm_compute. repeat split; try reflexivity. discriminate.
Qed.

Lemma verify_never_throws_witness :
  fixture_ts <> "" /\ "n1" <> "" /\ "00ff" <> ""
  /\ within_window fixture_now (decimal_StringToNumber fixture_ts)
  /\ List.length (Buffer_from_hex "00ff") <> 32%nat
  /\ ServerJs.verifyHmac decimal_StringToNumber fixture_secret fixture_now
       (signed_request fixture_ts "n1" "00ff" fixture_raw None)
     = Normal (Rejected "bad_signature").
Proof.
  assert (Hts : fixture_ts <> "") by discriminate.
  assert (Hn : "n1" <> "") by discriminate.
  assert (Hs : "00ff" <> "") by discriminate.
  assert (Hw : within_window fixture_now (decimal_StringToNumber fixture_ts))
    by (vm_compute; discriminate).
  assert (Hlen : List.length (Buffer_from_hex "00ff") <> 32%nat) by (vm_compute; discriminate).
  split; [exact Hts|]. split; [exact Hn|]. split; [exact Hs|].
  split; [exact Hw|]. split; [exact Hlen|].
  exact (proj1 (proj2 (verify_never_throws decimal_StringToNumber fixture_secret fixture_now)
                  fixture_ts "n1" "00ff" fixture_raw None Hts Hn Hs Hw (or_introl Hlen))).
Defined.

(** Against C5 as stated: a signature of 65 characters whose last one is
    not a hex digit, or of 66 whose last two are not, is malformed and of
    the wrong length, and both verifiers accept it. *)
Lemma malformed_signature_accepted :
  let verify_server := ServerJs.verifyHmac decimal_StringToNumber fixture_secret fixture_now in
  let verify_part000 := Part000.verifyHmac decimal_StringToNumber fixture_secret fixture_now in
  let sig1 := (fixture_sig ++ "g")%string in
  let sig2 := (fixture_sig ++ "zz")%string in
  String.length sig1 = 65%nat /\ String.length sig2 = 66%nat
  /\ unhex "g" = None /\ unhex "z" = None
  /\ verify_server (signed_request fixture_ts "n1" sig1 fixture_raw None) = Normal Verified
  /\ verify_part000 (signed_request fixture_ts "n1" sig1 fixture_raw None) = Normal Verified
  /\ verify_server (signed_request fixture_ts "n1" sig2 fixture_raw None) = Normal Verified
  /\ verify_part000 (signed_request fixture_ts "n1" sig2 fixture_raw None) = Normal Verified.
Proof.
  vm_compute. repeat split; reflexivity.
Qed.

Lemma timestamp_failures_witness :
  "abc" <> "" /\ "n1" <> "" /\ fixture_sig <> ""
  /\ Number_isFinite (decimal_StringToNumber "abc") = false
  /\ Part000.verifyHmac decimal_StringToNumber fixture_secret fixture_now
       (signed_request "abc" "n1" fixture_sig fixture_raw None) = Normal (Rejected "bad_ts").
Proof.
  assert (Hts : "abc" <> "") by discriminate.
  assert (Hn : "n1" <> "") by discriminate.
  assert (Hs : fixture_sig <> "") by discriminate.
  assert (Hnan : Number_isFinite (decimal_StringToNumber "abc") = false) by reflexivity.
  split; [exact Hts|]. split; [exact Hn|]. split; [exact Hs|]. split; [exact Hnan|].
  exact (proj1 (proj1 (timestamp_failures decimal_StringToNumber fixture_secret fixture_now
                         "abc" "n1" fixture_sig fixture_raw None Hts Hn Hs) Hnan)).
Defined.

(** Against C7 as stated: server.js gives one and the same error for a
    timestamp that is not a number and for one that is an hour old; and a
    request without a nonce is answered [missing_headers] by part_000
    although its timestamp is not a number. *)
Lemma server_js_merges_timestamp_failures :
  Number_isFinite (decimal_StringToNumber "abc") = false
  /\ ServerJs.verifyHmac decimal_StringToNumber fixture_secret fixture_now
       (signed_request "abc" "n1" fixture_sig fixture_raw None)
     = Normal (Rejected "ts_out_of_window")
  /\ decimal_StringToNumber "1699996400000" = Fin (inject_Z (fixture_now - 3600000))
  /\ ServerJs.verifyHmac decimal_StringToNumber fixture_secret fixture_now
       (signed_request "1699996400000" "n1" fixture_sig fixture_raw None)
     = Normal (Rejected "ts_out_of_window")
  /\ Part000.verifyHmac decimal_StringToNumber fixture_secret fixture_now
       {| x_ts := Some "abc"; x_nonce := None; x_signature := Some fixture_sig;
          rawBody := fixture_raw; body := None |}
     = Normal (Rejected "missing_headers").
Proof.
  vm_compute. repeat split; reflexivity.
Qed.

(** * Acknowledgment (part_000) *)

Module AckFacts.
Import Part000.

(** The condition of the [UPDATE], spelled out. *)
Definition can_ack (id : N) (r : LogRow) : Prop :=
  log_id r = id /\ log_acknowledged r = false
  /\ (log_type r = "warning" \/ log_type r = "alarm").

Lemma ackable_iff id r : ackable id r = true <-> can_ack id r.
Proof.
  unfold ackable, can_ack.
  rewrite !andb_true_iff, orb_true_iff, negb_true_iff, N.eqb_eq, !String.eqb_eq.
  tauto.
Qed.

Lemma ackable_set_acknowledged id r : ackable id (set_acknowledged r) = false.
Proof. unfold ackable. cbn. rewrite andb_false_r. reflexivity. Qed.

Lemma no_ackable_filter id table :
  (forall r, In r table -> ~ can_ack id r) -> List.filter (ackable id) table = [].
Proof.
  induction table as [|x table IH]; intros H; [reflexivity|]. cbn.
  destruct (ackable id x) eqn:Hx.
  - apply ackable_iff in Hx. exfalso. apply (H x); [left; reflexivity | assumption].
  - apply IH. intros r Hr. apply H. right. assumption.
Qed.

Lemma no_ackable_map id table :
  List.filter (ackable id) table = [] ->
  map (fun r => if ackable id r then set_acknowledged r else r) table = table.
Proof.
  induction table as [|x table IH]; [reflexivity|]. cbn.
  destruct (ackable id x); [discriminate|]. intros H. rewrite IH by assumption. reflexivity.
Qed.

Lemma filter_nil_none id table :
  List.filter (ackable id) table = [] -> forall r, In r table -> ~ can_ack id r.
Proof.
  intros H r Hr Hc. apply ackable_iff in Hc.
  assert (Hin : In r (List.filter (ackable id) table)) by (apply filter_In; auto).
  rewrite H in Hin. destruct Hin.
Qed.

(** After the [UPDATE] no row matches its condition any more. *)
Lemma update_ack_exhausts id table :
  List.filter (ackable id) (fst (update_ack id table)) = [].
Proof.
  cbn. induction table as [|x table IH]; [reflexivity|]. cbn.
  destruct (ackable id x) eqn:Hx.
  - rewrite ackable_set_acknowledged. assumption.
  - rewrite Hx. assumption.
Qed.

(** Under the primary key the [UPDATE] rewrites one row in place. *)
Lemma update_ack_one id table r rest :
  List.NoDup (map log_id table) ->
  List.filter (ackable id) table = r :: rest ->
  rest = []
  /\ exists before after,
       table = before ++ r :: after
       /\ fst (update_ack id table) = before ++ set_acknowledged r :: after.
Proof.
  cbn. induction table as [|x table IH]; [discriminate|]. cbn.
  intros Hnd. apply List.NoDup_cons_iff in Hnd as [Hx Hnd].
  destruct (ackable id x) eqn:Hack.
  - intros [= -> <-].
    assert (Hnone : List.filter (ackable id) table = []).
    { apply no_ackable_filter. intros y Hy [Hid _]. apply Hx.
      apply ackable_iff in Hack as [Hidr _]. rewrite Hidr, <- Hid.
      apply in_map. assumption. }
    split; [assumption|]. exists [], table. split; [reflexivity|].
    cbn. rewrite (no_ackable_map id table Hnone). reflexivity.
  - intros Hf. destruct (IH Hnd Hf) as (Hrest & before & after & Ht & Hu).
    split; [assumption|]. exists (x :: before), after. cbn. rewrite Hu, <- Ht.
    split; reflexivity.
Qed.

End AckFacts.

(** The primary key of [logs] survives the acknowledgment. *)
Lemma ack_keeps_ids (id : option N) (db : Part000.Db) :
  map Part000.log_id (Part000.logs (snd (Part000.ack id db)))
  = map Part000.log_id (Part000.logs db).
Proof.
  unfold Part000.ack. destruct id as [u|]; [|reflexivity].
  unfold Part000.update_ack.
  assert (H : map Part000.log_id
                (map (fun r => if Part000.ackable u r then Part000.set_acknowledged r else r)
                     (Part000.logs db))
              = map Part000.log_id (Part000.logs db)).
  { rewrite map_map. apply map_ext. intros r. destruct (Part000.ackable u r); reflexivity. }
  destruct (map Part000.set_acknowledged _); exact H.
Qed.

(** C3 (as amended).  For every path parameter that PostgreSQL reads as a
    UUID, the acknowledgment succeeds exactly when the table holds an
    entry with that id that is not acknowledged and of type [warning] or
    [alarm]; it then returns that entry with [acknowledged] set, and the
    entry is acknowledged in the table.  Otherwise, whether the entry is
    missing, acknowledged or of another type, the answer is the one error
    [not_ackable_or_not_found] and the store is as before.  A second
    acknowledgment after a successful one fails with that error and
    changes nothing.  A path parameter that is not a UUID makes the
    statement fail: the answer is the other error [server_error], with
    status 500, and the store is as before. *)
Theorem acknowledge_iff_ackable (id : N) (db : Part000.Db) :
  let '(out, db') := Part000.ack (Some id) db in
  ((exists log, out = Part000.AckOk log)
   <-> exists r, In r (Part000.logs db) /\ AckFacts.can_ack id r)
  /\ (forall log, out = Part000.AckOk log ->
        Part000.log_acknowledged log = true
        /\ In log (Part000.logs db')
        /\ exists r, In r (Part000.logs db) /\ AckFacts.can_ack id r
                     /\ log = Part000.set_acknowledged r)
  /\ ((forall r, In r (Part000.logs db) -> ~ AckFacts.can_ack id r) ->
        out = Part000.AckError 400 "not_ackable_or_not_found" /\ db' = db)
  /\ Part000.ack (Some id) db' = (Part000.AckError 400 "not_ackable_or_not_found", db')
  /\ Part000.ack None db = (Part000.AckError 500 "server_error", db).
Proof.
  unfold Part000.ack.
  destruct (Part000.update_ack id (Part000.logs db)) as [table rows] eqn:Hupd.
  pose proof (AckFacts.update_ack_exhausts id (Part000.logs db)) as Hex.
  rewrite Hupd in Hex. cbn [fst] in Hex.
  unfold Part000.update_ack in Hupd. injection Hupd as Htable Hrows.
  assert (Hsecond :
    (let '(table0, rows0) := Part000.update_ack id table in
     match rows0 with
     | [] => (Part000.AckError 400 "not_ackable_or_not_found",
              {| Part000.statuses := Part000.statuses db; Part000.logs := table0 |})
     | r :: _ => (Part000.AckOk r,
              {| Part000.statuses := Part000.statuses db; Part000.logs := table0 |})
     end)
    = (Part000.AckError 400 "not_ackable_or_not_found",
       {| Part000.statuses := Part000.statuses db; Part000.logs := table |})).
  { unfold Part000.update_ack. rewrite Hex. cbn.
    rewrite (AckFacts.no_ackable_map id table Hex). reflexivity. }
  destruct (List.filter (Part000.ackable id) (Part000.logs db)) as [|r rest] eqn:Hf;
    cbn in Hrows; subst rows; cbn [Part000.logs Part000.statuses].
  - pose proof (AckFacts.filter_nil_none id _ Hf) as Hnone.
    split; [|split; [|split]].
    + split; [intros [log H]; discriminate | intros (r & Hr & Hc); exfalso; eapply Hnone; eauto].
    + intros log H. discriminate.
    + intros _. split; [reflexivity|].
      rewrite <- Htable, (AckFacts.no_ackable_map id _ Hf). destruct db; reflexivity.
    + split; [exact Hsecond | reflexivity].
  - assert (Hin : In r (List.filter (Part000.ackable id) (Part000.logs db)))
      by (rewrite Hf; left; reflexivity).
    apply filter_In in Hin as [Hr Hack]. pose proof Hack as Hc. apply AckFacts.ackable_iff in Hc.
    split; [|split; [|split]].
    + split; [intros _; eauto | intros _; eauto].
    + intros log [= <-]. split; [reflexivity|]. split.
      * rewrite <- Htable. apply in_map_iff. exists r. rewrite Hack. auto.
      * eauto.
    + intros Hnone. exfalso. eapply Hnone; eauto.
    + split; [exact Hsecond | reflexivity].
Qed.

(** C10.  A successful acknowledgment rewrites the one row with that id
    in place: the returned entry has the id, timestamp, type, component and
    title of the stored one and differs from it in [acknowledged] only;
    every other row of the table and the whole statuses table are as
    before. *)
Theorem acknowledge_frame (id : N) (db db' : Part000.Db) (log : Part000.LogRow) :
  List.NoDup (map Part000.log_id (Part000.logs db)) ->
  Part000.ack (Some id) db = (Part000.AckOk log, db') ->
  Part000.statuses db' = Part000.statuses db
  /\ exists before r after,
       Part000.logs db = before ++ r :: after
       /\ Part000.logs db' = before ++ log :: after
       /\ Part000.log_id r = id
       /\ Part000.log_acknowledged r = false
       /\ Part000.log_acknowledged log = true
       /\ Part000.log_id log = Part000.log_id r
       /\ Part000.log_ts log = Part000.log_ts r
       /\ Part000.log_type log = Part000.log_type r
       /\ Part000.log_component log = Part000.log_component r
       /\ Part000.log_title log = Part000.log_title r.
Proof.
  intros Hnd. unfold Part000.ack.
  destruct (Part000.update_ack id (Part000.logs db)) as [table rows] eqn:Hupd.
  destruct rows as [|r0 rest0]; [discriminate|]. intros [= <- <-].
  cbn [Part000.statuses Part000.logs]. split; [reflexivity|].
  pose proof Hupd as Hrows. unfold Part000.update_ack in Hrows. injection Hrows as _ Hrows.
  destruct (List.filter (Part000.ackable id) (Part000.logs db)) as [|r rest] eqn:Hf;
    [discriminate|].
  cbn in Hrows. injection Hrows as <- _.
  destruct (AckFacts.update_ack_one id _ r rest Hnd Hf) as (_ & before & after & Ht & Hu).
  rewrite Hupd in Hu. cbn [fst] in Hu.
  assert (Hin : In r (List.filter (Part000.ackable id) (Part000.logs db)))
    by (rewrite Hf; left; reflexivity).
  apply filter_In in Hin as [_ Hack]. apply AckFacts.ackable_iff in Hack as (Hid & Hna & _).
  exists before, r, after. repeat split; assumption || reflexivity.
Qed.

(** * Lists, orders and permutations *)

Lemma filter_Permutation {A : Type} (f : A -> bool) (l l' : list A) :
  Permutation l l' -> Permutation (List.filter f l) (List.filter f l').
Proof.
  induction 1 as [|x l l' _ IH|x y l|l l' l'' _ IH1 _ IH2]; cbn.
  - constructor.
  - destruct (f x); [constructor|]; assumption.
  - destruct (f x), (f y); try reflexivity. constructor.
  - etransitivity; eassumption.
Qed.

Lemma filter_all {A : Type} (f : A -> bool) (l : list A) :
  (forall x, In x l -> f x = true) -> List.filter f l = l.
Proof.
  induction l as [|x l IH]; intros H; [reflexivity|]. cbn.
  rewrite (H x) by (left; reflexivity). rewrite IH; [reflexivity|].
  intros y Hy. apply H. right. assumption.
Qed.

Lemma filter_none {A : Type} (f : A -> bool) (l : list A) :
  (forall x, In x l -> f x = false) -> List.filter f l = [].
Proof.
  induction l as [|x l IH]; intros H; [reflexivity|]. cbn.
  rewrite (H x) by (left; reflexivity). apply IH.
  intros y Hy. apply H. right. assumption.
Qed.

Lemma StronglySorted_split {A : Type} (R : A -> A -> Prop) (l1 l2 : list A) :
  StronglySorted R (l1 ++ l2) -> forall x y, In x l1 -> In y l2 -> R x y.
Proof.
  induction l1 as [|a l1 IH]; intros Hs x y Hx Hy; [destruct Hx|].
  cbn in Hs. apply StronglySorted_inv in Hs as [Hs Hall].
  destruct Hx as [<- | Hx].
  - rewrite List.Forall_forall in Hall. apply Hall. apply in_or_app. right. assumption.
  - eapply IH; eassumption.
Qed.

Lemma insert_desc_Permutation {A : Type} (ts : A -> Z) (x : A) (l : list A) :
  Permutation (insert_desc ts x l) (x :: l).
Proof.
  induction l as [|y l IH]; cbn; [reflexivity|].
  destruct (ts y <=? ts x); [reflexivity|].
  rewrite IH. constructor.
Qed.

Lemma sort_desc_Permutation {A : Type} (ts : A -> Z) (l : list A) :
  Permutation (sort_desc ts l) l.
Proof.
  induction l as [|x l IH]; cbn; [constructor|].
  rewrite insert_desc_Permutation. constructor. assumption.
Qed.

Lemma insert_desc_sorted {A : Type} (ts : A -> Z) (x : A) (l : list A) :
  StronglySorted (fun a b => ts b <= ts a) l ->
  StronglySorted (fun a b => ts b <= ts a) (insert_desc ts x l).
Proof.
  induction l as [|y l IH]; intros Hs; cbn.
  - repeat constructor.
  - apply StronglySorted_inv in Hs as [Hs Hall].
    destruct (ts y <=? ts x) eqn:Hle.
    + apply Z.leb_le in Hle. constructor; [constructor; assumption|].
      constructor; [assumption|].
      rewrite List.Forall_forall in Hall |- *. intros z Hz. specialize (Hall z Hz). lia.
    + apply Z.leb_gt in Hle. constructor; [apply IH; assumption|].
      rewrite List.Forall_forall in Hall |- *. intros z Hz.
      apply (Permutation_in _ (insert_desc_Permutation ts x l)) in Hz.
      destruct Hz as [<- | Hz]; [lia | apply Hall; assumption].
Qed.

Lemma sort_desc_sorted {A : Type} (ts : A -> Z) (l : list A) :
  StronglySorted (fun a b => ts b <= ts a) (sort_desc ts l).
Proof.
  induction l as [|x l IH]; cbn; [constructor|]. apply insert_desc_sorted. assumption.
Qed.

(** * Log retention (server.js) *)

(** [table] is what is left of [all] after keeping the rows with the most
    recent timestamps, 200 at most: the rows of [all] are those of [table]
    and the discarded ones, and no discarded row is newer than a kept one. *)
Definition window_of (all table : list ServerJs.LogRow) : Prop :=
  exists discarded,
    Permutation all (table ++ discarded)
    /\ List.length table = Nat.min 200 (List.length all)
    /\ forall r d, In r table -> In d discarded -> ServerJs.log_ts d <= ServerJs.log_ts r.

Lemma existsb_eqb_In (x : string) (l : list string) :
  existsb (String.eqb x) l = true <-> In x l.
Proof.
  rewrite existsb_exists. split.
  - intros (y & Hy & Heq). apply String.eqb_eq in Heq. subst. assumption.
  - intros H. exists x. split; [assumption | apply String.eqb_refl].
Qed.

Lemma NoDup_app_disjoint {A : Type} (l1 l2 : list A) (a : A) :
  List.NoDup (l1 ++ l2) -> In a l1 -> In a l2 -> False.
Proof.
  induction l1 as [|x l1 IH]; cbn; [tauto|].
  intros Hnd [<- | H1] H2; apply List.NoDup_cons_iff in Hnd as [Hx Hnd].
  - apply Hx. apply in_or_app. right. assumption.
  - auto.
Qed.

Lemma NoDup_map_filter {A B : Type} (f : A -> B) (keep : A -> bool) (l : list A) :
  List.NoDup (map f l) -> List.NoDup (map f (List.filter keep l)).
Proof.
  induction l as [|x l IH]; cbn; [constructor|].
  intros Hnd. apply List.NoDup_cons_iff in Hnd as [Hx Hnd].
  destruct (keep x); cbn; [|apply IH; assumption].
  constructor; [|apply IH; assumption].
  intros Hin. apply Hx. apply in_map_iff in Hin as (y & Hy & Hin).
  apply filter_In in Hin as [Hin _]. rewrite <- Hy. apply in_map. assumption.
Qed.

Lemma insert_log_spec row table :
  ServerJs.insert_log row table
  = if negb (ServerJs.row_accepted row) then Throw PgInvalidInput
    else if existsb (String.eqb (ServerJs.log_id row)) (map ServerJs.log_id table)
    then Throw PgUniqueViolation else Normal (table ++ [row]).
Proof.
  unfold ServerJs.insert_log.
  assert (H : existsb (fun r => String.eqb (ServerJs.log_id r) (ServerJs.log_id row)) table
              = existsb (String.eqb (ServerJs.log_id row)) (map ServerJs.log_id table)).
  { induction table as [|x table IH]; [reflexivity|]. cbn.
    rewrite IH, (String.eqb_sym (ServerJs.log_id x)). reflexivity. }
  rewrite H. reflexivity.
Qed.

Section Retention.

Variable order_by_ts_desc : list ServerJs.LogRow -> list ServerJs.LogRow.
Hypothesis order_perm : forall t, Permutation (order_by_ts_desc t) t.
Hypothesis order_sorted : forall t,
  StronglySorted (fun a b => ServerJs.log_ts b <= ServerJs.log_ts a) (order_by_ts_desc t).

Local Abbreviation delete_beyond := (ServerJs.delete_beyond order_by_ts_desc).

(** Under the primary key, the [DELETE] leaves the first [n] rows of the
    ordered table. *)
Lemma delete_beyond_keeps n table :
  List.NoDup (map ServerJs.log_id table) ->
  Permutation (delete_beyond n table) (firstn n (order_by_ts_desc table)).
Proof.
  intros Hnd. unfold ServerJs.delete_beyond.
  set (sorted := order_by_ts_desc table).
  set (keep := fun r => negb (existsb (String.eqb (ServerJs.log_id r))
                                 (map ServerJs.log_id (skipn n sorted)))).
  assert (Hsorted : List.NoDup (map ServerJs.log_id (firstn n sorted)
                                ++ map ServerJs.log_id (skipn n sorted))).
  { rewrite <- map_app, firstn_skipn.
    eapply Permutation_NoDup; [|exact Hnd].
    apply Permutation_map. symmetry. apply order_perm. }
  rewrite (filter_Permutation keep _ _ (Permutation_sym (order_perm table))).
  fold sorted.
  assert (Heq : List.filter keep sorted = firstn n sorted).
  { transitivity (List.filter keep (firstn n sorted ++ skipn n sorted)).
    { f_equal. symmetry. apply firstn_skipn. }
    rewrite List.filter_app, filter_all, filter_none; [apply app_nil_r| |].
    - intros x Hx. unfold keep. apply negb_false_iff, existsb_eqb_In, in_map. assumption.
    - intros x Hx. unfold keep. apply negb_true_iff.
      destruct (existsb _ _) eqn:Hex; [|reflexivity].
      apply existsb_eqb_In in Hex. exfalso.
      eapply (NoDup_app_disjoint _ _ _ Hsorted); [apply in_map; exact Hx | exact Hex]. }
  rewrite Heq. reflexivity.
Qed.

Lemma delete_beyond_NoDup n table :
  List.NoDup (map ServerJs.log_id table) ->
  List.NoDup (map ServerJs.log_id (delete_beyond n table)).
Proof. intros Hnd. unfold ServerJs.delete_beyond. apply NoDup_map_filter. assumption. Qed.

(** One [addLog]: the window moves on by the inserted row. *)
Lemma addLog_window all table now uuid type comp title acked table' :
  window_of all table ->
  List.NoDup (map ServerJs.log_id table) ->
  ServerJs.addLog order_by_ts_desc now uuid type comp title acked table = Normal table' ->
  window_of (all ++ [ {| ServerJs.log_id := uuid; ServerJs.log_ts := now;
                         ServerJs.log_type := type; ServerJs.log_component := comp;
                         ServerJs.log_title := title;
                         ServerJs.log_acknowledged := acked |} ]) table'
  /\ List.NoDup (map ServerJs.log_id table').
Proof.
  intros (discarded & Hperm & Hlen & Hord) Hnd. unfold ServerJs.addLog.
  set (row := {| ServerJs.log_id := uuid |}).
  rewrite insert_log_spec. destruct (negb (ServerJs.row_accepted row)); [discriminate|].
  destruct (existsb _ _) eqn:Hfresh; [discriminate|]. intros [= <-].
  assert (Hnew : ~ In uuid (map ServerJs.log_id table)).
  { intros Hin. apply existsb_eqb_In in Hin. cbn in Hfresh. congruence. }
  assert (Hnd1 : List.NoDup (map ServerJs.log_id (table ++ [row]))).
  { eapply Permutation_NoDup.
    - apply Permutation_map. apply Permutation_cons_append.
    - cbn. constructor; assumption. }
  split; [|apply delete_beyond_NoDup; assumption].
  set (sorted := order_by_ts_desc (table ++ [row])).
  pose proof (delete_beyond_keeps 200 _ Hnd1) as Hkeep. fold sorted in Hkeep.
  pose proof (order_perm (table ++ [row])) as Hsp. fold sorted in Hsp.
  pose proof (order_sorted (table ++ [row])) as Hss. fold sorted in Hss.
  exists (skipn 200 sorted ++ discarded). split; [|split].
  - rewrite Hperm, Hkeep, app_assoc, firstn_skipn, Hsp.
    rewrite <- !app_assoc. apply Permutation_app_head, Permutation_app_comm.
  - rewrite (Permutation_length Hkeep), length_firstn, (Permutation_length Hsp).
    rewrite !length_app. cbn [List.length]. rewrite Hlen. lia.
  - intros r d Hr Hd.
    apply (Permutation_in _ Hkeep) in Hr.
    rewrite <- (firstn_skipn 200 sorted) in Hss.
    apply in_app_or in Hd as [Hd | Hd].
    { exact (StronglySorted_split _ _ _ Hss r d Hr Hd). }
    assert (Hr' : In r (table ++ [row])).
    { apply (Permutation_in _ Hsp). rewrite <- (firstn_skipn 200 sorted).
      apply in_or_app. left. assumption. }
    apply in_app_or in Hr' as [Hr' | Hr']; [apply Hord; assumption|].
    destruct Hr' as [<- | []].
    (* the new row is kept although rows were discarded before: the table
       was full, so one of its rows went out, and that row is not older
       than any discarded one *)
    assert (Hfull : List.length table = 200%nat).
    { apply Permutation_length in Hperm. rewrite length_app in Hperm.
      destruct discarded; [destruct Hd|]. cbn in Hperm. lia. }
    destruct (skipn 200 sorted) as [|x rest] eqn:Hskip.
    { exfalso. pose proof (length_skipn 200 sorted) as Hl. rewrite Hskip in Hl.
      rewrite (Permutation_length Hsp), length_app in Hl. cbn in Hl. lia. }
    assert (Hx : In x (table ++ [row])).
    { apply (Permutation_in _ Hsp). rewrite <- (firstn_skipn 200 sorted), Hskip.
      apply in_or_app. right. left. reflexivity. }
    assert (Hxr : x <> row).
    { intros ->. apply List.NoDup_map_inv in Hnd1.
      apply (Permutation_NoDup (Permutation_sym Hsp)) in Hnd1.
      rewrite <- (firstn_skipn 200 sorted), Hskip in Hnd1.
      eapply (NoDup_app_disjoint _ _ row Hnd1); [assumption | left; reflexivity]. }
    apply in_app_or in Hx as [Hx | [Hx | []]]; [|congruence].
    pose proof (Hord x d Hx Hd) as H1.
    pose proof (StronglySorted_split _ _ _ Hss row x Hr (or_introl eq_refl)) as H2.
    cbn beta in H2. lia.
Qed.

End Retention.

(** * The ingest handler of server.js *)

Section ServerJsIngest.

Variable StringToNumber : string -> jsnum.
Variable toLowerCase : string -> string.
Variable order_by_ts_desc : list ServerJs.LogRow -> list ServerJs.LogRow.

Local Abbreviation ingest := (ServerJs.ingest StringToNumber toLowerCase order_by_ts_desc).
Local Abbreviation accepted := (ServerJs.accepted StringToNumber).
Local Abbreviation changes := (ServerJs.changes toLowerCase).
Local Abbreviation inserted := (ServerJs.inserted StringToNumber toLowerCase).
Local Abbreviation ingest_all :=
  (ServerJs.ingest_all StringToNumber toLowerCase order_by_ts_desc).
Local Abbreviation inserted_all :=
  (ServerJs.inserted_all StringToNumber toLowerCase order_by_ts_desc).

(** The snapshot document as the handler's [UPDATE] leaves it in the
    store. *)
Definition saved_snapshot (clk : ServerJs.Clock) (db : ServerJs.Db) (rep : Report)
    : ServerJs.Snapshot :=
  let comp := default "" (component rep) in
  let '(i, st, sts) :=
    ServerJs.find_or_create (toLowerCase comp) comp (ServerJs.at_created clk)
      (ServerJs.statuses (ServerJs.snapshot db)) in
  {| ServerJs.generatedAt := ServerJs.at_generated clk;
     ServerJs.statuses :=
       <[i := ServerJs.json_status (ServerJs.update_status clk rep st)]> sts |}.

(** What a run comes to once [table] is the logs table: the call of
    [saveSnapshot] and the answer. *)
Definition save_outcome (clk : ServerJs.Clock) (db : ServerJs.Db) (rep : Report)
    (table : list ServerJs.LogRow) : Outcome * ServerJs.Db :=
  if ServerJs.status_accepted (ServerJs.assigned toLowerCase clk db rep)
  then (Ok200, {| ServerJs.generated_at := ServerJs.at_saved clk;
                  ServerJs.snapshot := saved_snapshot clk db rep;
                  ServerJs.logs := table |})
  else (Unanswered PgInvalidInput,
        {| ServerJs.generated_at := ServerJs.generated_at db;
           ServerJs.snapshot := ServerJs.snapshot db;
           ServerJs.logs := table |}).

Lemma ingest_not_accepted env clk uuid db req :
  accepted env clk req = false ->
  snd (ingest env clk uuid db req) = db /\ fst (ingest env clk uuid db req) <> Ok200.
Proof.
  unfold ServerJs.accepted, ServerJs.ingest.
  destruct (ServerJs.has_pool env); cbn [negb andb]; [|split; [reflexivity | discriminate]].
  destruct (ServerJs.verifyHmac _ _ _ _) as [[|why]|e]; cbn [andb];
    try (split; [reflexivity | discriminate]).
  destruct (opt_truthy (component (fields req))); cbn [negb andb orb];
    [|split; [reflexivity | discriminate]].
  destruct (opt_truthy (severity (fields req))); cbn [negb];
    [discriminate | split; [reflexivity | discriminate]].
Qed.

Lemma ingest_accepted env clk uuid db req :
  accepted env clk req = true ->
  ingest env clk uuid db req
  = if changes clk db (fields req) then
      match ServerJs.insert_log (ServerJs.log_row clk uuid (fields req)) (ServerJs.logs db) with
      | Throw e => (Unanswered e, db)
      | Normal table =>
          save_outcome clk db (fields req) (ServerJs.delete_beyond order_by_ts_desc 200 table)
      end
    else save_outcome clk db (fields req) (ServerJs.logs db).
Proof.
  unfold ServerJs.accepted, ServerJs.ingest, ServerJs.changes, save_outcome, saved_snapshot,
    ServerJs.assigned, ServerJs.addLog, ServerJs.saveSnapshot.
  destruct (ServerJs.has_pool env); cbn [negb andb]; [|discriminate].
  destruct (ServerJs.verifyHmac _ _ _ _) as [[|why]|e]; cbn [andb]; try discriminate.
  destruct (opt_truthy (component (fields req))); cbn [negb andb orb]; [|discriminate].
  destruct (opt_truthy (severity (fields req))); cbn [negb]; [|discriminate].
  intros _.
  destruct (ServerJs.find_or_create _ _ _ _) as [[i st] sts].
  cbn [ServerJs.generatedAt ServerJs.statuses ServerJs.logs].
  rewrite list_insert_insert_eq.
  destruct (negb (String.eqb _ _)).
  - unfold ServerJs.log_row. destruct (ServerJs.insert_log _ _); [|reflexivity].
    destruct (ServerJs.status_accepted _); reflexivity.
  - destruct (ServerJs.status_accepted _); reflexivity.
Qed.

(** The [logs] table after a run, in terms of the rows the run inserts. *)
Lemma ingest_logs env clk uuid db req :
  ServerJs.logs (snd (ingest env clk uuid db req))
  = match inserted env clk uuid db req with
    | [] => ServerJs.logs db
    | row :: _ => ServerJs.delete_beyond order_by_ts_desc 200 (ServerJs.logs db ++ [row])
    end.
Proof.
  assert (Hsave : forall table, ServerJs.logs (snd (save_outcome clk db (fields req) table))
                                = table).
  { intros table. unfold save_outcome. destruct (ServerJs.status_accepted _); reflexivity. }
  unfold ServerJs.inserted.
  destruct (accepted env clk req) eqn:Hacc.
  - rewrite (ingest_accepted _ _ _ _ _ Hacc). cbn [andb].
    destruct (changes clk db (fields req)); cbn [andb]; [|apply Hsave].
    rewrite insert_log_spec.
    assert (H : existsb (fun r => String.eqb (ServerJs.log_id r) uuid) (ServerJs.logs db)
                = existsb (String.eqb uuid) (map ServerJs.log_id (ServerJs.logs db))).
    { induction (ServerJs.logs db) as [|x l IH]; [reflexivity|]. cbn.
      rewrite IH, (String.eqb_sym (ServerJs.log_id x)). reflexivity. }
    rewrite H. clear H.
    destruct (ServerJs.row_accepted (ServerJs.log_row clk uuid (fields req)));
      cbn [negb andb]; [|reflexivity].
    cbn [ServerJs.log_row ServerJs.log_id].
    destruct (existsb (String.eqb uuid) (map ServerJs.log_id (ServerJs.logs db)));
      cbn [negb]; [reflexivity | apply Hsave].
  - cbn [andb]. rewrite (proj1 (ingest_not_accepted _ _ _ _ _ Hacc)). reflexivity.
Qed.

End ServerJsIngest.

(** * The ingest handler of part_000 *)

(** A text PostgreSQL accepts is one without a zero byte. *)
Lemma pg_text_iff (s : string) :
  pg_text s = true <-> ~ In Ascii.zero (list_ascii_of_string s).
Proof.
  unfold pg_text. rewrite forallb_forall. split.
  - intros H Hin. specialize (H _ Hin). rewrite Ascii.eqb_refl in H. discriminate.
  - intros H c Hc. apply negb_true_iff. apply Ascii.eqb_neq. intros ->. contradiction.
Qed.

Lemma nearest_double_small (z : Z) : 0 <= z < 2 ^ 53 -> nearest_double z = z.
Proof.
  intros [H0 H1]. unfold nearest_double.
  assert (Hb : (Z.log2 z + 1 <=? 53) = true).
  { apply Z.leb_le. destruct (Z.eq_dec z 0) as [-> | Hz]; [cbn; lia|].
    assert (Z.log2 z < 53) by (apply Z.log2_lt_pow2; lia). lia. }
  rewrite Hb. reflexivity.
Qed.

Lemma nearest_double_large (z : Z) : 2 ^ 53 <= z -> 2 ^ 53 <= nearest_double z.
Proof.
  intros H. unfold nearest_double.
  assert (Hl : 53 <= Z.log2 z) by (apply Z.log2_le_pow2; lia).
  assert (Hb : (Z.log2 z + 1 <=? 53) = false) by (apply Z.leb_gt; lia).
  rewrite Hb. cbv zeta.
  set (shift := Z.log2 z + 1 - 53). assert (Hs : 1 <= shift) by (unfold shift; lia).
  set (m := Z.shiftr z shift).
  assert (Hm : 2 ^ 52 <= m).
  { unfold m. rewrite Z.shiftr_div_pow2 by lia.
    apply Z.div_le_lower_bound; [apply Z.pow_pos_nonneg; lia|].
    rewrite <- Z.pow_add_r by lia.
    replace (shift + 52) with (Z.log2 z) by (unfold shift; lia).
    apply Z.log2_spec. lia. }
  assert (Hp : 2 ^ 1 <= 2 ^ shift) by (apply Z.pow_le_mono_r; lia).
  change (2 ^ 1) with 2 in Hp.
  match goal with |- _ <= Z.shiftl ?x _ => set (m' := x) end.
  assert (Hm' : m <= m') by (unfold m'; destruct (_ || _); lia).
  rewrite Z.shiftl_mul_pow2 by lia.
  change (2 ^ 53) with (2 ^ 52 * 2). nia.
Qed.

Lemma shortest_digits_small (j : nat) (x : Z) :
  0 <= x < 2 ^ 53 -> shortest_digits j x = x.
Proof.
  intros Hx. induction j as [|j IH]; [reflexivity|].
  cbn [shortest_digits]. cbv zeta.
  set (p := 10 ^ Z.of_nat (S j)).
  assert (Hp : 0 < p) by (apply Z.pow_pos_nonneg; lia).
  set (lo := x / p * p).
  assert (Hlo : 0 <= lo <= x /\ x < lo + p).
  { unfold lo. pose proof (Z.mod_pos_bound x p Hp). pose proof (Z.div_mod x p ltac:(lia)).
    assert (0 <= x / p) by (apply Z.div_pos; lia). nia. }
  assert (Hhi : (0 <? lo + p) && (nearest_double (lo + p) =? x) = false).
  { apply andb_false_iff. right. apply Z.eqb_neq.
    destruct (Z_lt_le_dec (lo + p) (2 ^ 53)) as [Hs | Hl].
    - rewrite nearest_double_small by lia. lia.
    - pose proof (nearest_double_large _ Hl). lia. }
  rewrite Hhi, andb_false_r.
  destruct ((0 <? lo) && (nearest_double lo =? x)) eqn:Hok; [|exact IH].
  apply andb_true_iff in Hok as [_ Hok]. apply Z.eqb_eq in Hok.
  rewrite nearest_double_small in Hok by lia. exact Hok.
Qed.

Lemma Number_toString_small (z : Z) : - 2 ^ 53 < z < 2 ^ 53 -> Number_toString z = z.
Proof.
  intros Hz. unfold Number_toString. rewrite shortest_digits_small by lia.
  destruct z; cbn; lia.
Qed.

Lemma Qred_inject_Z (z : Z) : Qred (inject_Z z) = inject_Z z.
Proof.
  unfold Qred, inject_Z.
  pose proof (Z.ggcd_gcd z 1) as Hg. pose proof (Z.ggcd_correct_divisors z 1) as Hd.
  destruct (Z.ggcd z 1) as [g [a b]]. cbn [fst snd] in *.
  rewrite Z.gcd_1_r in Hg. subst g. destruct Hd as [Ha Hb].
  rewrite Z.mul_1_l in Ha, Hb. subst a b. reflexivity.
Qed.

Lemma pg_bigint_throws (x : jsnum) (e : exn) : pg_bigint x = Throw e -> e = PgInvalidInput.
Proof.
  unfold pg_bigint. destruct x as [| |q]; try congruence. cbv zeta.
  destruct (Pos.eqb _ _); [|congruence]. destruct (_ && _); congruence.
Qed.

(** What PostgreSQL reads is the text of a whole number. *)
Lemma pg_bigint_value (x : jsnum) (ts : Z) :
  pg_bigint x = Normal ts ->
  exists q z, x = Fin q /\ (q == inject_Z z)%Q /\ ts = Number_toString z
              /\ - 2 ^ 63 <= ts < 2 ^ 63.
Proof.
  unfold pg_bigint. destruct x as [| |q]; try discriminate. cbv zeta.
  destruct (Pos.eqb _ _) eqn:Hd; [|discriminate].
  destruct (_ && _) eqn:Hr; [|discriminate]. intros [= <-].
  exists q, (Qnum (Qred q)). split; [reflexivity|]. split; [|split; [reflexivity|]].
  - apply Pos.eqb_eq in Hd. rewrite <- (Qred_correct q) at 1.
    destruct (Qred q) as [n d]. cbn in Hd |- *. subst d. reflexivity.
  - apply andb_true_iff in Hr as [H1 H2]. apply Z.leb_le in H1. apply Z.ltb_lt in H2. lia.
Qed.

(** Below 2^53 the text is the number itself. *)
Lemma pg_bigint_small (q : Q) (z : Z) :
  (q == inject_Z z)%Q -> - 2 ^ 53 < z < 2 ^ 53 -> pg_bigint (Fin q) = Normal z.
Proof.
  intros Hq Hz. unfold pg_bigint. cbv zeta.
  rewrite (Qred_complete _ _ Hq), Qred_inject_Z. cbn [Qden Qnum inject_Z Pos.eqb].
  rewrite Number_toString_small by assumption.
  assert (H : (- 2 ^ 63 <=? z) && (z <? 2 ^ 63) = true).
  { apply andb_true_iff. split; [apply Z.leb_le | apply Z.ltb_lt]; lia. }
  rewrite H. reflexivity.
Qed.

Lemma pg_bigint_of_clock (now : Z) :
  - 2 ^ 53 < now < 2 ^ 53 -> pg_bigint (Fin (inject_Z now)) = Normal now.
Proof. intros H. apply pg_bigint_small; [reflexivity | assumption]. Qed.

Example bigint_beyond_2_53 :
  pg_bigint (Fin (inject_Z (2 ^ 60))) = Normal 1152921504606847000
  /\ pg_bigint (Fin (inject_Z (2 ^ 53))) = Normal 9007199254740992
  /\ pg_bigint (Fin (inject_Z (2 ^ 63 - 1024))) = Normal 9223372036854775000
  /\ pg_bigint (Fin (inject_Z (2 ^ 63))) = Throw PgInvalidInput
  /\ pg_bigint (Fin (3 # 2)) = Throw PgInvalidInput.
Proof. vm_compute. repeat split; reflexivity. Qed.

Section Part000Ingest.

Variable StringToNumber : string -> jsnum.
Variable toLowerCase : string -> string.
Variable order_by_ts_desc : list Part000.LogRow -> list Part000.LogRow.

Local Abbreviation ingest := (Part000.ingest StringToNumber toLowerCase order_by_ts_desc).
Local Abbreviation accepted := (Part000.accepted StringToNumber).
Local Abbreviation ts_of := (Part000.ts_of StringToNumber).
Local Abbreviation status_texts := (Part000.status_texts toLowerCase).
Local Abbreviation taken uuid db :=
  (existsb (fun r => N.eqb (Part000.log_id r) uuid) (Part000.logs db)).

(** The row the handler upserts into [statuses]. *)
Definition upserted (ts : Z) (rep : Report) : Part000.StatusRow :=
  {| Part000.row_name := default "" (component rep);
     Part000.row_detail := Part000.detail_of rep;
     Part000.row_severity := default "" (severity rep);
     Part000.row_updated_at := ts |}.

(** The two statements of the handler, in their order, on an accepted
    request. *)
Lemma Part000_ingest_accepted env_secret clk uuid db req :
  accepted env_secret clk req = true ->
  ingest env_secret clk uuid db req
  = match pg_bigint (ts_of (updatedAt (fields req)) (Part000.at_ingest clk)) with
    | Throw e => (Unanswered e, db)
    | Normal ts =>
        if negb (status_texts (fields req)) then (Unanswered PgInvalidInput, db)
        else
          let sts := <[toLowerCase (default "" (component (fields req)))
                       := upserted ts (fields req)]> (Part000.statuses db) in
          if negb (Part000.log_texts (fields req))
          then (Unanswered PgInvalidInput,
                {| Part000.statuses := sts; Part000.logs := Part000.logs db |})
          else if taken uuid db
          then (Unanswered PgUniqueViolation,
                {| Part000.statuses := sts; Part000.logs := Part000.logs db |})
          else (Ok200, {| Part000.statuses := sts;
                          Part000.logs :=
                            Part000.logs db ++ [Part000.log_row ts uuid (fields req)] |})
    end.
Proof.
  unfold Part000.accepted, Part000.ingest.
  destruct (Part000.verifyHmac _ _ _ _) as [[|why]|e]; cbn [andb]; try discriminate.
  destruct (opt_truthy (component (fields req))); cbn [negb andb orb]; [|discriminate].
  destruct (opt_truthy (severity (fields req))); cbn [negb]; [|discriminate].
  intros _. cbv zeta.
  unfold Part000.upsert_status, Part000.insert_log, Part000.status_texts, Part000.log_texts.
  cbv zeta.
  destruct (pg_bigint _) as [ts|e] eqn:Hts.
  - destruct (_ && _ && _ && _); cbn [negb]; [|reflexivity].
    destruct (_ && _ && _); cbn [negb]; [|reflexivity].
    destruct (existsb _ _); reflexivity.
  - apply pg_bigint_throws in Hts. subst e.
    destruct (_ && _ && _ && _); reflexivity.
Qed.

Lemma Part000_ingest_not_accepted env_secret clk uuid db req :
  accepted env_secret clk req = false ->
  snd (ingest env_secret clk uuid db req) = db
  /\ fst (ingest env_secret clk uuid db req) <> Ok200.
Proof.
  unfold Part000.accepted, Part000.ingest.
  destruct (Part000.verifyHmac _ _ _ _) as [[|why]|e]; cbn [andb];
    try (split; [reflexivity | discriminate]).
  destruct (opt_truthy (component (fields req))); cbn [negb andb orb];
    [|split; [reflexivity | discriminate]].
  destruct (opt_truthy (severity (fields req))); cbn [negb];
    [discriminate | split; [reflexivity | discriminate]].
Qed.

(** A run that answers [{ok: true}] has upserted the status row and added
    exactly one row to [logs], deleting none. *)
Lemma Part000_ingest_ok env_secret clk uuid db req db' :
  ingest env_secret clk uuid db req = (Ok200, db') ->
  accepted env_secret clk req = true
  /\ exists ts,
       pg_bigint (ts_of (updatedAt (fields req)) (Part000.at_ingest clk)) = Normal ts
       /\ Part000.logs db' = Part000.logs db ++ [Part000.log_row ts uuid (fields req)]
       /\ Part000.statuses db'
          = <[toLowerCase (default "" (component (fields req)))
              := upserted ts (fields req)]> (Part000.statuses db).
Proof.
  destruct (accepted env_secret clk req) eqn:Hacc.
  - rewrite (Part000_ingest_accepted _ _ _ _ _ Hacc).
    destruct (pg_bigint _) as [ts|e]; [|discriminate]. cbv zeta.
    destruct (negb (status_texts _)); [discriminate|].
    destruct (negb (Part000.log_texts _)); [discriminate|].
    destruct (existsb _ _); [discriminate|].
    intros [= <-]. split; [reflexivity|]. exists ts. repeat split; reflexivity.
  - intros H. destruct (Part000_ingest_not_accepted _ _ uuid db _ Hacc) as [_ Hne].
    rewrite H in Hne. cbn in Hne. contradiction.
Qed.

(** The logs table after any run: the table of before, and the row of
    the run when it answers [{ok: true}]. *)
Lemma Part000_ingest_logs env_secret clk uuid db req :
  (fst (ingest env_secret clk uuid db req) <> Ok200
   /\ Part000.logs (snd (ingest env_secret clk uuid db req)) = Part000.logs db)
  \/ (fst (ingest env_secret clk uuid db req) = Ok200
      /\ taken uuid db = false
      /\ exists ts,
           Part000.logs (snd (ingest env_secret clk uuid db req))
           = Part000.logs db ++ [Part000.log_row ts uuid (fields req)]).
Proof.
  destruct (accepted env_secret clk req) eqn:Hacc.
  - rewrite (Part000_ingest_accepted _ _ _ _ _ Hacc).
    destruct (pg_bigint _) as [ts|e]; [|left; split; [discriminate | reflexivity]].
    cbv zeta.
    destruct (negb (status_texts _)); [left; split; [discriminate | reflexivity]|].
    destruct (negb (Part000.log_texts _)); [left; split; [discriminate | reflexivity]|].
    destruct (existsb _ _) eqn:Hex; [left; split; [discriminate | reflexivity]|].
    right. split; [reflexivity|]. split; [reflexivity|]. exists ts. reflexivity.
  - left. destruct (Part000_ingest_not_accepted _ _ uuid db _ Hacc) as [Hs Hne].
    rewrite Hs. auto.
Qed.

(** The same accepted request sent again and again, each time with a new
    id for its log row, is logged every time. *)
Lemma Part000_replay env_secret clk req ts ids :
  accepted env_secret clk req = true ->
  pg_bigint (ts_of (updatedAt (fields req)) (Part000.at_ingest clk)) = Normal ts ->
  status_texts (fields req) = true ->
  Part000.log_texts (fields req) = true ->
  forall db,
    List.NoDup ids ->
    (forall u, In u ids -> ~ In u (map Part000.log_id (Part000.logs db))) ->
    Part000.logs
      (Part000.ingest_all StringToNumber toLowerCase order_by_ts_desc env_secret db
         (map (fun u => (clk, u, req)) ids))
    = Part000.logs db ++ map (fun u => Part000.log_row ts u (fields req)) ids.
Proof.
  intros Hacc Hts Hst Hlt. induction ids as [|a ids IH]; intros db Hnd Hfresh.
  - cbn. rewrite app_nil_r. reflexivity.
  - apply List.NoDup_cons_iff in Hnd as [Ha Hnd].
    cbn [map Part000.ingest_all].
    rewrite (Part000_ingest_accepted _ _ _ _ _ Hacc), Hts, Hst, Hlt. cbn [negb]. cbv zeta.
    destruct (existsb _ _) eqn:Hex.
    { exfalso. apply existsb_exists in Hex as (r & Hr & Heq).
      apply N.eqb_eq in Heq.
      apply (Hfresh a); [left; reflexivity|]. rewrite <- Heq. apply in_map. assumption. }
    cbn [snd]. rewrite IH; [|assumption|].
    + cbn [Part000.logs map]. rewrite <- app_assoc. reflexivity.
    + intros u Hu. cbn [Part000.logs]. rewrite map_app. intros Hin.
      apply in_app_or in Hin as [Hin | [Heq | []]].
      * apply (Hfresh u); [right; assumption | assumption].
      * cbn [Part000.log_row Part000.log_id] in Heq. subst u. contradiction.
Qed.

(** The primary key of [logs] survives a run of the handler. *)
Lemma Part000_ingest_keeps_key env_secret clk uuid db req :
  List.NoDup (map Part000.log_id (Part000.logs db)) ->
  List.NoDup (map Part000.log_id (Part000.logs (snd (ingest env_secret clk uuid db req)))).
Proof.
  intros Hnd.
  destruct (Part000_ingest_logs env_secret clk uuid db req)
    as [[_ ->] | (_ & Hfresh & ts & ->)]; [exact Hnd|].
  rewrite map_app. cbn [map Part000.log_row Part000.log_id].
  eapply Permutation_NoDup; [apply Permutation_cons_append|].
  constructor; [|exact Hnd].
  intros Hin. apply in_map_iff in Hin as (r & Hid & Hr).
  assert (Hex : existsb (fun r => N.eqb (Part000.log_id r) uuid) (Part000.logs db) = true).
  { apply existsb_exists. exists r. split; [assumption | apply N.eqb_eq; assumption]. }
  congruence.
Qed.

End Part000Ingest.

(** * Claims about the ingest handlers *)

(** A run that repeats the current status: an accepted request whose
    component is [comp], whose severity is [sev] and whose detail, as
    [server.js] derives it from the report, is [det]. *)
Definition repeats (StringToNumber : string -> jsnum) (env : ServerJs.Env)
    (comp sev det : string) (run : ServerJs.Clock * string * Request) : Prop :=
  let '(clk, _, req) := run in
  ServerJs.accepted StringToNumber env clk req = true
  /\ component (fields req) = Some comp
  /\ severity (fields req) = Some sev
  /\ ServerJs.detail_of (fields req) = det.

Section IngestClaims.

Variable StringToNumber : string -> jsnum.
Variable toLowerCase : string -> string.
Variable order_by_ts_desc : list ServerJs.LogRow -> list ServerJs.LogRow.
Variable order_by_ts_desc' : list Part000.LogRow -> list Part000.LogRow.

Local Abbreviation ingest := (ServerJs.ingest StringToNumber toLowerCase order_by_ts_desc).
Local Abbreviation accepted := (ServerJs.accepted StringToNumber).
Local Abbreviation inserted := (ServerJs.inserted StringToNumber toLowerCase).
Local Abbreviation ingest_all :=
  (ServerJs.ingest_all StringToNumber toLowerCase order_by_ts_desc).
Local Abbreviation inserted_all :=
  (ServerJs.inserted_all StringToNumber toLowerCase order_by_ts_desc).
Local Abbreviation ingest' := (Part000.ingest StringToNumber toLowerCase order_by_ts_desc').
Local Abbreviation with_id id := (fun s : ServerJs.Status => ServerJs.s_id s = id).

Lemma inserted_cases env clk uuid db req :
  inserted env clk uuid db req = []
  \/ (inserted env clk uuid db req = [ServerJs.log_row clk uuid (fields req)]
      /\ ~ In uuid (map ServerJs.log_id (ServerJs.logs db))
      /\ ServerJs.row_accepted (ServerJs.log_row clk uuid (fields req)) = true).
Proof.
  unfold ServerJs.inserted.
  destruct (_ && _ && _ && negb _) eqn:Hc; [right | left; reflexivity].
  split; [reflexivity|]. apply andb_true_iff in Hc as [Hc Hf].
  apply andb_true_iff in Hc as [_ Hr]. apply negb_true_iff in Hf.
  split; [|exact Hr].
  intros Hin. apply in_map_iff in Hin as (r & Hid & Hr').
  assert (Hex : existsb (fun r => String.eqb (ServerJs.log_id r) uuid) (ServerJs.logs db) = true).
  { apply existsb_exists. exists r. split; [assumption | apply String.eqb_eq; assumption]. }
  congruence.
Qed.

(** A row that is in the logs table after a run of the handler of
    server.js and was not there before is the row the handler passed to
    [addLog]. *)
Lemma new_row_is_logged env clk uuid db req row :
  In row (ServerJs.logs (snd (ingest env clk uuid db req))) ->
  ~ In row (ServerJs.logs db) ->
  row = ServerJs.log_row clk uuid (fields req)
  /\ inserted env clk uuid db req = [row].
Proof.
  rewrite ingest_logs. intros Hin Hnew.
  destruct (inserted_cases env clk uuid db req) as [Hnil | (Hone & _)].
  - rewrite Hnil in Hin. contradiction.
  - rewrite Hone in Hin |- *. unfold ServerJs.delete_beyond in Hin.
    apply filter_In in Hin as [Hin _].
    apply in_app_or in Hin as [Hin | [<- | []]]; [contradiction|]. auto.
Qed.




(** C6 (as amended).  In server.js a row that a run of the ingest handler
    adds to the logs table has the type [alarm] for the reported severity
    [alarm], [warning] for [warning] and [info] for every other severity,
    [ok] included.  In part_000 the type of the inserted row is the
    reported severity itself. *)
Theorem log_type_by_variant :
  (forall env clk uuid db req row,
     In row (ServerJs.logs (snd (ingest env clk uuid db req))) ->
     ~ In row (ServerJs.logs db) ->
     let sev := default "" (severity (fields req)) in
     (sev = "alarm" -> ServerJs.log_type row = "alarm")
     /\ (sev = "warning" -> ServerJs.log_type row = "warning")
     /\ (sev <> "alarm" -> sev <> "warning" -> ServerJs.log_type row = "info"))
  /\ (forall env_secret clk uuid db req db',
        ingest' env_secret clk uuid db req = (Ok200, db') ->
        exists row, Part000.logs db' = Part000.logs db ++ [row]
                    /\ Part000.log_type row = default "" (severity (fields req))).
Proof.
  split.
  - intros env clk uuid db req row Hin Hnew sev.
    destruct (new_row_is_logged env clk uuid db req row Hin Hnew) as [-> _].
    cbn [ServerJs.log_row ServerJs.log_type]. fold sev. unfold ServerJs.type_of.
    repeat split.
    + intros ->. reflexivity.
    + intros ->. reflexivity.
    + intros Ha Hw. apply String.eqb_neq in Ha, Hw. rewrite Ha, Hw. reflexivity.
  - intros env_secret clk uuid db req db' Hok.
    apply Part000_ingest_ok in Hok as (_ & ts & _ & Hlogs & _).
    eexists. split; [exact Hlogs | reflexivity].
Qed.

(** C8 (as amended).  In server.js the timestamp of a row that a run of
    the ingest handler adds to the logs table is the reading of the server
    clock taken in [addLog], whatever the report says.  In part_000 the
    timestamp of the row of a run that answers [{ok: true}] is the whole
    number PostgreSQL reads from the text of [Number(updatedAt) ||
    Date.now()]: for a whole [Number(updatedAt)] other than zero and below
    2^53 in magnitude that number itself, and the reading of the server
    clock when [Number(updatedAt)] is zero or [NaN], in particular when
    [updatedAt] is absent.  An accepted report whose texts PostgreSQL
    accepts, with a fresh id, is answered [{ok: true}] whenever that text
    is a BIGINT; when it is not (a fraction, an infinity, a number out of
    range) the report is neither stored nor answered. *)
Theorem log_timestamp_source :
  (forall env clk uuid db req row,
     In row (ServerJs.logs (snd (ingest env clk uuid db req))) ->
     ~ In row (ServerJs.logs db) ->
     ServerJs.log_ts row = ServerJs.at_logged clk)
  /\ (forall env_secret clk uuid db req db',
        ingest' env_secret clk uuid db req = (Ok200, db') ->
        let given := Part000.ToNumber StringToNumber (updatedAt (fields req)) in
        exists row,
          Part000.logs db' = Part000.logs db ++ [row]
          /\ pg_bigint (Part000.ts_of StringToNumber (updatedAt (fields req))
                          (Part000.at_ingest clk)) = Normal (Part000.log_ts row)
          /\ (num_truthy given = true -> pg_bigint given = Normal (Part000.log_ts row))
          /\ (forall q z, given = Fin q -> (q == inject_Z z)%Q -> z <> 0 ->
                - 2 ^ 53 < z < 2 ^ 53 -> Part000.log_ts row = z)
          /\ (num_truthy given = false -> - 2 ^ 53 < Part000.at_ingest clk < 2 ^ 53 ->
              Part000.log_ts row = Part000.at_ingest clk)
          /\ (updatedAt (fields req) = JUndefined ->
              - 2 ^ 53 < Part000.at_ingest clk < 2 ^ 53 ->
              Part000.log_ts row = Part000.at_ingest clk))
  /\ (forall env_secret clk uuid db req ts,
        Part000.accepted StringToNumber env_secret clk req = true ->
        Part000.status_texts toLowerCase (fields req) = true ->
        Part000.log_texts (fields req) = true ->
        ~ In uuid (map Part000.log_id (Part000.logs db)) ->
        pg_bigint (Part000.ts_of StringToNumber (updatedAt (fields req))
                     (Part000.at_ingest clk)) = Normal ts ->
        fst (ingest' env_secret clk uuid db req) = Ok200
        /\ Part000.logs (snd (ingest' env_secret clk uuid db req))
           = Part000.logs db ++ [Part000.log_row ts uuid (fields req)])
  /\ (forall env_secret clk uuid db req e,
        Part000.accepted StringToNumber env_secret clk req = true ->
        pg_bigint (Part000.ts_of StringToNumber (updatedAt (fields req))
                     (Part000.at_ingest clk)) = Throw e ->
        ingest' env_secret clk uuid db req = (Unanswered PgInvalidInput, db)).
Proof.
  split; [|split; [|split]].
  - intros env clk uuid db req row Hin Hnew.
    destruct (new_row_is_logged env clk uuid db req row Hin Hnew) as [-> _]. reflexivity.
  - intros env_secret clk uuid db req db' Hok given.
    apply Part000_ingest_ok in Hok as (_ & ts & Hts & Hlogs & _).
    exists (Part000.log_row ts uuid (fields req)). split; [exact Hlogs|].
    cbn [Part000.log_row Part000.log_ts]. split; [exact Hts|].
    unfold Part000.ts_of in Hts. fold given in Hts.
    assert (Hfalse : num_truthy given = false ->
                     - 2 ^ 53 < Part000.at_ingest clk < 2 ^ 53 ->
                     ts = Part000.at_ingest clk).
    { intros Hg Hclk. rewrite Hg, (pg_bigint_of_clock _ Hclk) in Hts. congruence. }
    repeat split.
    + intros Hg. rewrite Hg in Hts. exact Hts.
    + intros q z Hq Hqz Hz Hsmall.
      assert (Hg : num_truthy given = true).
      { rewrite Hq. cbn [num_truthy]. apply negb_true_iff.
        destruct (Qeq_bool q 0) eqn:H0; [|reflexivity]. exfalso.
        apply Qeq_bool_iff in H0. rewrite H0 in Hqz.
        apply Hz. symmetry. exact (proj1 (inject_Z_injective 0 z) Hqz). }
      rewrite Hg, Hq, (pg_bigint_small q z Hqz Hsmall) in Hts. congruence.
    + exact Hfalse.
    + intros Hu. apply Hfalse. unfold given. rewrite Hu. reflexivity.
  - intros env_secret clk uuid db req ts Hacc Hst Hlt Hfresh Hts.
    rewrite (Part000_ingest_accepted _ _ _ _ _ _ _ _ Hacc), Hts, Hst, Hlt. cbn [negb]. cbv zeta.
    destruct (existsb _ _) eqn:Hex; [|split; reflexivity].
    exfalso. apply existsb_exists in Hex as (r & Hr & Heq). apply N.eqb_eq in Heq.
    apply Hfresh. rewrite <- Heq. apply in_map. assumption.
  - intros env_secret clk uuid db req e Hacc Hts.
    rewrite (Part000_ingest_accepted _ _ _ _ _ _ _ _ Hacc), Hts.
    apply pg_bigint_throws in Hts. subst e. reflexivity.
Qed.

End IngestClaims.

Section RetentionClaim.

Variable StringToNumber : string -> jsnum.
Variable toLowerCase : string -> string.
Variable order_by_ts_desc : list ServerJs.LogRow -> list ServerJs.LogRow.
Variable order_by_ts_desc' : list Part000.LogRow -> list Part000.LogRow.
Hypothesis order_perm : forall t, Permutation (order_by_ts_desc t) t.
Hypothesis order_sorted : forall t,
  StronglySorted (fun a b => ServerJs.log_ts b <= ServerJs.log_ts a) (order_by_ts_desc t).

Local Abbreviation ingest := (ServerJs.ingest StringToNumber toLowerCase order_by_ts_desc).
Local Abbreviation inserted := (ServerJs.inserted StringToNumber toLowerCase).
Local Abbreviation ingest_all :=
  (ServerJs.ingest_all StringToNumber toLowerCase order_by_ts_desc).
Local Abbreviation inserted_all :=
  (ServerJs.inserted_all StringToNumber toLowerCase order_by_ts_desc).
Local Abbreviation ingest' := (Part000.ingest StringToNumber toLowerCase order_by_ts_desc').

Lemma window_step all table row :
  window_of all table ->
  List.NoDup (map ServerJs.log_id table) ->
  ~ In (ServerJs.log_id row) (map ServerJs.log_id table) ->
  ServerJs.row_accepted row = true ->
  window_of (all ++ [row]) (ServerJs.delete_beyond order_by_ts_desc 200 (table ++ [row]))
  /\ List.NoDup (map ServerJs.log_id
                   (ServerJs.delete_beyond order_by_ts_desc 200 (table ++ [row]))).
Proof.
  intros Hw Hnd Hfresh Hrow. destruct row as [uuid now type comp title acked].
  apply (addLog_window order_by_ts_desc order_perm order_sorted
           all table now uuid type comp title acked); [assumption | assumption|].
  unfold ServerJs.addLog. rewrite insert_log_spec, Hrow. cbn [negb].
  destruct (existsb _ _) eqn:Hex; [|reflexivity].
  apply existsb_eqb_In in Hex. contradiction.
Qed.

Lemma window_run env runs :
  forall db all,
    window_of all (ServerJs.logs db) ->
    List.NoDup (map ServerJs.log_id (ServerJs.logs db)) ->
    window_of (all ++ inserted_all env db runs) (ServerJs.logs (ingest_all env db runs))
    /\ List.NoDup (map ServerJs.log_id (ServerJs.logs (ingest_all env db runs))).
Proof.
  induction runs as [|[[clk uuid] req] runs IH]; intros db all Hw Hnd.
  - cbn [ServerJs.ingest_all ServerJs.inserted_all]. rewrite app_nil_r. auto.
  - cbn [ServerJs.ingest_all ServerJs.inserted_all]. rewrite app_assoc.
    pose proof (ingest_logs StringToNumber toLowerCase order_by_ts_desc env clk uuid db req)
      as Hlogs.
    destruct (inserted_cases StringToNumber toLowerCase env clk uuid db req)
      as [Hnil | (Hone & Hfresh & Hrow)].
    + rewrite Hnil in Hlogs |- *. rewrite app_nil_r.
      apply IH; rewrite Hlogs; assumption.
    + rewrite Hone in Hlogs |- *.
      destruct (window_step all _ (ServerJs.log_row clk uuid (fields req)) Hw Hnd Hfresh Hrow)
        as [Hw' Hnd'].
      apply IH; rewrite Hlogs; assumption.
Qed.

(** C2 (as amended).  In server.js, starting from an empty [logs] table,
    after any sequence of runs of the ingest handler the table holds at
    most 200 rows, and they are 200 of the rows inserted so far, or all of
    them when fewer were inserted, none older than a row that was deleted.
    In part_000 no run of the handler deletes a row, and a run that
    answers [{ok: true}] leaves the table one row longer. *)
Theorem retention_window env db runs :
  ServerJs.logs db = [] ->
  ((List.length (ServerJs.logs (ingest_all env db runs)) <= 200)%nat
   /\ window_of (inserted_all env db runs) (ServerJs.logs (ingest_all env db runs)))
  /\ (forall env_secret clk uuid db2 req,
        exists rows,
          Part000.logs (snd (ingest' env_secret clk uuid db2 req)) = Part000.logs db2 ++ rows
          /\ (fst (ingest' env_secret clk uuid db2 req) = Ok200 -> List.length rows = 1%nat)).
Proof.
  intros Hempty. split.
  - destruct (window_run env runs db []) as [Hw _].
    + rewrite Hempty. exists []. split; [constructor|]. split; [reflexivity|].
      intros r d [].
    + rewrite Hempty. constructor.
    + cbn [app] in Hw. split; [|exact Hw].
      destruct Hw as (discarded & _ & Hlen & _). rewrite Hlen. lia.
  - intros env_secret clk uuid db2 req.
    destruct (Part000_ingest_logs StringToNumber toLowerCase order_by_ts_desc'
                env_secret clk uuid db2 req) as [[Hne ->] | (_ & _ & ts & ->)].
    + exists []. split; [rewrite app_nil_r; reflexivity | intros H; contradiction].
    + eexists. split; [reflexivity|]. intros _. reflexivity.
Qed.

End RetentionClaim.

(** * Concrete runs *)

Definition quoted (s : string) : string :=
  String (ascii_of_N 34) (s ++ String (ascii_of_N 34) "").

Definition json_ok : string :=
  "{" ++ quoted "component" ++ ":" ++ quoted "Internet" ++ ","
      ++ quoted "severity" ++ ":" ++ quoted "ok" ++ "}".
Definition json_alarm : string :=
  "{" ++ quoted "component" ++ ":" ++ quoted "Internet" ++ ","
      ++ quoted "severity" ++ ":" ++ quoted "alarm" ++ ","
      ++ quoted "reason" ++ ":" ++ quoted "timeout" ++ "}".
Definition json_router : string :=
  "{" ++ quoted "component" ++ ":" ++ quoted "Router" ++ ","
      ++ quoted "severity" ++ ":" ++ quoted "ok" ++ "}".
Definition json_zero : string :=
  "{" ++ quoted "component" ++ ":" ++ quoted "Internet" ++ ","
      ++ quoted "severity" ++ ":" ++ quoted "alarm" ++ ","
      ++ quoted "updatedAt" ++ ":0}".

(** Bodies with the escape for U+0000 in a text, with a number beyond
    2^53 and with a number beyond the largest double. *)
Definition json_nul : string :=
  "{" ++ quoted "component" ++ ":" ++ quoted "R\u0000" ++ ","
      ++ quoted "severity" ++ ":" ++ quoted "ok" ++ "}".
Definition json_nul_detail : string :=
  "{" ++ quoted "component" ++ ":" ++ quoted "Internet" ++ ","
      ++ quoted "severity" ++ ":" ++ quoted "alarm" ++ ","
      ++ quoted "detail" ++ ":" ++ quoted "a\u0000b" ++ "}".
Definition json_nul_reason : string :=
  "{" ++ quoted "component" ++ ":" ++ quoted "Internet" ++ ","
      ++ quoted "severity" ++ ":" ++ quoted "alarm" ++ ","
      ++ quoted "reason" ++ ":" ++ quoted "a\u0000" ++ ","
      ++ quoted "detail" ++ ":" ++ quoted "d" ++ "}".
Definition json_big : string :=
  "{" ++ quoted "component" ++ ":" ++ quoted "Internet" ++ ","
      ++ quoted "severity" ++ ":" ++ quoted "alarm" ++ ","
      ++ quoted "updatedAt" ++ ":1152921504606846976}".
Definition json_inf : string :=
  "{" ++ quoted "component" ++ ":" ++ quoted "Internet" ++ ","
      ++ quoted "severity" ++ ":" ++ quoted "ok" ++ ","
      ++ quoted "updatedAt" ++ ":1e999}".

(** The text [JSON.parse] makes of the escape for U+0000 between [a] and
    [b]. *)
Definition with_nul (a b : string) : string := a ++ String Ascii.zero b.

Definition report (comp sev : string) (why : option string) (at_ : jsval) : Report :=
  {| component := Some comp; severity := Some sev; reason := why; detail := None;
     updatedAt := at_ |}.

(** A request sent at 1700000000000 with nonce [n1], its body, what
    [express.json] parses it to, and its signature under ["change-me"]. *)
Definition request_of (json : string) (rep : Report) (sig : string) : Request :=
  {| x_ts := Some fixture_ts; x_nonce := Some "n1"; x_signature := Some sig;
     rawBody := Some (list_ascii_of_string json); body := Some rep |}.

Definition request_ok : Request :=
  request_of json_ok (report "Internet" "ok" None JUndefined)
    "31c53d21a8e2d5c30b6568db69856d0245dcbcd5c9a6e871add8117b3237676f".
Definition request_alarm : Request :=
  request_of json_alarm (report "Internet" "alarm" (Some "timeout") JUndefined)
    "503fb184f5a7c6eb6cb204e99a02e0819c1557a583ebf6bdc9a93de3720d6e47".
Definition request_router : Request :=
  request_of json_router (report "Router" "ok" None JUndefined)
    "dda9d14754186e11a850cc8e4909d3c1a7d833bbf57c06a3416787bff693bc74".
Definition request_zero : Request :=
  request_of json_zero (report "Internet" "alarm" None (JNum (Fin 0)))
    "d2cb93c28e290bd394ec7d4e777f62e27c57f09b58712f34130441c4514440b0".

Definition request_nul : Request :=
  request_of json_nul (report (with_nul "R" "") "ok" None JUndefined)
    "930d9319106a4c0332c7c0099eb37c5af10cda178262e0a865dcbdac6d9850f0".
Definition request_nul_detail : Request :=
  request_of json_nul_detail
    {| component := Some "Internet"; severity := Some "alarm"; reason := None;
       detail := Some (with_nul "a" "b"); updatedAt := JUndefined |}
    "da7a4a6a71ff2ab5194b96280de5f701eb465b17abfe63c39f92f38dd095dc44".
Definition request_nul_reason : Request :=
  request_of json_nul_reason
    {| component := Some "Internet"; severity := Some "alarm";
       reason := Some (with_nul "a" ""); detail := Some "d"; updatedAt := JUndefined |}
    "01a7431366c520b32d93f59ab94acec7e6dc85d2eda5f6fc6cd51498f430c106".
Definition request_big : Request :=
  request_of json_big (report "Internet" "alarm" None (JNum (Fin (inject_Z (2 ^ 60)))))
    "286c74f37d29dc74527bbe76524bf757f98801c9b69d94362acf9a6bd0b99255".
Definition json_nul_at : string :=
  "{" ++ quoted "component" ++ ":" ++ quoted "Internet" ++ ","
      ++ quoted "severity" ++ ":" ++ quoted "ok" ++ ","
      ++ quoted "updatedAt" ++ ":" ++ quoted "\u0000" ++ "}".
Definition request_nul_at : Request :=
  request_of json_nul_at (report "Internet" "ok" None (JStr (with_nul "" "")))
    "e9f428f3cc78b505497de92f373b027ab71a52edcb2da0cc5480e609ae2e219c".
Definition request_inf : Request :=
  request_of json_inf (report "Internet" "ok" None (JNum (Inf false)))
    "cc218c495ece256130717bacef3238c4a118bbc8f74a950a86196c44e7f77592".

Definition server_env : ServerJs.Env :=
  {| ServerJs.DATABASE_URL := Some "postgres://fezwd"; ServerJs.env_SHARED_SECRET := None |}.

Definition server_clock : ServerJs.Clock :=
  {| ServerJs.at_verify := 1700000000100; ServerJs.at_generated := 1700000000101;
     ServerJs.at_created := 1700000000102; ServerJs.at_updated := 1700000000103;
     ServerJs.at_logged := 1700000000104; ServerJs.at_saved := 1700000000105 |}.

Definition internet_status : ServerJs.Status :=
  {| ServerJs.s_id := "internet"; ServerJs.s_name := "Internet";
     ServerJs.s_severity := "ok"; ServerJs.s_detail := "—";
     ServerJs.s_updatedAt := JNum (Fin (inject_Z 1699999990000)) |}.

(** The store as [initDb] leaves it. *)
Definition server_db0 : ServerJs.Db :=
  {| ServerJs.generated_at := 1699999990000;
     ServerJs.snapshot := {| ServerJs.generatedAt := 1699999990000;
                             ServerJs.statuses := [internet_status] |};
     ServerJs.logs := [] |}.

Definition server_ingest :=
  ServerJs.ingest decimal_StringToNumber ascii_toLowerCase (sort_desc ServerJs.log_ts).
Definition server_ingest_all :=
  ServerJs.ingest_all decimal_StringToNumber ascii_toLowerCase (sort_desc ServerJs.log_ts).

Definition part_clock : Part000.Clock :=
  {| Part000.at_verify := 1700000000100; Part000.at_ingest := 1700000000101;
     Part000.at_readback := 1700000000102 |}.

Definition part_db0 : Part000.Db := {| Part000.statuses := ∅; Part000.logs := [] |}.

Definition part_ingest :=
  Part000.ingest decimal_StringToNumber ascii_toLowerCase (sort_desc Part000.log_ts) None.
Definition part_ingest_all :=
  Part000.ingest_all decimal_StringToNumber ascii_toLowerCase (sort_desc Part000.log_ts) None.

Local Abbreviation server_run :=
  (ServerJs.ingest decimal_StringToNumber ascii_toLowerCase (sort_desc ServerJs.log_ts)).
Local Abbreviation part_run :=
  (Part000.ingest decimal_StringToNumber ascii_toLowerCase (sort_desc Part000.log_ts) None).

Example requests_are_signed :
  hmacHex "change-me" (signed_payload fixture_ts "n1" (rawBody request_ok))
    = default "" (x_signature request_ok)
  /\ hmacHex "change-me" (signed_payload fixture_ts "n1" (rawBody request_alarm))
    = default "" (x_signature request_alarm)
  /\ hmacHex "change-me" (signed_payload fixture_ts "n1" (rawBody request_router))
    = default "" (x_signature request_router)
  /\ hmacHex "change-me" (signed_payload fixture_ts "n1" (rawBody request_zero))
    = default "" (x_signature request_zero).
Proof. vm_compute. repeat split; reflexivity. Qed.

Example more_requests_are_signed :
  Forall (fun req => hmacHex "change-me" (signed_payload fixture_ts "n1" (rawBody req))
                     = default "" (x_signature req))
    [request_nul; request_nul_detail; request_nul_reason; request_big; request_inf;
     request_nul_at].
Proof. repeat (apply List.Forall_cons; [vm_compute; reflexivity|]). apply List.Forall_nil. Qed.

(** server.js: an alarm after [initDb] is logged, the same alarm again is
    not, and the return to [ok] is logged as [info]. *)
Example server_alarm_then_ok :
  let db1 := snd (server_ingest server_env server_clock "u1" server_db0 request_alarm) in
  let db2 := snd (server_ingest server_env server_clock "u2" db1 request_alarm) in
  let db3 := snd (server_ingest server_env server_clock "u3" db2 request_ok) in
  ServerJs.logs db1
  = [ {| ServerJs.log_id := "u1"; ServerJs.log_ts := 1700000000104;
         ServerJs.log_type := "alarm"; ServerJs.log_component := "Internet";
         ServerJs.log_title := "Internet Ausfall (timeout)";
         ServerJs.log_acknowledged := false |} ]
  /\ ServerJs.logs db2 = ServerJs.logs db1
  /\ map ServerJs.log_type (ServerJs.logs db3) = ["alarm"; "info"]
  /\ map ServerJs.log_title (ServerJs.logs db3)
     = ["Internet Ausfall (timeout)"; "Internet wieder OK"].
Proof. vm_compute. repeat split; reflexivity. Qed.



Lemma retention_window_witness :
  let runs := [(server_clock, "u1", request_alarm); (server_clock, "u2", request_ok)] in
  ServerJs.logs server_db0 = []
  /\ (List.length (ServerJs.logs (server_ingest_all server_env server_db0 runs)) <= 200)%nat.
Proof.
  intros runs. split; [reflexivity|].
  exact (proj1 (proj1 (retention_window decimal_StringToNumber ascii_toLowerCase
                         (sort_desc ServerJs.log_ts) (sort_desc Part000.log_ts)
                         (sort_desc_Permutation ServerJs.log_ts)
                         (sort_desc_sorted ServerJs.log_ts)
                         server_env server_db0 runs eq_refl))).
Defined.

(** Against C2 as stated: in part_000, 201 accepted reports leave 201 rows
    in [logs], from the first to the last. *)
Lemma part000_keeps_every_row :
  map Part000.log_id
    (Part000.logs
       (part_ingest_all part_db0
          (map (fun u => (part_clock, u, request_ok)) (map N.of_nat (seq 1 201)))))
  = map N.of_nat (seq 1 201)
  /\ List.length (map N.of_nat (seq 1 201)) = 201%nat.
Proof.
  split; [|reflexivity].
  assert (Hacc : Part000.accepted decimal_StringToNumber None part_clock request_ok = true)
    by (vm_compute; reflexivity).
  assert (Hts : pg_bigint
                  (Part000.ts_of decimal_StringToNumber (updatedAt (fields request_ok))
                     (Part000.at_ingest part_clock))
                = Normal (Part000.at_ingest part_clock)) by (vm_compute; reflexivity).
  unfold part_ingest_all.
  rewrite (Part000_replay decimal_StringToNumber ascii_toLowerCase
             (sort_desc Part000.log_ts) None part_clock request_ok _ _ Hacc Hts
             eq_refl eq_refl).
  - cbn [part_db0 Part000.logs app]. rewrite map_map. cbn [Part000.log_row Part000.log_id].
    apply map_id.
  - apply Stdlib.Lists.Finite.Injective_map_NoDup; [intros x y; apply Nat2N.inj | apply List.seq_NoDup].
  - intros u _ [].
Qed.



(** A report that repeats the stored status and carries a number beyond
    the largest double as [updatedAt] is answered, and the status is
    stored with [updatedAt: null]. *)
Example infinite_updatedAt_is_stored_as_null :
  updatedAt (fields request_inf) = JNum (Inf false)
  /\ fst (server_run server_env server_clock "u1" server_db0 request_inf) = Ok200
  /\ map ServerJs.s_updatedAt
       (ServerJs.statuses
          (ServerJs.snapshot
             (snd (server_run server_env server_clock "u1" server_db0 request_inf))))
     = [JNull].
Proof. vm_compute. repeat split; reflexivity. Qed.

(** A report that repeats the stored status and carries the text U+0000
    as [updatedAt] is refused by PostgreSQL: nothing is written and the run
    does not answer. *)
Example nul_updatedAt_is_refused :
  repeats decimal_StringToNumber server_env "Internet" "ok" "—"
    (server_clock, "u1", request_nul_at)
  /\ server_run server_env server_clock "u1" server_db0 request_nul_at
     = (Unanswered PgInvalidInput, server_db0).
Proof.
  split; [hnf; split; [vm_compute; reflexivity | repeat split; reflexivity]|].
  vm_compute. reflexivity.
Qed.

(** server.js writes the log row before the snapshot: for a change whose
    detail holds U+0000 the row is inserted, the snapshot is refused, and
    the run does not answer. *)
Example log_row_without_status :
  server_run server_env server_clock "u1" server_db0 request_nul_detail
  = (Unanswered PgInvalidInput,
     {| ServerJs.generated_at := ServerJs.generated_at server_db0;
        ServerJs.snapshot := ServerJs.snapshot server_db0;
        ServerJs.logs :=
          [ {| ServerJs.log_id := "u1"; ServerJs.log_ts := 1700000000104;
               ServerJs.log_type := "alarm"; ServerJs.log_component := "Internet";
               ServerJs.log_title := "Internet Ausfall";
               ServerJs.log_acknowledged := false |} ] |}).
Proof. vm_compute. reflexivity. Qed.

Lemma log_type_by_variant_witness :
  let row := ServerJs.log_row server_clock "u1" (fields request_alarm) in
  In row (ServerJs.logs (snd (server_run server_env server_clock "u1" server_db0 request_alarm)))
  /\ ServerJs.log_type row = "alarm".
Proof.
  intros row.
  assert (Hin : In row (ServerJs.logs
                          (snd (server_run server_env server_clock "u1" server_db0
                                  request_alarm)))) by (vm_compute; left; reflexivity).
  assert (Hnew : ~ In row (ServerJs.logs server_db0)) by (intros []).
  split; [exact Hin|].
  exact (proj1 (proj1 (log_type_by_variant decimal_StringToNumber ascii_toLowerCase
                         (sort_desc ServerJs.log_ts) (sort_desc Part000.log_ts))
                  server_env server_clock "u1" server_db0 request_alarm row Hin Hnew)
           eq_refl).
Defined.

Lemma log_timestamp_source_witness :
  let row := ServerJs.log_row server_clock "u1" (fields request_alarm) in
  In row (ServerJs.logs (snd (server_run server_env server_clock "u1" server_db0 request_alarm)))
  /\ ServerJs.log_ts row = ServerJs.at_logged server_clock.
Proof.
  intros row.
  assert (Hin : In row (ServerJs.logs
                          (snd (server_run server_env server_clock "u1" server_db0
                                  request_alarm)))) by (vm_compute; left; reflexivity).
  assert (Hnew : ~ In row (ServerJs.logs server_db0)) by (intros []).
  split; [exact Hin|].
  exact (proj1 (log_timestamp_source decimal_StringToNumber ascii_toLowerCase
                  (sort_desc ServerJs.log_ts) (sort_desc Part000.log_ts))
           server_env server_clock "u1" server_db0 request_alarm row Hin Hnew).
Defined.

(** Against C6 as stated: in part_000 the row logged for the severity
    [ok] has the type [ok], and the one for the severity [alarm] the type
    [alarm]. *)
Lemma part000_type_is_severity :
  map Part000.log_type (Part000.logs (snd (part_ingest part_clock 1%N part_db0 request_ok)))
  = ["ok"]
  /\ map Part000.log_type
       (Part000.logs (snd (part_ingest part_clock 1%N part_db0 request_alarm)))
     = ["alarm"].
Proof. vm_compute. split; reflexivity. Qed.

(** Against C8 as stated: in part_000 a report that carries
    [updatedAt: 0] is logged with the reading of the server clock, and one
    that carries 2^60 is logged with the digits JavaScript prints for that
    number, which is another number. *)
Lemma part000_zero_timestamp_defaults :
  updatedAt (fields request_zero) = JNum (Fin 0)
  /\ fst (part_ingest part_clock 1%N part_db0 request_zero) = Ok200
  /\ map Part000.log_ts (Part000.logs (snd (part_ingest part_clock 1%N part_db0 request_zero)))
     = [Part000.at_ingest part_clock]
  /\ updatedAt (fields request_big) = JNum (Fin (inject_Z 1152921504606846976))
  /\ fst (part_ingest part_clock 1%N part_db0 request_big) = Ok200
  /\ map Part000.log_ts (Part000.logs (snd (part_ingest part_clock 1%N part_db0 request_big)))
     = [1152921504606847000].
Proof. vm_compute. repeat split; reflexivity. Qed.

Definition warning_row : Part000.LogRow :=
  {| Part000.log_id := 7%N; Part000.log_ts := 1700000000000;
     Part000.log_type := "warning"; Part000.log_component := "Internet";
     Part000.log_title := "Internet warning"; Part000.log_acknowledged := false |}.

Definition ok_row : Part000.LogRow :=
  {| Part000.log_id := 8%N; Part000.log_ts := 1700000001000;
     Part000.log_type := "ok"; Part000.log_component := "Internet";
     Part000.log_title := "Internet ok"; Part000.log_acknowledged := true |}.

Definition part_db_logs : Part000.Db :=
  {| Part000.statuses := ∅; Part000.logs := [warning_row; ok_row] |}.

Lemma acknowledge_frame_witness :
  List.NoDup (map Part000.log_id (Part000.logs part_db_logs))
  /\ fst (Part000.ack (Some 7%N) part_db_logs) = Part000.AckOk (Part000.set_acknowledged warning_row)
  /\ Part000.statuses (snd (Part000.ack (Some 7%N) part_db_logs)) = Part000.statuses part_db_logs.
Proof.
  assert (Hnd : List.NoDup (map Part000.log_id (Part000.logs part_db_logs))).
  { cbn. repeat constructor; cbn; intuition discriminate. }
  split; [exact Hnd|]. split; [reflexivity|].
  exact (proj1 (acknowledge_frame 7%N part_db_logs (snd (Part000.ack (Some 7%N) part_db_logs))
                  (Part000.set_acknowledged warning_row) Hnd eq_refl)).
Defined.

(** Against C3 as stated: a path parameter that is not a UUID is not
    answered with [not_ackable_or_not_found] but with a second error,
    [server_error]. *)
Lemma malformed_id_is_server_error :
  fst (Part000.ack None part_db_logs) = Part000.AckError 500 "server_error"
  /\ snd (Part000.ack None part_db_logs) = part_db_logs
  /\ Part000.AckError 500 "server_error"
     <> Part000.AckError 400 "not_ackable_or_not_found".
Proof. split; [reflexivity|]. split; [reflexivity | discriminate]. Qed.

(** The acknowledgment route on the rows above: the warning is
    acknowledged once, the [ok] row and an unknown id never, and a path
    parameter that is not a UUID is answered by the handler's [catch]. *)
Example acknowledge_runs :
  let '(out1, db1) := Part000.ack (Some 7%N) part_db_logs in
  out1 = Part000.AckOk (Part000.set_acknowledged warning_row)
  /\ fst (Part000.ack (Some 7%N) db1) = Part000.AckError 400 "not_ackable_or_not_found"
  /\ fst (Part000.ack (Some 8%N) part_db_logs) = Part000.AckError 400 "not_ackable_or_not_found"
  /\ fst (Part000.ack (Some 9%N) part_db_logs) = Part000.AckError 400 "not_ackable_or_not_found"
  /\ fst (Part000.ack None part_db_logs) = Part000.AckError 500 "server_error".
Proof. vm_compute. repeat split; reflexivity. Qed.


(** server.js, 201 calls of [addLog] one millisecond apart on an empty
    table: the 200 newest rows are left and the first one is gone. *)
Example addLog_keeps_200_newest :
  let add table n :=
    match table with
    | Normal t =>
        ServerJs.addLog (sort_desc ServerJs.log_ts) (1700000000000 + Z.of_nat n)
          (String (ascii_of_nat n) "") "info" "Internet" "Internet wieder OK" true t
    | Throw e => Throw e
    end in
  match fold_left add (seq 1 201) (Normal []) with
  | Normal table =>
      List.length table = 200%nat
      /\ map ServerJs.log_ts (firstn 1 table) = [1700000000002]
      /\ map ServerJs.log_ts (skipn 199 table) = [1700000000201]
  | Throw _ => False
  end.
Proof. vm_compute. repeat split; reflexivity. Qed.

(** * Further properties of the verifiers *)

(** [!ts || !nonce || !sig] is false. *)
Definition headers_present (req : Request) : bool :=
  opt_truthy (x_ts req) && opt_truthy (x_nonce req) && opt_truthy (x_signature req).

Definition is_lower_hex (c : ascii) : bool :=
  let n := N_of_ascii c in
  (((48 <=? n) && (n <=? 57)) || ((97 <=? n) && (n <=? 102)))%N.

Lemma headers_present_request (req : Request) :
  headers_present req = true ->
  exists ts nonce sig,
    ts <> "" /\ nonce <> "" /\ sig <> ""
    /\ req = signed_request ts nonce sig (rawBody req) (body req).
Proof.
  unfold headers_present. destruct req as [[ts|] [nonce|] [sig|] raw parsed]; cbn;
    rewrite ?andb_false_r; try discriminate.
  intros H. apply andb_true_iff in H as [H Hs]. apply andb_true_iff in H as [Ht Hn].
  exists ts, nonce, sig. rewrite <- !str_truthy_true. auto.
Qed.

Lemma headers_absent_verdicts (StringToNumber : string -> jsnum) secret now req :
  headers_present req = false ->
  ServerJs.verifyHmac StringToNumber secret now req = Normal (Rejected "missing_headers")
  /\ Part000.verifyHmac StringToNumber secret now req = Normal (Rejected "missing_headers").
Proof.
  unfold headers_present, ServerJs.verifyHmac, Part000.verifyHmac. intros H.
  assert (Hc : negb (opt_truthy (x_ts req)) || negb (opt_truthy (x_nonce req))
               || negb (opt_truthy (x_signature req)) = true).
  { destruct (opt_truthy (x_ts req)), (opt_truthy (x_nonce req)),
      (opt_truthy (x_signature req)); cbn in *; congruence. }
  rewrite Hc. split; reflexivity.
Qed.

Lemma hex_digit_pair_lower (a : ascii) :
  is_lower_hex (hexdigit (N_of_ascii a / 16)) = true
  /\ is_lower_hex (hexdigit (N_of_ascii a mod 16)) = true.
Proof. destruct a as [[] [] [] [] [] [] [] []]; vm_compute; split; reflexivity. Qed.

Lemma hex_of_buffer_shape (b : list ascii) :
  String.length (hex_of_buffer b) = (2 * List.length b)%nat
  /\ List.Forall (fun c => is_lower_hex c = true) (list_ascii_of_string (hex_of_buffer b)).
Proof.
  induction b as [|a b [IHl IHf]]; [split; [reflexivity | constructor]|].
  destruct (hex_digit_pair_lower a) as [Hhi Hlo].
  cbn [hex_of_buffer String.length List.length list_ascii_of_string]. split.
  - rewrite IHl. lia.
  - constructor; [exact Hhi|]. constructor; [exact Hlo | exact IHf].
Qed.

Lemma utf8_scan_ascii (b : list ascii) :
  List.Forall (fun c => (N_of_ascii c < 128)%N) b -> utf8_scan [] 0 128 191 b = b.
Proof.
  induction 1 as [|c b Hc _ IH]; [reflexivity|].
  cbn [utf8_scan]. unfold classify_lead.
  assert (Hle : (N_of_ascii c <=? 127)%N = true) by (apply N.leb_le; lia).
  rewrite Hle, IH. reflexivity.
Qed.

Section VerifierExtras.

Variable StringToNumber : string -> jsnum.

Local Abbreviation verify_server := (ServerJs.verifyHmac StringToNumber).
Local Abbreviation verify_part000 := (Part000.verifyHmac StringToNumber).

(** X1.  The two verifiers accept the same requests: whatever the headers,
    the body and the clock, [verifyHmac] of server.js answers [ok] exactly
    when [verifyHmac] of part_000 does. *)
Theorem verifiers_accept_alike secret now req :
  ServerJs.verifyHmac StringToNumber secret now req = Normal Verified
  <-> Part000.verifyHmac StringToNumber secret now req = Normal Verified.
Proof.
  destruct (headers_present req) eqn:Hp.
  - destruct (headers_present_request req Hp) as (ts & nonce & sig & Hts & Hn & Hs & ->).
    rewrite ServerJs_verifyHmac_spec, Part000_verifyHmac_spec by assumption.
    destruct (negb (Number_isFinite (StringToNumber ts))); cbn [orb]; [split; discriminate|].
    destruct (skew_exceeds now (StringToNumber ts) 120000); [split; discriminate|].
    reflexivity.
  - destruct (headers_absent_verdicts StringToNumber secret now req Hp) as [-> ->].
    split; discriminate.
Qed.

(** X2.  Both verifiers answer [missing_headers] exactly when one of the
    three signing headers is absent or empty; this check comes before the
    timestamp and the signature are looked at. *)
Theorem missing_headers_iff secret now req :
  (verify_server secret now req = Normal (Rejected "missing_headers")
   <-> headers_present req = false)
  /\ (verify_part000 secret now req = Normal (Rejected "missing_headers")
      <-> headers_present req = false).
Proof.
  destruct (headers_present req) eqn:Hp.
  - destruct (headers_present_request req Hp) as (ts & nonce & sig & Hts & Hn & Hs & ->).
    rewrite ServerJs_verifyHmac_spec, Part000_verifyHmac_spec by assumption.
    split; (split; [|discriminate]).
    + destruct (_ || _); [discriminate|]. destruct (bytes_eqb _ _); discriminate.
    + destruct (negb _); [discriminate|]. destruct (skew_exceeds _ _ _); [discriminate|].
      destruct (bytes_eqb _ _); discriminate.
  - destruct (headers_absent_verdicts StringToNumber secret now req Hp) as [-> ->].
    split; split; reflexivity.
Qed.

(** X3.  The verifiers keep no record of what they accepted: a request
    accepted at one reading of the clock is accepted again, nonce
    included, at every reading that is within the window of its
    timestamp. *)
Theorem replay_is_accepted secret now now' req :
  verify_part000 secret now req = Normal Verified ->
  within_window now' (StringToNumber (default "" (x_ts req))) ->
  verify_part000 secret now' req = Normal Verified
  /\ verify_server secret now' req = Normal Verified.
Proof.
  intros Hv Hw.
  assert (Hp : headers_present req = true).
  { destruct (headers_present req) eqn:Hp; [reflexivity|].
    destruct (headers_absent_verdicts StringToNumber secret now req Hp) as [_ H].
    rewrite H in Hv. discriminate. }
  destruct (headers_present_request req Hp) as (ts & nonce & sig & Hts & Hn & Hs & Hreq).
  rewrite Hreq in Hv |- *. cbn [signed_request x_ts from_option id] in Hw.
  rewrite Hreq in Hw. cbn [signed_request x_ts from_option id] in Hw.
  rewrite Part000_verifyHmac_spec in Hv by assumption.
  rewrite ServerJs_verifyHmac_spec, Part000_verifyHmac_spec by assumption.
  pose proof (within_window_finite _ _ Hw) as Hfin.
  apply skew_exceeds_false in Hw; [|assumption]. rewrite Hfin, Hw. cbn [negb orb].
  rewrite Hfin in Hv. cbn [negb] in Hv.
  destruct (skew_exceeds now (StringToNumber ts) 120000); [discriminate|].
  destruct (bytes_eqb _ _); [split; reflexivity | discriminate].
Qed.

End VerifierExtras.

(** X4.  [timingSafeEq] of part_000 compares what its two arguments decode
    to as hex: it is true exactly when the decoded buffers are equal, so it
    is symmetric, and two texts that do not start with a pair of hex digits
    compare equal. *)
Theorem timingSafeEq_compares_decodings (a b : string) :
  (Part000.timingSafeEq a b = true <-> Buffer_from_hex a = Buffer_from_hex b)
  /\ Part000.timingSafeEq a b = Part000.timingSafeEq b a
  /\ (Buffer_from_hex a = [] -> Buffer_from_hex b = [] -> Part000.timingSafeEq a b = true).
Proof.
  rewrite !Part000_timingSafeEq_spec. split; [apply bytes_eqb_eq|]. split.
  - destruct (bytes_eqb (Buffer_from_hex a) (Buffer_from_hex b)) eqn:H1,
      (bytes_eqb (Buffer_from_hex b) (Buffer_from_hex a)) eqn:H2; try reflexivity.
    + apply bytes_eqb_eq in H1. rewrite H1 in H2.
      assert (H : bytes_eqb (Buffer_from_hex b) (Buffer_from_hex b) = true)
        by (apply bytes_eqb_eq; reflexivity). congruence.
    + apply bytes_eqb_eq in H2. rewrite H2 in H1.
      assert (H : bytes_eqb (Buffer_from_hex a) (Buffer_from_hex a) = true)
        by (apply bytes_eqb_eq; reflexivity). congruence.
  - intros -> ->. reflexivity.
Qed.

(** X5.  [hmacHex] returns 64 characters, each a digit or a letter from
    [a] to [f], and they decode to the 32 bytes of the HMAC. *)
Theorem hmacHex_is_64_lower_hex (secret msg : string) :
  String.length (hmacHex secret msg) = 64%nat
  /\ List.Forall (fun c => is_lower_hex c = true) (list_ascii_of_string (hmacHex secret msg))
  /\ List.length (Buffer_from_hex (hmacHex secret msg)) = 32%nat.
Proof.
  unfold hmacHex.
  destruct (hex_of_buffer_shape
              (SHA256.hmac (list_ascii_of_string secret) (list_ascii_of_string msg)))
    as [Hlen Hall].
  rewrite hmac_length in Hlen. split; [exact Hlen|]. split; [exact Hall|].
  rewrite Buffer_from_hex_of_buffer. apply hmac_length.
Qed.

(** X6.  For a raw body of ASCII bytes the text that is signed is the
    timestamp, the nonce and the body bytes as they came, joined by dots. *)
Theorem ascii_body_is_signed_verbatim (ts nonce : string) (raw : list ascii) :
  List.Forall (fun c => (N_of_ascii c < 128)%N) raw ->
  signed_payload ts nonce (Some raw)
  = (ts ++ "." ++ nonce ++ "." ++ string_of_list_ascii raw)%string.
Proof.
  intros H. unfold signed_payload, Buffer_toString_utf8.
  rewrite (utf8_scan_ascii raw H). reflexivity.
Qed.

(** * Further properties of the ingest handler of server.js *)





Section ServerJsExtras.

Variable StringToNumber : string -> jsnum.
Variable toLowerCase : string -> string.
Variable order_by_ts_desc : list ServerJs.LogRow -> list ServerJs.LogRow.

Local Abbreviation ingest := (ServerJs.ingest StringToNumber toLowerCase order_by_ts_desc).
Local Abbreviation accepted := (ServerJs.accepted StringToNumber).
Local Abbreviation changes := (ServerJs.changes toLowerCase).
Local Abbreviation inserted := (ServerJs.inserted StringToNumber toLowerCase).
Local Abbreviation verify env clk req :=
  (ServerJs.verifyHmac StringToNumber (SHARED_SECRET (ServerJs.env_SHARED_SECRET env))
     (ServerJs.at_verify clk) req).
Local Abbreviation with_id id := (fun s : ServerJs.Status => ServerJs.s_id s = id).
Local Abbreviation id_of req := (toLowerCase (default "" (component (fields req)))).


Lemma fresh_iff (uuid : string) (table : list ServerJs.LogRow) :
  existsb (String.eqb uuid) (map ServerJs.log_id table) = false
  <-> ~ In uuid (map ServerJs.log_id table).
Proof.
  rewrite <- existsb_eqb_In. destruct (existsb _ _); split; congruence.
Qed.


Lemma inserted_one env clk uuid db req :
  accepted env clk req = true ->
  changes clk db (fields req) = true ->
  ServerJs.row_accepted (ServerJs.log_row clk uuid (fields req)) = true ->
  ~ In uuid (map ServerJs.log_id (ServerJs.logs db)) ->
  inserted env clk uuid db req = [ServerJs.log_row clk uuid (fields req)].
Proof.
  intros Hacc Hch Hrow Hfresh. unfold ServerJs.inserted. rewrite Hacc, Hch, Hrow. cbn [andb].
  assert (Hex : existsb (fun r => String.eqb (ServerJs.log_id r) uuid) (ServerJs.logs db)
                = false).
  { destruct (existsb _ _) eqn:Hex; [|reflexivity].
    apply existsb_exists in Hex as (r & Hr & Heq). apply String.eqb_eq in Heq.
    exfalso. apply Hfresh. rewrite <- Heq. apply in_map. assumption. }
  rewrite Hex. reflexivity.
Qed.

(** The call of [saveSnapshot] and the answer. *)
Lemma save_outcome_cases clk db rep table :
  (ServerJs.status_accepted (ServerJs.assigned toLowerCase clk db rep) = true
   /\ save_outcome toLowerCase clk db rep table
      = (Ok200, {| ServerJs.generated_at := ServerJs.at_saved clk;
                   ServerJs.snapshot := saved_snapshot toLowerCase clk db rep;
                   ServerJs.logs := table |}))
  \/ (ServerJs.status_accepted (ServerJs.assigned toLowerCase clk db rep) = false
      /\ save_outcome toLowerCase clk db rep table
         = (Unanswered PgInvalidInput,
            {| ServerJs.generated_at := ServerJs.generated_at db;
               ServerJs.snapshot := ServerJs.snapshot db;
               ServerJs.logs := table |})).
Proof. unfold save_outcome. destruct (ServerJs.status_accepted _); auto. Qed.

(** What a run of the handler on an accepted request comes to: the
    insert of the log row, if the report changes the fingerprint, and then
    the update of the snapshot. *)
Lemma ingest_accepted_cases env clk uuid db req :
  accepted env clk req = true ->
  (changes clk db (fields req) = true
   /\ ServerJs.row_accepted (ServerJs.log_row clk uuid (fields req)) = false
   /\ ingest env clk uuid db req = (Unanswered PgInvalidInput, db))
  \/ (changes clk db (fields req) = true
      /\ ServerJs.row_accepted (ServerJs.log_row clk uuid (fields req)) = true
      /\ In uuid (map ServerJs.log_id (ServerJs.logs db))
      /\ ingest env clk uuid db req = (Unanswered PgUniqueViolation, db))
  \/ (changes clk db (fields req) = true
      /\ ServerJs.row_accepted (ServerJs.log_row clk uuid (fields req)) = true
      /\ ~ In uuid (map ServerJs.log_id (ServerJs.logs db))
      /\ ingest env clk uuid db req
         = save_outcome toLowerCase clk db (fields req)
             (ServerJs.delete_beyond order_by_ts_desc 200
                (ServerJs.logs db ++ [ServerJs.log_row clk uuid (fields req)])))
  \/ (changes clk db (fields req) = false
      /\ ingest env clk uuid db req
         = save_outcome toLowerCase clk db (fields req) (ServerJs.logs db)).
Proof.
  intros Hacc. rewrite (ingest_accepted _ _ _ _ _ _ _ _ Hacc).
  destruct (changes clk db (fields req)); [|right; right; right; auto].
  rewrite insert_log_spec.
  destruct (ServerJs.row_accepted _); cbn [negb]; [|left; auto].
  cbn [ServerJs.log_row ServerJs.log_id].
  destruct (existsb _ _) eqn:Hex.
  - right; left. apply existsb_eqb_In in Hex. auto.
  - right; right; left. apply fresh_iff in Hex. auto.
Qed.

(** A run that does not answer [{ok: true}] has not written the
    snapshot. *)
Lemma refused_snapshot env clk uuid db req :
  fst (ingest env clk uuid db req) <> Ok200 ->
  ServerJs.snapshot (snd (ingest env clk uuid db req)) = ServerJs.snapshot db.
Proof.
  intros Hne. destruct (accepted env clk req) eqn:Hacc.
  - destruct (ingest_accepted_cases env clk uuid db req Hacc)
      as [(_ & _ & H) | [(_ & _ & _ & H) | [(_ & _ & _ & H) | (_ & H)]]];
      rewrite H in Hne |- *; try reflexivity;
      unfold save_outcome in *; destruct (ServerJs.status_accepted _);
      (contradiction || reflexivity).
  - rewrite (proj1 (ingest_not_accepted _ _ _ _ _ uuid db _ Hacc)). reflexivity.
Qed.

(** X7.  A run of the ingest handler of server.js that does not answer
    [{ok: true}] leaves the snapshot row as it was.  It leaves the logs
    table as it was too, with one exception: the report changes the
    status, its log row is inserted, and PostgreSQL then refuses the
    snapshot; the run ends without an answer and the row stays.  A run
    that answers with an error status, or that fails on a taken id,
    changes nothing. *)
Theorem server_refusal_keeps_snapshot env clk uuid db req :
  fst (ingest env clk uuid db req) <> Ok200 ->
  ServerJs.snapshot (snd (ingest env clk uuid db req)) = ServerJs.snapshot db
  /\ ServerJs.generated_at (snd (ingest env clk uuid db req)) = ServerJs.generated_at db
  /\ (ServerJs.logs (snd (ingest env clk uuid db req)) = ServerJs.logs db
      \/ (fst (ingest env clk uuid db req) = Unanswered PgInvalidInput
          /\ inserted env clk uuid db req = [ServerJs.log_row clk uuid (fields req)]
          /\ ServerJs.logs (snd (ingest env clk uuid db req))
             = ServerJs.delete_beyond order_by_ts_desc 200
                 (ServerJs.logs db ++ [ServerJs.log_row clk uuid (fields req)])))
  /\ (forall status error,
        fst (ingest env clk uuid db req) = Error status error ->
        snd (ingest env clk uuid db req) = db)
  /\ (fst (ingest env clk uuid db req) = Unanswered PgUniqueViolation ->
      snd (ingest env clk uuid db req) = db).
Proof.
  intros Hne. destruct (accepted env clk req) eqn:Hacc.
  - destruct (ingest_accepted_cases env clk uuid db req Hacc)
      as [(_ & _ & H) | [(_ & _ & _ & H) | [(Hch & Hrow & Hfresh & H) | (_ & H)]]];
      rewrite H in Hne |- *.
    + cbn [fst snd]. repeat split; auto.
    + cbn [fst snd]. repeat split; auto.
    + destruct (save_outcome_cases clk db (fields req)
                  (ServerJs.delete_beyond order_by_ts_desc 200
                     (ServerJs.logs db ++ [ServerJs.log_row clk uuid (fields req)])))
        as [[_ Hs] | [_ Hs]]; rewrite Hs in Hne |- *; cbn [fst snd] in *; [contradiction|].
      cbn [ServerJs.snapshot ServerJs.generated_at ServerJs.logs].
      split; [reflexivity|]. split; [reflexivity|]. split; [|split; discriminate].
      right. split; [reflexivity|]. split; [|reflexivity].
      apply inserted_one; assumption.
    + destruct (save_outcome_cases clk db (fields req) (ServerJs.logs db))
        as [[_ Hs] | [_ Hs]]; rewrite Hs in Hne |- *; cbn [fst snd] in *; [contradiction|].
      cbn [ServerJs.snapshot ServerJs.generated_at ServerJs.logs].
      split; [reflexivity|]. split; [reflexivity|]. split; [left; reflexivity|].
      split; discriminate.
  - rewrite (proj1 (ingest_not_accepted _ _ _ _ _ uuid db _ Hacc)). repeat split; auto.
Qed.


End ServerJsExtras.

Section ServerJsStatuses.

Variable StringToNumber : string -> jsnum.
Variable toLowerCase : string -> string.
Variable order_by_ts_desc : list ServerJs.LogRow -> list ServerJs.LogRow.

Local Abbreviation ingest := (ServerJs.ingest StringToNumber toLowerCase order_by_ts_desc).
Local Abbreviation accepted := (ServerJs.accepted StringToNumber).
Local Abbreviation changes := (ServerJs.changes toLowerCase).
Local Abbreviation inserted := (ServerJs.inserted StringToNumber toLowerCase).
Local Abbreviation with_id id := (fun s : ServerJs.Status => ServerJs.s_id s = id).
Local Abbreviation comp_of req := (default "" (component (fields req))).
Local Abbreviation statuses_of db := (ServerJs.statuses (ServerJs.snapshot db)).

(** The status the handler stores for a report whose component has none
    yet. *)
Definition created_status (clk : ServerJs.Clock) (rep : Report) : ServerJs.Status :=
  {| ServerJs.s_id := toLowerCase (default "" (component rep));
     ServerJs.s_name := default "" (component rep);
     ServerJs.s_severity := default "" (severity rep);
     ServerJs.s_detail := ServerJs.detail_of rep;
     ServerJs.s_updatedAt :=
       ServerJs.json_value
         (if truthy (updatedAt rep) then updatedAt rep
          else JNum (Fin (inject_Z (ServerJs.at_updated clk)))) |}.

(** The array of statuses the handler stores. *)
Lemma saved_statuses clk db rep :
  ServerJs.statuses (saved_snapshot toLowerCase clk db rep)
  = match list_find (with_id (toLowerCase (default "" (component rep)))) (statuses_of db) with
    | Some (i, st) =>
        <[i := ServerJs.json_status (ServerJs.update_status clk rep st)]> (statuses_of db)
    | None => statuses_of db ++ [created_status clk rep]
    end.
Proof.
  unfold saved_snapshot, ServerJs.find_or_create.
  destruct (list_find _ _) as [[i st]|]; [reflexivity|].
  cbn [ServerJs.statuses]. rewrite insert_app_r_alt by lia. rewrite Nat.sub_diag.
  reflexivity.
Qed.

(** The snapshot after a run: the one of before, or the stored one when
    the run answers [{ok: true}]. *)
Lemma statuses_after env clk uuid db req :
  (fst (ingest env clk uuid db req) <> Ok200
   /\ ServerJs.snapshot (snd (ingest env clk uuid db req)) = ServerJs.snapshot db)
  \/ (fst (ingest env clk uuid db req) = Ok200
      /\ accepted env clk req = true
      /\ ServerJs.snapshot (snd (ingest env clk uuid db req))
         = saved_snapshot toLowerCase clk db (fields req)).
Proof.
  destruct (fst (ingest env clk uuid db req)) eqn:Hout.
  - right. split; [reflexivity|].
    destruct (accepted env clk req) eqn:Hacc.
    + split; [reflexivity|].
      destruct (ingest_accepted_cases StringToNumber toLowerCase order_by_ts_desc
                  env clk uuid db req Hacc)
        as [(_ & _ & H) | [(_ & _ & _ & H) | [(_ & _ & _ & H) | (_ & H)]]];
        rewrite H in Hout |- *; try discriminate;
        unfold save_outcome in *; destruct (ServerJs.status_accepted _);
        (discriminate || reflexivity).
    + destruct (ingest_not_accepted StringToNumber toLowerCase order_by_ts_desc
                  _ _ uuid db _ Hacc) as [_ H2]. contradiction.
  - left. split; [discriminate|].
    apply (refused_snapshot StringToNumber toLowerCase order_by_ts_desc env clk uuid db req).
    rewrite Hout. discriminate.
  - left. split; [discriminate|].
    apply (refused_snapshot StringToNumber toLowerCase order_by_ts_desc env clk uuid db req).
    rewrite Hout. discriminate.
Qed.

(** X9.  Whatever the run of the ingest handler of server.js, the array
    of statuses keeps its entries in place, each with its id and its name:
    only an entry with the id of the reported component can change, at
    most one entry is added, and ids that were all different stay all
    different. *)
Theorem server_statuses_frame env clk uuid db req :
  List.NoDup (map ServerJs.s_id (statuses_of db)) ->
  let after := statuses_of (snd (ingest env clk uuid db req)) in
  List.NoDup (map ServerJs.s_id after)
  /\ (List.length (statuses_of db) <= List.length after <= S (List.length (statuses_of db)))%nat
  /\ forall j st,
       statuses_of db !! j = Some st ->
       exists st',
         after !! j = Some st'
         /\ ServerJs.s_id st' = ServerJs.s_id st
         /\ ServerJs.s_name st' = ServerJs.s_name st
         /\ (ServerJs.s_id st <> toLowerCase (comp_of req) -> st' = st).
Proof.
  intros Hnd after. subst after.
  destruct (statuses_after env clk uuid db req) as [[_ ->] | (_ & _ & ->)].
  { split; [exact Hnd|]. split; [lia|]. intros j st Hj. exists st. auto. }
  rewrite saved_statuses.
  destruct (list_find _ _) as [[i st0]|] eqn:Hfind.
  - apply list_find_Some in Hfind as (Hi & Hid & _).
    assert (Hids : map ServerJs.s_id
                     (<[i := ServerJs.json_status (ServerJs.update_status clk (fields req) st0)]>
                        (statuses_of db))
                   = map ServerJs.s_id (statuses_of db)).
    { change (map ServerJs.s_id ?l) with (ServerJs.s_id <$> l).
      rewrite list_fmap_insert. apply list_insert_id.
      rewrite list_lookup_fmap, Hi. reflexivity. }
    split; [rewrite Hids; exact Hnd|]. split; [rewrite length_insert; lia|].
    intros j st Hj. destruct (decide (i = j)) as [<- | Hne].
    + exists (ServerJs.json_status (ServerJs.update_status clk (fields req) st0)).
      rewrite list_lookup_insert_eq by (eapply lookup_lt_Some; eassumption).
      assert (st = st0) by congruence. subst st.
      repeat split; try reflexivity. intros Hne. contradiction.
    + exists st. rewrite list_lookup_insert_ne by assumption. auto.
  - apply list_find_None in Hfind.
    split; [|split].
    + rewrite map_app. cbn [map created_status ServerJs.s_id].
      eapply Permutation_NoDup; [apply Permutation_cons_append|].
      constructor; [|exact Hnd].
      intros Hin. apply in_map_iff in Hin as (y & Hy & Hin).
      rewrite List.Forall_forall in Hfind. exact (Hfind y Hin Hy).
    + rewrite length_app. cbn. lia.
    + intros j st Hj. exists st. rewrite lookup_app_l by (eapply lookup_lt_Some; eassumption).
      auto.
Qed.

(** X10.  After a run of the ingest handler of server.js that answers
    [{ok: true}], looking up the id of the reported component finds a
    status with the reported severity, the detail derived from the report
    and, as [updatedAt], what JSON keeps of the reported value (the
    clock's reading when the value is absent or falsy, [null] when it is a
    number that is not finite); its name is the one it had, or the
    component as reported when the status is new; and none of these texts
    holds U+0000. *)
Theorem server_status_after_ok env clk uuid db req :
  fst (ingest env clk uuid db req) = Ok200 ->
  exists i st',
    list_find (with_id (toLowerCase (comp_of req)))
      (statuses_of (snd (ingest env clk uuid db req))) = Some (i, st')
    /\ ServerJs.s_severity st' = default "" (severity (fields req))
    /\ ServerJs.s_detail st' = ServerJs.detail_of (fields req)
    /\ ServerJs.s_updatedAt st'
       = ServerJs.json_value
           (if truthy (updatedAt (fields req)) then updatedAt (fields req)
            else JNum (Fin (inject_Z (ServerJs.at_updated clk))))
    /\ ServerJs.s_name st'
       = match list_find (with_id (toLowerCase (comp_of req))) (statuses_of db) with
         | Some (_, st) => ServerJs.s_name st
         | None => comp_of req
         end
    /\ pg_text (ServerJs.s_severity st') = true
    /\ pg_text (ServerJs.s_detail st') = true
    /\ pg_text (ServerJs.s_name st') = true
    /\ (forall negative, updatedAt (fields req) = JNum (Inf negative) ->
        ServerJs.s_updatedAt st' = JNull)
    /\ (truthy (updatedAt (fields req)) = false ->
        ServerJs.s_updatedAt st' = JNum (Fin (inject_Z (ServerJs.at_updated clk)))).
Proof.
  intros Hok.
  destruct (statuses_after env clk uuid db req) as [[Hne _] | (_ & Hacc & Hsnap)];
    [contradiction|].
  assert (Hst : ServerJs.status_accepted
                  (ServerJs.assigned toLowerCase clk db (fields req)) = true).
  { destruct (ingest_accepted_cases StringToNumber toLowerCase order_by_ts_desc
                env clk uuid db req Hacc)
      as [(_ & _ & H) | [(_ & _ & _ & H) | [(_ & _ & _ & H) | (_ & H)]]];
      rewrite H in Hok; try discriminate;
      unfold save_outcome in Hok; destruct (ServerJs.status_accepted _);
      (reflexivity || discriminate). }
  unfold ServerJs.status_accepted in Hst. rewrite !andb_true_iff in Hst.
  destruct Hst as ((((_ & Hname) & Hsev) & Hdet) & _).
  rewrite Hsnap, saved_statuses.
  unfold ServerJs.assigned, ServerJs.find_or_create in Hname, Hsev, Hdet.
  destruct (list_find _ (statuses_of db)) as [[i st0]|] eqn:Hfind.
  - exists i, (ServerJs.json_status (ServerJs.update_status clk (fields req) st0)).
    apply list_find_Some in Hfind as (Hi & Hid & Hleast).
    split; [|repeat split; try (reflexivity || assumption);
              [intros negative Hu | intros Hu]; cbn; rewrite Hu; reflexivity].
    apply list_find_Some. split; [|split].
    + apply list_lookup_insert_eq. eapply lookup_lt_Some. eassumption.
    + exact Hid.
    + intros j y Hj Hlt. apply (Hleast j y); [|assumption].
      rewrite list_lookup_insert_ne in Hj by lia. assumption.
  - exists (List.length (statuses_of db)), (created_status clk (fields req)).
    apply list_find_None in Hfind.
    split; [|repeat split; try (reflexivity || assumption);
              [intros negative Hu | intros Hu]; cbn; rewrite Hu; reflexivity].
    apply list_find_Some. split; [|split].
    + rewrite lookup_app_r by lia. rewrite Nat.sub_diag. reflexivity.
    + reflexivity.
    + intros j y Hj Hlt. rewrite lookup_app_l in Hj by assumption.
      rewrite List.Forall_forall in Hfind. apply Hfind.
      apply list_elem_of_In. eapply list_elem_of_lookup_2. eassumption.
Qed.


End ServerJsStatuses.

(** * Reading the logs *)

(** [app.get("/api/snapshot")] of server.js: the snapshot document with
    its [logs] member replaced by what [getLogs] returns. *)
Inductive SnapshotAnswer : Type :=
| SnapshotError (status : Z) (error : string) : SnapshotAnswer
| SnapshotOk (snap : ServerJs.Snapshot) (logs : list ServerJs.LogRow) : SnapshotAnswer.

Definition server_snapshot_route
    (order_by_ts_desc : list ServerJs.LogRow -> list ServerJs.LogRow)
    (env : ServerJs.Env) (db : ServerJs.Db) : SnapshotAnswer :=
  if negb (ServerJs.has_pool env) then SnapshotError 500 "DATABASE_URL not set"
  else SnapshotOk (ServerJs.snapshot db) (ServerJs.getLogs order_by_ts_desc db).

Lemma StronglySorted_app_l {A : Type} (R : A -> A -> Prop) (l1 l2 : list A) :
  StronglySorted R (l1 ++ l2) -> StronglySorted R l1.
Proof.
  induction l1 as [|a l1 IH]; intros Hs; [constructor|].
  cbn in Hs. apply StronglySorted_inv in Hs as [Hs Hall]. constructor; [auto|].
  rewrite List.Forall_forall in Hall |- *. intros x Hx. apply Hall, in_or_app. auto.
Qed.

(** The first [n] rows of a table read newest first. *)
Lemma newest_first_window {A : Type} (ts : A -> Z) (order : list A -> list A) :
  (forall t, Permutation (order t) t) ->
  (forall t, StronglySorted (fun a b => ts b <= ts a) (order t)) ->
  forall n l,
    let shown := firstn n (order l) in
    let hidden := skipn n (order l) in
    List.length shown = Nat.min n (List.length l)
    /\ StronglySorted (fun a b => ts b <= ts a) shown
    /\ Permutation l (shown ++ hidden)
    /\ (forall r d, In r shown -> In d hidden -> ts d <= ts r)
    /\ ((List.length l <= n)%nat -> hidden = []).
Proof.
  intros Hperm Hsorted n l shown hidden. subst shown hidden.
  pose proof (Hsorted l) as Hs. rewrite <- (firstn_skipn n (order l)) in Hs.
  split; [rewrite length_firstn, (Permutation_length (Hperm l)); reflexivity|].
  split; [exact (StronglySorted_app_l _ _ _ Hs)|].
  split; [rewrite firstn_skipn; symmetry; apply Hperm|].
  split; [intros r d Hr Hd; exact (StronglySorted_split _ _ _ Hs r d Hr Hd)|].
  intros Hle. apply skipn_all2. rewrite (Permutation_length (Hperm l)). exact Hle.
Qed.

Section ReadingLogs.

Variable StringToNumber : string -> jsnum.
Variable toLowerCase : string -> string.
Variable order_by_ts_desc : list ServerJs.LogRow -> list ServerJs.LogRow.
Variable order_by_ts_desc' : list Part000.LogRow -> list Part000.LogRow.
Hypothesis order_perm : forall t, Permutation (order_by_ts_desc t) t.
Hypothesis order_sorted : forall t,
  StronglySorted (fun a b => ServerJs.log_ts b <= ServerJs.log_ts a) (order_by_ts_desc t).
Hypothesis order_perm' : forall t, Permutation (order_by_ts_desc' t) t.
Hypothesis order_sorted' : forall t,
  StronglySorted (fun a b => Part000.log_ts b <= Part000.log_ts a) (order_by_ts_desc' t).

(** X12.  [addLog] of server.js keeps the row it has just inserted when
    the table held fewer than 200 rows, or held 200 and one of them is
    older than the new row: with a clock that moves on, the row just logged
    is never the one that is cut. *)
Theorem addLog_keeps_new_row now uuid type comp title acked table table' :
  List.NoDup (map ServerJs.log_id table) ->
  (List.length table <= 200)%nat ->
  (List.length table < 200)%nat \/ (exists r, In r table /\ ServerJs.log_ts r < now) ->
  ServerJs.addLog order_by_ts_desc now uuid type comp title acked table = Normal table' ->
  In {| ServerJs.log_id := uuid; ServerJs.log_ts := now; ServerJs.log_type := type;
        ServerJs.log_component := comp; ServerJs.log_title := title;
        ServerJs.log_acknowledged := acked |} table'.
Proof.
  intros Hnd Hlen Hroom. unfold ServerJs.addLog.
  set (row := {| ServerJs.log_id := uuid |}).
  rewrite insert_log_spec. destruct (negb (ServerJs.row_accepted row)); [discriminate|].
  destruct (existsb _ _) eqn:Hex; [discriminate|]. intros [= <-].
  assert (Hfresh : ~ In uuid (map ServerJs.log_id table)).
  { intros Hin. apply existsb_eqb_In in Hin. cbn in Hex. congruence. }
  assert (Hnd1 : List.NoDup (map ServerJs.log_id (table ++ [row]))).
  { eapply Permutation_NoDup; [apply Permutation_map, Permutation_cons_append|].
    cbn. constructor; assumption. }
  set (sorted := order_by_ts_desc (table ++ [row])).
  pose proof (delete_beyond_keeps order_by_ts_desc order_perm 200 _ Hnd1) as Hkeep.
  fold sorted in Hkeep.
  pose proof (order_perm (table ++ [row])) as Hsp. fold sorted in Hsp.
  pose proof (order_sorted (table ++ [row])) as Hss. fold sorted in Hss.
  rewrite <- (firstn_skipn 200 sorted) in Hss.
  apply (Permutation_in _ (Permutation_sym Hkeep)).
  assert (Hrow : In row (firstn 200 sorted ++ skipn 200 sorted)).
  { rewrite firstn_skipn. apply (Permutation_in _ (Permutation_sym Hsp)).
    apply in_or_app. right. left. reflexivity. }
  apply in_app_or in Hrow as [Hrow | Hrow]; [exact Hrow | exfalso].
  assert (Hsl : List.length sorted = S (List.length table)).
  { rewrite (Permutation_length Hsp), length_app. cbn. lia. }
  pose proof (length_skipn 200 sorted) as Hskl.
  destruct Hroom as [Hlt | (r & Hr & Hts)].
  - destruct (skipn 200 sorted); [destruct Hrow | cbn in Hskl; lia].
  - destruct (skipn 200 sorted) as [|x [|y rest]] eqn:Hskip;
      [destruct Hrow | | cbn in Hskl; lia].
    destruct Hrow as [-> | []].
    assert (Hrs : In r (firstn 200 sorted ++ [row])).
    { rewrite <- Hskip, firstn_skipn. apply (Permutation_in _ (Permutation_sym Hsp)).
      apply in_or_app. left. assumption. }
    apply in_app_or in Hrs as [Hrs | [Heq | []]].
    + pose proof (StronglySorted_split _ _ _ Hss r row Hrs (or_introl eq_refl)) as Hle.
      cbn in Hle. lia.
    + subst r. cbn in Hts. lia.
Qed.

(** X13.  After any sequence of runs of the ingest handler of server.js
    that starts from an empty logs table, the snapshot route answers with
    the statuses as saved and with every row of the logs table, newest
    first: nothing that is stored is left out of the answer. *)
Theorem server_snapshot_shows_all env db runs :
  ServerJs.has_pool env = true ->
  ServerJs.logs db = [] ->
  let db' := ServerJs.ingest_all StringToNumber toLowerCase order_by_ts_desc env db runs in
  exists shown,
    server_snapshot_route order_by_ts_desc env db' = SnapshotOk (ServerJs.snapshot db') shown
    /\ Permutation shown (ServerJs.logs db')
    /\ StronglySorted (fun a b => ServerJs.log_ts b <= ServerJs.log_ts a) shown.
Proof.
  intros Hpool Hempty db'.
  destruct (window_run StringToNumber toLowerCase order_by_ts_desc order_perm order_sorted
              env runs db []) as [(discarded & _ & Hlen & _) _].
  { rewrite Hempty. exists []. split; [constructor|]. split; [reflexivity|]. intros r d []. }
  { rewrite Hempty. constructor. }
  fold db' in Hlen.
  destruct (newest_first_window ServerJs.log_ts order_by_ts_desc order_perm order_sorted
              200 (ServerJs.logs db')) as (_ & Hsorted & Hp & _ & Hnone).
  exists (ServerJs.getLogs order_by_ts_desc db').
  unfold server_snapshot_route. rewrite Hpool. cbn [negb]. split; [reflexivity|].
  unfold ServerJs.getLogs. split; [|exact Hsorted].
  rewrite Hnone in Hp by lia. rewrite app_nil_r in Hp. symmetry. exact Hp.
Qed.

(** X14.  [loadSnapshot] of part_000 returns all statuses and, of the logs
    table, the 200 rows with the newest timestamps (all rows when there
    are fewer), newest first; the rows it leaves out are not newer than
    the ones it returns, and they stay in the table. *)
Theorem part000_snapshot_window now db :
  let snap := Part000.loadSnapshot order_by_ts_desc' now db in
  Part000.snap_statuses snap = Part000.statuses db
  /\ Part000.snap_generatedAt snap = now
  /\ List.length (Part000.snap_logs snap) = Nat.min 200 (List.length (Part000.logs db))
  /\ StronglySorted (fun a b => Part000.log_ts b <= Part000.log_ts a) (Part000.snap_logs snap)
  /\ exists hidden,
       Permutation (Part000.logs db) (Part000.snap_logs snap ++ hidden)
       /\ (forall r d, In r (Part000.snap_logs snap) -> In d hidden ->
             Part000.log_ts d <= Part000.log_ts r)
       /\ ((List.length (Part000.logs db) <= 200)%nat -> hidden = []).
Proof.
  intros snap. subst snap. cbn [Part000.loadSnapshot Part000.snap_statuses
    Part000.snap_generatedAt Part000.snap_logs].
  destruct (newest_first_window Part000.log_ts order_by_ts_desc' order_perm' order_sorted'
              200 (Part000.logs db)) as (Hlen & Hsorted & Hp & Hord & Hnone).
  split; [reflexivity|]. split; [reflexivity|]. split; [exact Hlen|].
  split; [exact Hsorted|]. eexists. split; [exact Hp|]. split; [exact Hord | exact Hnone].
Qed.

End ReadingLogs.

(** * Further properties of part_000 *)

(** An operation on the store of part_000: a run of the ingest handler or
    a run of the ack handler. *)
Inductive Part000Op : Type :=
| OpIngest (clk : Part000.Clock) (uuid : N) (req : Request) : Part000Op
| OpAck (id : option N) : Part000Op.

Lemma Qred_zero_den (q : Q) : Qeq_bool q 0 = true -> Qden (Qred q) = 1%positive.
Proof.
  intros H. apply Qeq_bool_iff in H. apply Qred_complete in H. rewrite H. reflexivity.
Qed.

Section Part000Extras.

Variable StringToNumber : string -> jsnum.
Variable toLowerCase : string -> string.
Variable order_by_ts_desc : list Part000.LogRow -> list Part000.LogRow.

Local Abbreviation ingest := (Part000.ingest StringToNumber toLowerCase order_by_ts_desc).
Local Abbreviation accepted := (Part000.accepted StringToNumber).
Local Abbreviation ts_of := (Part000.ts_of StringToNumber).
Local Abbreviation id_of req := (toLowerCase (default "" (component (fields req)))).
Local Abbreviation status_texts := (Part000.status_texts toLowerCase).

Definition part000_step (env_secret : option string) (db : Part000.Db) (op : Part000Op)
    : Part000.Db :=
  match op with
  | OpIngest clk uuid req => snd (ingest env_secret clk uuid db req)
  | OpAck id => snd (Part000.ack id db)
  end.

Definition part000_run (env_secret : option string) (db : Part000.Db)
    (ops : list Part000Op) : Part000.Db :=
  fold_left (part000_step env_secret) ops db.

(** A run of the handler only ever adds to [logs], at its end. *)
Lemma Part000_ingest_appends env_secret clk uuid db req :
  exists rows,
    Part000.logs (snd (ingest env_secret clk uuid db req)) = Part000.logs db ++ rows.
Proof.
  destruct (Part000_ingest_logs StringToNumber toLowerCase order_by_ts_desc
              env_secret clk uuid db req) as [[_ ->] | (_ & _ & ts & ->)].
  - exists []. rewrite app_nil_r. reflexivity.
  - eexists. reflexivity.
Qed.

(** X15.  The ingest handler of part_000 writes the status before the log
    row and in no transaction: when PostgreSQL accepts the parameters of
    the status statement but the insert of the log row fails, on a text it
    refuses or on its id, the handler answers nothing, the log table is as
    before, and the status row has been written all the same. *)
Theorem part000_status_without_log env_secret clk uuid db req ts :
  accepted env_secret clk req = true ->
  pg_bigint (ts_of (updatedAt (fields req)) (Part000.at_ingest clk)) = Normal ts ->
  Part000.status_texts toLowerCase (fields req) = true ->
  Part000.log_texts (fields req) = false
  \/ In uuid (map Part000.log_id (Part000.logs db)) ->
  snd (ingest env_secret clk uuid db req)
  = {| Part000.statuses := <[id_of req := upserted ts (fields req)]> (Part000.statuses db);
       Part000.logs := Part000.logs db |}
  /\ (Part000.log_texts (fields req) = false ->
      fst (ingest env_secret clk uuid db req) = Unanswered PgInvalidInput)
  /\ (Part000.log_texts (fields req) = true ->
      fst (ingest env_secret clk uuid db req) = Unanswered PgUniqueViolation).
Proof.
  intros Hacc Hts Hst Hfail.
  rewrite (Part000_ingest_accepted _ _ _ _ _ _ _ _ Hacc), Hts, Hst. cbn [negb]. cbv zeta.
  destruct (Part000.log_texts (fields req)) eqn:Hlt; cbn [negb].
  - destruct Hfail as [Hfail | Hin]; [discriminate|].
    assert (Hex : existsb (fun r => N.eqb (Part000.log_id r) uuid) (Part000.logs db) = true).
    { apply in_map_iff in Hin as (r & Hid & Hr). apply existsb_exists. exists r.
      split; [assumption|]. apply N.eqb_eq. exact Hid. }
    rewrite Hex. cbn [fst snd]. split; [reflexivity|]. split; [discriminate | reflexivity].
  - cbn [fst snd]. split; [reflexivity|]. split; [reflexivity | discriminate].
Qed.

(** X16.  In part_000 an accepted report whose [updatedAt] converts to a
    number with a fraction or to an infinity is not stored and not
    answered: the statement that writes the status is rejected, and the
    store is as before. *)
Theorem part000_fraction_is_rejected env_secret clk uuid db req :
  accepted env_secret clk req = true ->
  (exists negative, Part000.ToNumber StringToNumber (updatedAt (fields req)) = Inf negative)
  \/ (exists q, Part000.ToNumber StringToNumber (updatedAt (fields req)) = Fin q
                /\ Qden (Qred q) <> 1%positive) ->
  ingest env_secret clk uuid db req = (Unanswered PgInvalidInput, db).
Proof.
  intros Hacc Hnum. rewrite (Part000_ingest_accepted _ _ _ _ _ _ _ _ Hacc).
  unfold Part000.ts_of. destruct Hnum as [[negative ->] | (q & -> & Hden)].
  - reflexivity.
  - cbn [num_truthy]. destruct (Qeq_bool q 0) eqn:Hz.
    + exfalso. apply Hden. apply Qred_zero_den. exact Hz.
    + cbn [negb]. unfold pg_bigint at 1. cbv zeta.
      apply Pos.eqb_neq in Hden. rewrite Hden. reflexivity.
Qed.

(** X17.  After a run of the ingest handler of part_000 that answers
    [{ok: true}], the status row of the reported component holds the name
    as reported this time, the reported severity, the detail derived from
    the report, and as its timestamp the whole number PostgreSQL reads from
    the text of [Number(updatedAt) || Date.now()], which is that number
    itself when it is below 2^53 in magnitude; every other status row is as
    before. *)
Theorem part000_status_after_ok env_secret clk uuid db req db' :
  ingest env_secret clk uuid db req = (Ok200, db') ->
  (exists ts,
     Part000.statuses db' !! id_of req
     = Some {| Part000.row_name := default "" (component (fields req));
               Part000.row_detail := Part000.detail_of (fields req);
               Part000.row_severity := default "" (severity (fields req));
               Part000.row_updated_at := ts |}
     /\ pg_bigint (ts_of (updatedAt (fields req)) (Part000.at_ingest clk)) = Normal ts
     /\ - 2 ^ 63 <= ts < 2 ^ 63
     /\ (forall q z, ts_of (updatedAt (fields req)) (Part000.at_ingest clk) = Fin q ->
           (q == inject_Z z)%Q -> - 2 ^ 53 < z < 2 ^ 53 -> ts = z))
  /\ forall k, k <> id_of req -> Part000.statuses db' !! k = Part000.statuses db !! k.
Proof.
  intros Hok. apply Part000_ingest_ok in Hok as (_ & ts & Hts & _ & Hst).
  rewrite Hst. split.
  - exists ts. split; [apply lookup_insert_eq|]. split; [exact Hts|]. split.
    + apply pg_bigint_value in Hts as (q & z & _ & _ & _ & Hr). exact Hr.
    + intros q z Hq Hqz Hsmall. rewrite Hq, (pg_bigint_small q z Hqz Hsmall) in Hts.
      congruence.
  - intros k Hk. apply lookup_insert_ne. congruence.
Qed.

(** X18.  In part_000 the row logged by a run that answers [{ok: true}]
    can be acknowledged afterwards exactly when the reported severity is
    [warning] or [alarm]: a row for [ok] is stored acknowledged, and a row
    for any other severity is stored unacknowledged and stays so. *)
Theorem part000_logged_row_ack env_secret clk uuid db req db' :
  ingest env_secret clk uuid db req = (Ok200, db') ->
  let sev := default "" (severity (fields req)) in
  ((exists log, fst (Part000.ack (Some uuid) db') = Part000.AckOk log)
   <-> sev = "warning" \/ sev = "alarm")
  /\ (fst (Part000.ack (Some uuid) db') = Part000.AckError 400 "not_ackable_or_not_found"
      <-> ~ (sev = "warning" \/ sev = "alarm"))
  /\ exists ts, In (Part000.log_row ts uuid (fields req)) (Part000.logs db')
                /\ (Part000.log_acknowledged (Part000.log_row ts uuid (fields req)) = true
                    <-> sev = "ok").
Proof.
  intros Hok sev.
  destruct (accepted env_secret clk req) eqn:Hacc;
    [|destruct (Part000_ingest_not_accepted StringToNumber toLowerCase order_by_ts_desc
                 _ _ uuid db _ Hacc) as [_ Hne]; rewrite Hok in Hne; contradiction].
  rewrite (Part000_ingest_accepted _ _ _ _ _ _ _ _ Hacc) in Hok.
  destruct (pg_bigint _) as [ts|e]; [|discriminate]. cbv zeta in Hok.
  destruct (negb (status_texts _)); [discriminate|].
  destruct (negb (Part000.log_texts _)); [discriminate|].
  destruct (existsb _ _) eqn:Hex; [discriminate|].
  injection Hok as <-. cbn [Part000.logs].
  assert (Hold : List.filter (Part000.ackable uuid) (Part000.logs db) = []).
  { apply filter_none. intros r Hr. unfold Part000.ackable.
    destruct (N.eqb (Part000.log_id r) uuid) eqn:Heq; [|reflexivity].
    exfalso. assert (Hex' : existsb (fun r0 => N.eqb (Part000.log_id r0) uuid)
                              (Part000.logs db) = true).
    { apply existsb_exists. exists r. auto. }
    congruence. }
  assert (Hack : Part000.ackable uuid (Part000.log_row ts uuid (fields req)) = true
                 <-> sev = "warning" \/ sev = "alarm").
  { unfold Part000.ackable. cbn [Part000.log_row Part000.log_id Part000.log_acknowledged
      Part000.log_type]. fold sev. rewrite N.eqb_refl. cbn [andb].
    rewrite andb_true_iff, orb_true_iff, negb_true_iff, !String.eqb_eq, String.eqb_neq.
    split; [tauto|]. intros [-> | ->]; split; auto; discriminate. }
  unfold Part000.ack, Part000.update_ack. cbn [Part000.logs].
  rewrite List.filter_app, Hold. cbn [app List.filter].
  destruct (Part000.ackable uuid (Part000.log_row ts uuid (fields req))) eqn:Ha;
    cbn [map fst].
  - pose proof (proj1 Hack eq_refl) as Hs.
    split; [split; eauto|]. split; [split; [discriminate | tauto]|].
    exists ts. split; [apply in_or_app; right; left; reflexivity|].
    cbn [Part000.log_row Part000.log_acknowledged]. fold sev. rewrite String.eqb_eq.
    split; [|intros ->; destruct Hs; discriminate].
    intros ->. destruct Hs; discriminate.
  - assert (Hn : ~ (sev = "warning" \/ sev = "alarm")).
    { intros Hs. apply Hack in Hs. discriminate. }
    split; [split; [intros [log H]; discriminate | tauto]|].
    split; [split; auto|].
    exists ts. split; [apply in_or_app; right; left; reflexivity|].
    cbn [Part000.log_row Part000.log_acknowledged]. fold sev. apply String.eqb_eq.
Qed.

(** X19.  Whatever runs of the ingest and ack handlers of part_000 follow
    one another, no log row is ever removed or given another id: the ids
    in the table before are the first ids in the table after, and ids that
    were all different stay all different. *)
Theorem part000_rows_are_kept env_secret db ops :
  List.NoDup (map Part000.log_id (Part000.logs db)) ->
  List.NoDup (map Part000.log_id (Part000.logs (part000_run env_secret db ops)))
  /\ exists more,
       map Part000.log_id (Part000.logs (part000_run env_secret db ops))
       = map Part000.log_id (Part000.logs db) ++ more.
Proof.
  unfold part000_run. revert db. induction ops as [|op ops IH]; intros db Hnd.
  - cbn. split; [exact Hnd|]. exists []. rewrite app_nil_r. reflexivity.
  - cbn [fold_left].
    assert (Hstep : List.NoDup (map Part000.log_id
                                  (Part000.logs (part000_step env_secret db op)))
                    /\ exists more,
                         map Part000.log_id (Part000.logs (part000_step env_secret db op))
                         = map Part000.log_id (Part000.logs db) ++ more).
    { destruct op as [clk uuid req | id]; cbn [part000_step].
      - split; [apply Part000_ingest_keeps_key; exact Hnd|].
        destruct (Part000_ingest_appends env_secret clk uuid db req) as [rows ->].
        rewrite map_app. eauto.
      - rewrite ack_keeps_ids. split; [exact Hnd|]. exists []. rewrite app_nil_r.
        reflexivity. }
    destruct Hstep as [Hnd1 [more1 H1]].
    destruct (IH _ Hnd1) as [Hnd2 [more2 H2]].
    split; [exact Hnd2|]. exists (more1 ++ more2). rewrite H2, H1, app_assoc. reflexivity.
Qed.

End Part000Extras.

(** X20.  The ack handler of part_000 changes nothing but [acknowledged],
    and only from false to true: after any run of it, with any id, every
    row of the logs table is the row that was there or that row
    acknowledged, a row that was acknowledged is unchanged, and the
    statuses are as before. *)
Theorem ack_only_acknowledges (id : option N) (db : Part000.Db) :
  Part000.statuses (snd (Part000.ack id db)) = Part000.statuses db
  /\ Forall2 (fun r r' =>
                r' = r
                \/ (Part000.log_acknowledged r = false /\ r' = Part000.set_acknowledged r))
       (Part000.logs db) (Part000.logs (snd (Part000.ack id db))).
Proof.
  assert (Hsame : forall l : list Part000.LogRow,
            Forall2 (fun r r' =>
                       r' = r \/ (Part000.log_acknowledged r = false
                                  /\ r' = Part000.set_acknowledged r)) l l).
  { induction l; constructor; auto. }
  unfold Part000.ack. destruct id as [u|]; [|split; [reflexivity | apply Hsame]].
  unfold Part000.update_ack.
  assert (H : Forall2 (fun r r' =>
                         r' = r \/ (Part000.log_acknowledged r = false
                                    /\ r' = Part000.set_acknowledged r))
                (Part000.logs db)
                (map (fun r => if Part000.ackable u r then Part000.set_acknowledged r else r)
                     (Part000.logs db))).
  { induction (Part000.logs db) as [|r l IH]; cbn [map]; constructor; [|exact IH].
    destruct (Part000.ackable u r) eqn:Ha; [right | left; reflexivity].
    apply AckFacts.ackable_iff in Ha as (_ & Hf & _). auto. }
  destruct (map Part000.set_acknowledged _); cbn [snd Part000.statuses Part000.logs];
    split; (reflexivity || exact H).
Qed.

(** * Starting server.js *)

(** The database as server.js finds it: each of its two tables may not
    exist yet.  The [snapshot] table is keyed by its primary key [id] and
    holds the [generated_at] column and the [data] document. *)
Record ServerStore : Type := {
  snapshot_table : option (gmap string (Z * ServerJs.Snapshot));
  logs_table : option (list ServerJs.LogRow)
}.

(** The document [initDb] inserts as the ['main'] row. *)
Definition base_snapshot (now : Z) : ServerJs.Snapshot :=
  {| ServerJs.generatedAt := now;
     ServerJs.statuses :=
       [ {| ServerJs.s_id := "internet"; ServerJs.s_name := "Internet";
            ServerJs.s_severity := "ok"; ServerJs.s_detail := "—";
            ServerJs.s_updatedAt := JNum (Fin (inject_Z now)) |} ] |}.

(** [initDb]: nothing without a pool; otherwise both tables are created
    if they do not exist, and the ['main'] row is inserted if there is
    none. *)
Definition initDb (env : ServerJs.Env) (now : Z) (s : ServerStore) : ServerStore :=
  if negb (ServerJs.has_pool env) then s
  else
    let snapshots := default ∅ (snapshot_table s) in
    let logs := default [] (logs_table s) in
    match snapshots !! "main" with
    | Some _ => {| snapshot_table := Some snapshots; logs_table := Some logs |}
    | None =>
        {| snapshot_table := Some (<["main" := (now, base_snapshot now)]> snapshots);
           logs_table := Some logs |}
    end.

(** [getSnapshot]: the [data] of the ['main'] row; [None] when the query
    or the access to [r.rows[0].data] throws. *)
Definition getSnapshot (s : ServerStore) : option ServerJs.Snapshot :=
  match snapshot_table s with
  | Some snapshots =>
      match snapshots !! "main" with
      | Some row => Some (snd row)
      | None => None
      end
  | None => None
  end.


(** X21.  [initDb] of server.js can be run again and again: with a
    database configured, a second run changes nothing, a snapshot and log
    rows that are already stored are kept as they are, and afterwards the
    snapshot can be read; on a database without a snapshot it is the
    document with the one status [internet], [ok]. *)
Theorem initDb_is_idempotent env now now' s :
  ServerJs.has_pool env = true ->
  initDb env now' (initDb env now s) = initDb env now s
  /\ (exists snap, getSnapshot (initDb env now s) = Some snap)
  /\ (forall snap, getSnapshot s = Some snap -> getSnapshot (initDb env now s) = Some snap)
  /\ (getSnapshot s = None -> getSnapshot (initDb env now s) = Some (base_snapshot now))
  /\ logs_table (initDb env now s) = Some (default [] (logs_table s)).
Proof.
  intros Hpool. unfold initDb, getSnapshot. rewrite Hpool. cbn [negb].
  destruct s as [[snapshots|] logs]; cbn [snapshot_table logs_table from_option id].
  - destruct (snapshots !! "main") as [row|] eqn:Hmain;
      cbn [snapshot_table logs_table from_option id].
    + rewrite Hmain. repeat split; eauto. discriminate.
    + rewrite lookup_insert_eq. cbn [snd]. repeat split; eauto. discriminate.
  - rewrite lookup_empty. cbn [snapshot_table logs_table from_option id].
    rewrite lookup_insert_eq. cbn [snd]. repeat split; eauto. discriminate.
Qed.

Section FirstReport.

Variable StringToNumber : string -> jsnum.
Variable toLowerCase : string -> string.
Variable order_by_ts_desc : list ServerJs.LogRow -> list ServerJs.LogRow.


End FirstReport.

(** * Further concrete runs *)

Definition json_fraction : string :=
  "{" ++ quoted "component" ++ ":" ++ quoted "Internet" ++ ","
      ++ quoted "severity" ++ ":" ++ quoted "ok" ++ ","
      ++ quoted "updatedAt" ++ ":1.5}".

Definition request_fraction : Request :=
  request_of json_fraction (report "Internet" "ok" None (JNum (Fin (3 # 2))))
    "d8ccc21825b4963a09ce5da65c48d382aa1d3c42552761bfde662e07f8c20858".

(** A request without the timestamp header. *)
Definition request_unsigned : Request :=
  {| x_ts := None; x_nonce := Some "n1"; x_signature := Some fixture_sig;
     rawBody := fixture_raw; body := None |}.

Lemma request_ok_accepted :
  ServerJs.accepted decimal_StringToNumber server_env server_clock request_ok = true
  /\ Part000.accepted decimal_StringToNumber None part_clock request_ok = true.
Proof. vm_compute. split; reflexivity. Qed.


Lemma request_fraction_accepted :
  Part000.accepted decimal_StringToNumber None part_clock request_fraction = true.
Proof. vm_compute. reflexivity. Qed.

Lemma fixture_request_verified :
  Part000.verifyHmac decimal_StringToNumber fixture_secret fixture_now
    (signed_request fixture_ts "n1" fixture_sig fixture_raw None) = Normal Verified.
Proof. vm_compute. reflexivity. Qed.

Lemma server_db0_ids :
  List.NoDup (map ServerJs.s_id (ServerJs.statuses (ServerJs.snapshot server_db0))).
Proof. cbn. constructor; [intros [] | constructor]. Qed.

Lemma part_db_logs_ids : List.NoDup (map Part000.log_id (Part000.logs part_db_logs)).
Proof. cbn. repeat constructor; cbn; intuition discriminate. Qed.

Lemma replay_is_accepted_witness :
  let req := signed_request fixture_ts "n1" fixture_sig fixture_raw None in
  Part000.verifyHmac decimal_StringToNumber fixture_secret fixture_now req = Normal Verified
  /\ within_window (fixture_now + 60000) (decimal_StringToNumber (default "" (x_ts req)))
  /\ ServerJs.verifyHmac decimal_StringToNumber fixture_secret (fixture_now + 60000) req
     = Normal Verified.
Proof.
  intros req.
  assert (Hw : within_window (fixture_now + 60000)
                 (decimal_StringToNumber (default "" (x_ts req))))
    by (vm_compute; discriminate).
  split; [exact fixture_request_verified|]. split; [exact Hw|].
  exact (proj2 (replay_is_accepted decimal_StringToNumber fixture_secret fixture_now
                  (fixture_now + 60000) req fixture_request_verified Hw)).
Defined.

Lemma ascii_body_is_signed_verbatim_witness :
  List.Forall (fun c => (N_of_ascii c < 128)%N) (list_ascii_of_string "{}")
  /\ signed_payload fixture_ts "n1" (Some (list_ascii_of_string "{}"))
     = (fixture_ts ++ "." ++ "n1" ++ "." ++ string_of_list_ascii (list_ascii_of_string "{}"))%string.
Proof.
  assert (H : List.Forall (fun c => (N_of_ascii c < 128)%N) (list_ascii_of_string "{}")).
  { cbn. repeat constructor. }
  split; [exact H|].
  exact (ascii_body_is_signed_verbatim fixture_ts "n1" (list_ascii_of_string "{}") H).
Defined.

Lemma server_refusal_keeps_snapshot_witness :
  fst (server_run server_env server_clock "u1" server_db0 request_nul_detail) <> Ok200
  /\ ServerJs.snapshot (snd (server_run server_env server_clock "u1" server_db0
                               request_nul_detail))
     = ServerJs.snapshot server_db0.
Proof.
  assert (H : fst (server_run server_env server_clock "u1" server_db0 request_nul_detail)
              <> Ok200) by (vm_compute; discriminate).
  split; [exact H|].
  exact (proj1 (server_refusal_keeps_snapshot decimal_StringToNumber ascii_toLowerCase
                  (sort_desc ServerJs.log_ts) server_env server_clock "u1" server_db0
                  request_nul_detail H)).
Defined.

Lemma server_statuses_frame_witness :
  List.NoDup (map ServerJs.s_id (ServerJs.statuses (ServerJs.snapshot server_db0)))
  /\ List.NoDup
       (map ServerJs.s_id
          (ServerJs.statuses
             (ServerJs.snapshot
                (snd (server_run server_env server_clock "u1" server_db0 request_router))))).
Proof.
  split; [exact server_db0_ids|].
  exact (proj1 (server_statuses_frame decimal_StringToNumber ascii_toLowerCase
                  (sort_desc ServerJs.log_ts) server_env server_clock "u1" server_db0
                  request_router server_db0_ids)).
Defined.

Lemma server_alarm_is_answered :
  fst (server_run server_env server_clock "u1" server_db0 request_alarm) = Ok200.
Proof. vm_compute. reflexivity. Qed.

Lemma server_status_after_ok_witness :
  fst (server_run server_env server_clock "u1" server_db0 request_alarm) = Ok200
  /\ exists i st',
       list_find (fun s => ServerJs.s_id s = ascii_toLowerCase "Internet")
         (ServerJs.statuses
            (ServerJs.snapshot
               (snd (server_run server_env server_clock "u1" server_db0 request_alarm))))
       = Some (i, st')
       /\ ServerJs.s_severity st' = "alarm"
       /\ ServerJs.s_detail st' = "Grund: timeout".
Proof.
  split; [exact server_alarm_is_answered|].
  destruct (server_status_after_ok decimal_StringToNumber ascii_toLowerCase
              (sort_desc ServerJs.log_ts) server_env server_clock "u1" server_db0
              request_alarm server_alarm_is_answered)
    as (i & st' & Hfind & Hsev & Hdet & _).
  exists i, st'. split; [exact Hfind|]. split; [exact Hsev | exact Hdet].
Defined.


Lemma addLog_keeps_new_row_witness :
  (List.length (@nil ServerJs.LogRow) < 200)%nat
  /\ In {| ServerJs.log_id := "u1"; ServerJs.log_ts := 5; ServerJs.log_type := "info";
           ServerJs.log_component := "Internet"; ServerJs.log_title := "Internet wieder OK";
           ServerJs.log_acknowledged := true |}
        [ {| ServerJs.log_id := "u1"; ServerJs.log_ts := 5; ServerJs.log_type := "info";
             ServerJs.log_component := "Internet";
             ServerJs.log_title := "Internet wieder OK";
             ServerJs.log_acknowledged := true |} ].
Proof.
  assert (Hlt : (List.length (@nil ServerJs.LogRow) < 200)%nat) by (cbn; lia).
  split; [exact Hlt|].
  refine (addLog_keeps_new_row (sort_desc ServerJs.log_ts)
            (sort_desc_Permutation ServerJs.log_ts) (sort_desc_sorted ServerJs.log_ts)
            5 "u1" "info" "Internet" "Internet wieder OK" true [] _ _ _ (or_introl Hlt) _).
  - constructor.
  - cbn. lia.
  - reflexivity.
Defined.

Lemma server_snapshot_shows_all_witness :
  let runs := [(server_clock, "u1", request_alarm)] in
  let db' := ServerJs.ingest_all decimal_StringToNumber ascii_toLowerCase
               (sort_desc ServerJs.log_ts) server_env server_db0 runs in
  ServerJs.has_pool server_env = true
  /\ ServerJs.logs server_db0 = []
  /\ exists shown,
       server_snapshot_route (sort_desc ServerJs.log_ts) server_env db'
       = SnapshotOk (ServerJs.snapshot db') shown
       /\ Permutation shown (ServerJs.logs db').
Proof.
  intros runs db'. split; [reflexivity|]. split; [reflexivity|].
  destruct (server_snapshot_shows_all decimal_StringToNumber ascii_toLowerCase
              (sort_desc ServerJs.log_ts)
              (sort_desc_Permutation ServerJs.log_ts) (sort_desc_sorted ServerJs.log_ts)
              server_env server_db0 runs eq_refl eq_refl)
    as (shown & Hroute & Hperm & _).
  exists shown. split; [exact Hroute | exact Hperm].
Defined.

Lemma part000_snapshot_window_witness :
  List.length
    (Part000.snap_logs (Part000.loadSnapshot (sort_desc Part000.log_ts) 0 part_db_logs))
  = Nat.min 200 (List.length (Part000.logs part_db_logs)).
Proof.
  exact (proj1 (proj2 (proj2 (part000_snapshot_window (sort_desc Part000.log_ts)
                                (sort_desc_Permutation Part000.log_ts)
                                (sort_desc_sorted Part000.log_ts) 0 part_db_logs)))).
Defined.

Lemma part000_status_without_log_witness :
  In 7%N (map Part000.log_id (Part000.logs part_db_logs))
  /\ Part000.status_texts ascii_toLowerCase (fields request_ok) = true
  /\ fst (part_run part_clock 7%N part_db_logs request_ok) = Unanswered PgUniqueViolation.
Proof.
  assert (Hin : In 7%N (map Part000.log_id (Part000.logs part_db_logs)))
    by (left; reflexivity).
  assert (Hts : pg_bigint
                  (Part000.ts_of decimal_StringToNumber (updatedAt (fields request_ok))
                     (Part000.at_ingest part_clock))
                = Normal (Part000.at_ingest part_clock)) by (vm_compute; reflexivity).
  split; [exact Hin|]. split; [reflexivity|].
  exact (proj2 (proj2 (part000_status_without_log decimal_StringToNumber ascii_toLowerCase
                         (sort_desc Part000.log_ts) None part_clock 7%N part_db_logs
                         request_ok _ (proj2 request_ok_accepted) Hts eq_refl
                         (or_intror Hin)))
           eq_refl).
Defined.

(** part_000: a report with a detail and with a reason that holds U+0000
    has its status written with the detail; the log row, whose title quotes
    the reason, is refused, and the run does not answer. *)
Example status_without_log_on_text :
  let out := part_run part_clock 1%N part_db0 request_nul_reason in
  fst out = Unanswered PgInvalidInput
  /\ Part000.logs (snd out) = []
  /\ Part000.statuses (snd out) !! "internet"
     = Some {| Part000.row_name := "Internet"; Part000.row_detail := "d";
               Part000.row_severity := "alarm"; Part000.row_updated_at := 1700000000101 |}.
Proof. vm_compute. repeat split; reflexivity. Qed.

Lemma part000_fraction_is_rejected_witness :
  Part000.accepted decimal_StringToNumber None part_clock request_fraction = true
  /\ part_run part_clock 1%N part_db0 request_fraction = (Unanswered PgInvalidInput, part_db0).
Proof.
  split; [exact request_fraction_accepted|].
  refine (part000_fraction_is_rejected decimal_StringToNumber ascii_toLowerCase
            (sort_desc Part000.log_ts) None part_clock 1%N part_db0 request_fraction
            request_fraction_accepted (or_intror (ex_intro _ (3 # 2)%Q (conj eq_refl _)))).
  vm_compute. discriminate.
Defined.

Lemma part000_ok_is_answered :
  part_run part_clock 1%N part_db0 request_ok
  = (Ok200, snd (part_run part_clock 1%N part_db0 request_ok)).
Proof.
  pose proof (surjective_pairing (part_run part_clock 1%N part_db0 request_ok)) as Hp.
  assert (H : fst (part_run part_clock 1%N part_db0 request_ok) = Ok200)
    by (vm_compute; reflexivity).
  rewrite H in Hp. exact Hp.
Qed.

Lemma part000_status_after_ok_witness :
  part_run part_clock 1%N part_db0 request_ok
  = (Ok200, snd (part_run part_clock 1%N part_db0 request_ok))
  /\ forall k, k <> ascii_toLowerCase "Internet" ->
       Part000.statuses (snd (part_run part_clock 1%N part_db0 request_ok)) !! k
       = Part000.statuses part_db0 !! k.
Proof.
  split; [exact part000_ok_is_answered|].
  exact (proj2 (part000_status_after_ok decimal_StringToNumber ascii_toLowerCase
                  (sort_desc Part000.log_ts) None part_clock 1%N part_db0 request_ok _
                  part000_ok_is_answered)).
Defined.

Lemma part000_logged_row_ack_witness :
  part_run part_clock 1%N part_db0 request_ok
  = (Ok200, snd (part_run part_clock 1%N part_db0 request_ok))
  /\ (fst (Part000.ack (Some 1%N) (snd (part_run part_clock 1%N part_db0 request_ok)))
      = Part000.AckError 400 "not_ackable_or_not_found"
      <-> ~ ("ok" = "warning" \/ "ok" = "alarm")).
Proof.
  split; [exact part000_ok_is_answered|].
  exact (proj1 (proj2 (part000_logged_row_ack decimal_StringToNumber ascii_toLowerCase
                         (sort_desc Part000.log_ts) None part_clock 1%N part_db0 request_ok _
                         part000_ok_is_answered))).
Defined.

Lemma part000_rows_are_kept_witness :
  let ops := [OpAck (Some 7%N); OpIngest part_clock 9%N request_ok; OpAck None] in
  List.NoDup (map Part000.log_id (Part000.logs part_db_logs))
  /\ List.NoDup
       (map Part000.log_id
          (Part000.logs
             (part000_run decimal_StringToNumber ascii_toLowerCase (sort_desc Part000.log_ts)
                None part_db_logs ops))).
Proof.
  intros ops. split; [exact part_db_logs_ids|].
  exact (proj1 (part000_rows_are_kept decimal_StringToNumber ascii_toLowerCase
                  (sort_desc Part000.log_ts) None part_db_logs ops part_db_logs_ids)).
Defined.

Lemma initDb_is_idempotent_witness :
  let empty := {| snapshot_table := None; logs_table := None |} in
  ServerJs.has_pool server_env = true
  /\ initDb server_env 2000 (initDb server_env 1000 empty) = initDb server_env 1000 empty.
Proof.
  intros empty. split; [reflexivity|].
  exact (proj1 (initDb_is_idempotent server_env 1000 2000 empty eq_refl)).
Defined.


(** * The fingerprint of server.js *)



Section Fingerprint.

Variable StringToNumber : string -> jsnum.
Variable toLowerCase : string -> string.
Variable order_by_ts_desc : list ServerJs.LogRow -> list ServerJs.LogRow.

Local Abbreviation ingest := (ServerJs.ingest StringToNumber toLowerCase order_by_ts_desc).


End Fingerprint.






